(** * Agentlify JS client: retrying transport and agent tool-execution loop

    A shallow embedding of [src/index.js] (class [Agentlify]: [_handleError],
    [request]) and of [src/agents.js] (class [Agents]: [run], [execute],
    [_extractToolCallbacks], [_executeToolCallbacks], [_executeAgent]).

    JavaScript values are modelled dynamically, the way the code inspects
    them (truthiness, optional chaining, [typeof], [===]).  Arrays that the
    code creates and pushes to, and the arrays the caller hands in, live in a
    store and are referred to by location, so that aliasing is visible.
    [async]/[await] is sequential here, so it is modelled as plain
    sequencing in a state-and-exception monad. *)

From stdpp Require Import base list strings.
From Stdlib Require Import ZArith String Ascii DecimalString Lia.

Set Warnings "-register-all".
Local Open Scope Z_scope.

(** ** JavaScript values and the primitive operations the SDK uses *)

Module JS.

(** Numbers are the integer-valued numbers (iteration counts, HTTP status
    codes, delays).  Functions are named by an identifier; what calling one
    does is given by the environment (see [Env]).  Objects are association
    lists in property order. *)
Inductive value : Type :=
| VUndefined
| VNull
| VBool (b : bool)
| VNum (n : Z)
| VStr (s : string)
| VFun (f : nat)
| VArr (xs : list value)
| VObj (props : list (string * value)).

(** ToBoolean *)
Definition truthy (v : value) : bool :=
  match v with
  | VUndefined | VNull => false
  | VBool b => b
  | VNum n => negb (n =? 0)
  | VStr s => negb (String.eqb s "")
  | VFun _ | VArr _ | VObj _ => true
  end.

Definition nullish (v : value) : bool :=
  match v with
  | VUndefined | VNull => true
  | _ => false
  end.

(** [a || b] *)
Definition or_else (a b : value) : value := if truthy a then a else b.

Definition typeof (v : value) : string :=
  match v with
  | VUndefined => "undefined"
  | VNull | VArr _ | VObj _ => "object"
  | VBool _ => "boolean"
  | VNum _ => "number"
  | VStr _ => "string"
  | VFun _ => "function"
  end.

(** [v === 'lit'] and [v === n] for a literal on the right *)
Definition strict_eq_str (v : value) (lit : string) : bool :=
  match v with
  | VStr s => String.eqb s lit
  | _ => false
  end.

Definition strict_eq_num (v : value) (lit : Z) : bool :=
  match v with
  | VNum n => n =? lit
  | _ => false
  end.

Definition isArray (v : value) : bool :=
  match v with
  | VArr _ => true
  | _ => false
  end.

(** *** Numbers as text

    A number of JavaScript is a binary64 value.  [VNum n] stands for the
    number nearest to the integer [n], which is [n] itself up to [2^53]. *)

(** A number as ToNumber gives it: an integer, a number [num / den] that
    is not an integer, an infinity, or [NaN]. *)
Inductive number : Type :=
| NaN
| Integer (n : Z)
| Fraction (num den : Z)
| Infinity (negative : bool).

(** [n / d] rounded to the nearest integer, ties to even ([d > 0]) *)
Definition round_half_even (n d : Z) : Z :=
  let q := n / d in
  let r := n mod d in
  if (d <? 2 * r) || ((2 * r =? d) && Z.odd q) then q + 1 else q.

(** The integer part of the binary logarithm of [num / den] (both positive) *)
Definition floor_log2 (num den : Z) : Z :=
  let l := Z.log2 num - Z.log2 den in
  let reached :=
    if 0 <=? l then den * 2 ^ l <=? num else den <=? num * 2 ^ (- l) in
  if reached then l else l - 1.

(** The binary64 value nearest to the positive rational [num / den]:
    53 significant bits, least exponent [-1074], ties to even, [Infinity]
    from [2^1024] on. *)
Definition nearest (num den : Z) : number :=
  let e := Z.max (floor_log2 num den - 52) (-1074) in
  if 0 <=? e then
    let m := round_half_even num (den * 2 ^ e) in
    if 2 ^ 1024 <=? m * 2 ^ e then Infinity false else Integer (m * 2 ^ e)
  else
    let m := round_half_even (num * 2 ^ (- e)) den in
    if m mod 2 ^ (- e) =? 0 then Integer (m / 2 ^ (- e))
    else Fraction m (2 ^ (- e)).

(** All the digits of an integer *)
Definition digits (n : Z) : string := NilZero.string_of_int (Z.to_int n).

(** Does the decimal [c] read back as the number [d]?  ([d] is a number from
    [2^53] on; the bounds are the midpoints to its two neighbours, which
    belong to [d] when its significand is even.) *)
Definition reads_back (d c : Z) : bool :=
  let e := Z.log2 d - 52 in
  let m := d / 2 ^ e in
  let up := 2 ^ (e + 1) in
  let down := if m =? 2 ^ 52 then 2 ^ e else 2 ^ (e + 1) in
  if Z.even m
  then (4 * d - down <=? 4 * c) && (4 * c <=? 4 * d + up)
  else (4 * d - down <? 4 * c) && (4 * c <? 4 * d + up).

(** Number::toString picks the decimal with the fewest significant digits
    that reads back as [d], the nearest one if there are two: the multiples
    of [10^p] next to [d] are tried from the coarsest [p] down. *)
Fixpoint shortest (p : nat) (d : Z) : Z :=
  let u := 10 ^ Z.of_nat p in
  let c1 := d / u * u in
  let c2 := c1 + u in
  let best :=
    match reads_back d c1, reads_back d c2 with
    | true, true =>
        if d - c1 <? c2 - d then Some c1
        else if c2 - d <? d - c1 then Some c2
        else Some (if Z.even (d / u) then c1 else c2)
    | true, false => Some c1
    | false, true => Some c2
    | false, false => None
    end in
  match best, p with
  | Some c, _ => c
  | None, O => d
  | None, S p' => shortest p' d
  end.

Fixpoint drop_zeros (cs : list ascii) : list ascii :=
  match cs with
  | c :: cs' => if Ascii.eqb c "0" then drop_zeros cs' else cs
  | [] => []
  end.

(** The digits of [c] as Number::toString lays them out: in full up to 21
    digits, with an exponent beyond. *)
Definition layout (c : Z) : string :=
  let t := digits c in
  let n := String.length t in
  if (n <=? 21)%nat then t
  else
    match rev (drop_zeros (rev (list_ascii_of_string t))) with
    | [] => t
    | [c0] => String c0 ("e+" +:+ digits (Z.of_nat (n - 1)))
    | c0 :: rest =>
        String c0 ("." +:+ string_of_list_ascii rest
                   +:+ "e+" +:+ digits (Z.of_nat (n - 1)))
    end.

(** The text of a finite number; [None] when [n] is beyond the largest
    number and stands for an infinity. *)
Definition number_text (n : Z) : option string :=
  if Z.abs n <=? 9007199254740992 then Some (digits n)
  else
    match nearest (Z.abs n) 1 with
    | Integer d =>
        Some ((if n <? 0 then "-" else "")
              +:+ layout (shortest (String.length (digits d)) d))
    | _ => None
    end.

(** Number::toString *)
Definition dec (n : Z) : string :=
  match number_text n with
  | Some t => t
  | None => if n <? 0 then "-Infinity" else "Infinity"
  end.

(** Association lists as objects *)
Fixpoint assoc (k : string) (ps : list (string * value)) : option value :=
  match ps with
  | [] => None
  | (k', v) :: ps' => if String.eqb k' k then Some v else assoc k ps'
  end.

Definition has_key (k : string) (ps : list (string * value)) : bool :=
  existsb (fun p => String.eqb (fst p) k) ps.

Definition remove_key (k : string) (ps : list (string * value))
  : list (string * value) :=
  List.filter (fun p => negb (String.eqb (fst p) k)) ps.

(** [o[k] = v]: an existing property keeps its position *)
Fixpoint obj_set (k : string) (v : value) (ps : list (string * value))
  : list (string * value) :=
  match ps with
  | [] => [(k, v)]
  | (k', v') :: ps' =>
      if String.eqb k' k then (k, v) :: ps' else (k', v') :: obj_set k v ps'
  end.

(** [{...a, ...b}] *)
Definition obj_spread (a b : list (string * value)) : list (string * value) :=
  fold_left (fun acc p => obj_set (fst p) (snd p) acc) b a.

Definition chars (s : string) : list value :=
  map (fun c => VStr (String c EmptyString)) (list_ascii_of_string s).

Fixpoint indexed (i : nat) (xs : list value) : list (string * value) :=
  match xs with
  | [] => []
  | x :: xs' => (digits (Z.of_nat i), x) :: indexed (S i) xs'
  end.

(** Own enumerable properties, as [{...v}] and rest destructuring copy them *)
Definition own_props (v : value) : list (string * value) :=
  match v with
  | VObj ps => ps
  | VArr xs => indexed 0 xs
  | VStr s => indexed 0 (chars s)
  | _ => []
  end.

(** [v.k] for a [v] that is not nullish (own data properties and [length]) *)
Definition get_prop (v : value) (k : string) : value :=
  match v with
  | VObj ps => default VUndefined (assoc k ps)
  | VArr xs =>
      if String.eqb k "length" then VNum (Z.of_nat (List.length xs))
      else default VUndefined (assoc k (indexed 0 xs))
  | VStr s =>
      if String.eqb k "length" then VNum (Z.of_nat (String.length s))
      else default VUndefined (assoc k (indexed 0 (chars s)))
  | _ => VUndefined
  end.

(** [v?.k] *)
Definition opt_member (v : value) (k : string) : value :=
  if nullish v then VUndefined else get_prop v k.

(** [v?.[i]] *)
Definition opt_index (v : value) (i : nat) : value :=
  if nullish v then VUndefined else get_prop v (digits (Z.of_nat i)).

(** The iteration protocol of [for ... of] and of spread: arrays and strings
    are iterable, other values are not. *)
Definition iterate (v : value) : option (list value) :=
  match v with
  | VArr xs => Some xs
  | VStr s => Some (chars s)
  | _ => None
  end.

Definition join (sep : string) (parts : list string) : string :=
  String.concat sep parts.

(** ToString, as a template literal applies it.  The text of a function is
    its source, which the model does not have: it is rendered as [function]. *)
Fixpoint to_string (v : value) : string :=
  match v with
  | VUndefined => "undefined"
  | VNull => "null"
  | VBool b => if b then "true" else "false"
  | VNum n => dec n
  | VStr s => s
  | VFun _ => "function"
  | VArr xs =>
      join "," (map (fun x => if nullish x then "" else to_string x) xs)
  | VObj _ => "[object Object]"
  end.

(** *** JSON.stringify *)

Definition dquote : string := String "034" EmptyString.

Definition hex_digit (n : nat) : string :=
  String.substring n 1 "0123456789abcdef".

Definition escape_char (c : ascii) : string :=
  let n := nat_of_ascii c in
  if Nat.eqb n 34 then "\" +:+ dquote
  else if Nat.eqb n 92 then "\\"
  else if Nat.eqb n 8 then "\b"
  else if Nat.eqb n 9 then "\t"
  else if Nat.eqb n 10 then "\n"
  else if Nat.eqb n 12 then "\f"
  else if Nat.eqb n 13 then "\r"
  else if Nat.ltb n 32 then
    "\u00" +:+ hex_digit (Nat.div n 16) +:+ hex_digit (Nat.modulo n 16)
  else String c EmptyString.

Definition quote (s : string) : string :=
  dquote +:+ String.concat "" (map escape_char (list_ascii_of_string s))
         +:+ dquote.

(** [None] is JavaScript's [undefined]: what [JSON.stringify] gives for
    [undefined] and for a function. *)
Fixpoint stringify (v : value) : option string :=
  match v with
  | VUndefined | VFun _ => None
  | VNull => Some "null"
  | VBool b => Some (if b then "true" else "false")
  | VNum n => Some (default "null" (number_text n))
  | VStr s => Some (quote s)
  | VArr xs =>
      Some ("[" +:+ join "," (map (fun x => default "null" (stringify x)) xs)
                +:+ "]")
  | VObj ps =>
      Some ("{" +:+ join ","
              (flat_map (fun p =>
                           match stringify (snd p) with
                           | Some s => [quote (fst p) +:+ ":" +:+ s]
                           | None => []
                           end) ps)
                +:+ "}")
  end.

Definition JSON_stringify (v : value) : value :=
  match stringify v with
  | Some s => VStr s
  | None => VUndefined
  end.

(** *** Errors

    The error classes are declared in [errors.js]; their hierarchy and
    fields are those of the type declarations: [AgentlifyError] extends
    [Error] and has [param]; [APIError] extends [AgentlifyError] and has
    [status] and [response]; [AuthenticationError], [RateLimitError] and
    [InvalidRequestError] extend [APIError]. *)
Inductive error_class : Type :=
| Error | TypeError | SyntaxError
| AgentlifyError | APIError
| AuthenticationError | RateLimitError | InvalidRequestError.

Record error : Type := mkError {
  cls : error_class;
  message : value;          (* the message the constructor was given *)
  status : option Z;
  param : option string;
  response : value
}.

(** What a [throw] (or a rejected promise) carries: an error object or any
    other value. *)
Inductive thrown : Type :=
| Exn (e : error)
| Raw (v : value).

Definition new_Error (c : error_class) (msg : string) : thrown :=
  Exn (mkError c (VStr msg) None None VUndefined).

Definition error_class_eqb (a b : error_class) : bool :=
  match a, b with
  | Error, Error | TypeError, TypeError | SyntaxError, SyntaxError
  | AgentlifyError, AgentlifyError | APIError, APIError
  | AuthenticationError, AuthenticationError
  | RateLimitError, RateLimitError
  | InvalidRequestError, InvalidRequestError => true
  | _, _ => false
  end.

Definition superclass (c : error_class) : option error_class :=
  match c with
  | Error => None
  | TypeError | SyntaxError | AgentlifyError => Some Error
  | APIError => Some AgentlifyError
  | AuthenticationError | RateLimitError | InvalidRequestError => Some APIError
  end.

Fixpoint subclass_upto (fuel : nat) (c target : error_class) : bool :=
  error_class_eqb c target ||
  match fuel, superclass c with
  | S fuel', Some c' => subclass_upto fuel' c' target
  | _, _ => false
  end.

(** [t instanceof target] *)
Definition instanceof (t : thrown) (target : error_class) : bool :=
  match t with
  | Exn e => subclass_upto 3 (cls e) target
  | Raw _ => false
  end.

End JS.
Export JS.

(** ** The environment: network, callbacks, built-ins the SDK relies on *)

(** What rejects the axios call: [error.response] (status and body) when the
    server answered, [error.request] when nothing came back, and the
    [message] of the error. *)
Record axios_error : Type := mkAxiosError {
  err_response : option (Z * value);
  err_request : bool;
  err_message : value
}.

(** One call of [this.httpClient(config)] before the error interceptor:
    a response object (after [handleResponse] of [utils.js]), a rejection
    that the error interceptor [_handleError] converts, or an error thrown
    by [handleResponse] itself. *)
Inductive http_outcome : Type :=
| HttpOk (response : value)
| HttpFail (e : axios_error)
| HttpThrow (t : thrown).

(** What awaiting a callback gives: its value, or what it threw or rejected
    with. *)
Inductive outcome : Type :=
| Return (v : value)
| Raise (t : thrown).

(** [World] is everything outside the SDK: the server and whatever state the
    caller's callbacks keep.  [http] and [call] are the two ways the SDK
    reaches it.  [JSON_parse] is the built-in (the right side is the message
    of its [SyntaxError]).  [ctor_status] is the [status] a constructor of
    [errors.js] sets when it is called without one. *)
Record Env : Type := mkEnv {
  World : Type;
  http : value -> World -> http_outcome * World;
  call : nat -> value -> World -> outcome * World;
  JSON_parse : string -> value + string;
  ctor_status : error_class -> option Z
}.

(** A location of the store of arrays *)
Abbreviation loc := nat.

(** An argument that may be an array with identity: a reference into the
    store, or any other value ([Plain (VArr xs)] is an array literal nobody
    else holds). *)
Inductive arg : Type :=
| Plain (v : value)
| ArrayRef (l : loc).

Inductive event : Type :=
| EvTransport (endpoint : value) (data : value)   (* client.request entered *)
| EvHttp (config : value)                         (* one HTTP attempt *)
| EvSleep (ms : Z)                                (* backoff delay *)
| EvCall (f : nat) (args : value).                (* a callback invoked *)

Definition is_transport (e : event) : bool :=
  match e with
  | EvTransport _ _ => true
  | _ => false
  end.

Definition is_http (e : event) : bool :=
  match e with
  | EvHttp _ => true
  | _ => false
  end.

Definition transport_calls (l : list event) : nat :=
  List.length (List.filter is_transport l).

Definition http_attempts (l : list event) : nat :=
  List.length (List.filter is_http l).

Fixpoint sleeps (l : list event) : list Z :=
  match l with
  | [] => []
  | EvSleep ms :: l' => ms :: sleeps l'
  | _ :: l' => sleeps l'
  end.

Fixpoint calls (l : list event) : list (nat * value) :=
  match l with
  | [] => []
  | EvCall f a :: l' => (f, a) :: calls l'
  | _ :: l' => calls l'
  end.

Inductive result (A : Type) : Type :=
| Ok (a : A)
| Throw (t : thrown).
Arguments Ok {A} a.
Arguments Throw {A} t.

(** The state of a run: the store of arrays, the outside world, and the
    trace of what the SDK did to it (ghost state, only appended to). *)
Record state (W : Type) : Type := mkState {
  heap : list (list value);
  world : W;
  log : list event
}.
Arguments mkState {W} heap world log.
Arguments heap {W} s.
Arguments world {W} s.
Arguments log {W} s.

Definition M (W A : Type) : Type := state W -> result A * state W.

Definition ret {W A} (a : A) : M W A := fun s => (Ok a, s).

Definition bind {W A B} (m : M W A) (k : A -> M W B) : M W B :=
  fun s =>
    match m s with
    | (Ok a, s') => k a s'
    | (Throw t, s') => (Throw t, s')
    end.

Definition throw {W A} (t : thrown) : M W A := fun s => (Throw t, s).

(** [try { m } catch (error) { handler error }] *)
Definition try_catch {W A} (m : M W A) (handler : thrown -> M W A) : M W A :=
  fun s =>
    match m s with
    | (Ok a, s') => (Ok a, s')
    | (Throw t, s') => handler t s'
    end.

Declare Scope js_scope.
Delimit Scope js_scope with js.
Notation "'let*' x ':=' m 'in' k" := (bind m (fun x => k))
  (at level 10, x pattern, m at level 100, k at level 200) : js_scope.
Local Open Scope js_scope.

Definition emit {W} (e : event) : M W unit :=
  fun s => (Ok tt, mkState (heap s) (world s) (log s ++ [e])).

(** [[]] or [[...xs]]: a new array *)
Definition alloc {W} (xs : list value) : M W loc :=
  fun s => (Ok (List.length (heap s)), mkState (heap s ++ [xs]) (world s) (log s)).

Definition contents {W} (l : loc) : M W (list value) :=
  fun s => (Ok (default [] (heap s !! l)), s).

(** [a.push(v)] *)
Definition push {W} (l : loc) (v : value) : M W unit :=
  fun s =>
    (Ok tt,
     mkState (<[l := default [] (heap s !! l) ++ [v]]> (heap s))
             (world s) (log s)).

(** [v.k]: a [TypeError] on [undefined] and [null] *)
Definition member {W} (v : value) (k : string) : M W value :=
  if nullish v
  then throw (new_Error TypeError
                ("Cannot read properties of " +:+ to_string v
                 +:+ " (reading '" +:+ k +:+ "')"))
  else ret (get_prop v k).

(** [v[i]] *)
Definition index {W} (v : value) (i : nat) : M W value :=
  member v (digits (Z.of_nat i)).

Definition truthy_arg (a : arg) : bool :=
  match a with
  | Plain v => truthy v
  | ArrayRef _ => true
  end.

Definition isArray_arg (a : arg) : bool :=
  match a with
  | Plain v => isArray v
  | ArrayRef _ => true
  end.

(** The value an argument stands for at this moment *)
Definition resolve (h : list (list value)) (a : arg) : value :=
  match a with
  | Plain v => v
  | ArrayRef l => VArr (default [] (h !! l))
  end.

(** [for (const x of a)] and [[...a]]: the elements, or a [TypeError]
    that names the expression [what] iterated over *)
Definition elements {W} (what : string) (a : arg) : M W (list value) :=
  fun s =>
    match iterate (resolve (heap s) a) with
    | Some xs => (Ok xs, s)
    | None => (Throw (new_Error TypeError (what +:+ " is not iterable")), s)
    end.

(** ** [src/index.js]: class [Agentlify] *)

Module Transport.
Section Transport.

Variable E : Env.
Local Abbreviation Mw := (M (World E)).

(** [this]: the fields of the client that [request] reads *)
Record Agentlify : Type := mkAgentlify {
  maxRetries : Z
}.

(** [data?.error?.message || data?.message || 'Unknown error'] *)
Definition errorMessage (data : value) : value :=
  or_else (or_else (opt_member (opt_member data "error") "message")
                   (opt_member data "message"))
          (VStr "Unknown error").

(** [_handleError(error)]: every branch throws; this is what it throws.
    The constructor of an error converts the message it is given to a
    string. *)
Definition _handleError (error : axios_error) : thrown :=
  match err_response error with
  | Some (status, data) =>
      if status =? 401 then
        Exn (mkError AuthenticationError (VStr (to_string (errorMessage data)))
               (ctor_status E AuthenticationError) None VUndefined)
      else if status =? 429 then
        Exn (mkError RateLimitError (VStr (to_string (errorMessage data)))
               (ctor_status E RateLimitError) None VUndefined)
      else if status =? 400 then
        Exn (mkError APIError (VStr (to_string (errorMessage data)))
               (Some status) None data)
      else if status =? 422 then
        Exn (mkError APIError (VStr (to_string (errorMessage data)))
               (Some status) None data)
      else
        Exn (mkError APIError (VStr (to_string (errorMessage data)))
               (Some status) None data)
  | None =>
      if err_request error then
        new_Error AgentlifyError "Network error: No response received"
      else
        new_Error AgentlifyError
          ("Request error: " +:+ to_string (err_message error))
  end.

(** [await this.httpClient(config)]: the axios instance with its response
    interceptors. *)
Definition httpClient (config : value) : Mw value :=
  fun s =>
    let '(o, w) := http E config (world s) in
    let s' := mkState (heap s) w (log s ++ [EvHttp config]) in
    match o with
    | HttpOk response => (Ok response, s')
    | HttpFail e => (Throw (_handleError e), s')
    | HttpThrow t => (Throw t, s')
    end.

(** [error.status < 500], [status] being a number or absent *)
Definition status_below_500 (t : thrown) : bool :=
  match t with
  | Exn e =>
      match status e with
      | Some n => n <? 500
      | None => false
      end
  | Raw _ => false
  end.

(** The guard [error instanceof AuthenticationError ||
    (error instanceof APIError && error.status < 500)] *)
Definition no_retry (error : thrown) : bool :=
  instanceof error AuthenticationError
  || (instanceof error APIError && status_below_500 error).

(** [Math.min(1000 * Math.pow(2, attempt), 10000)] *)
Definition delay (attempt : Z) : Z := Z.min (1000 * 2 ^ attempt) 10000.

Definition sleep (ms : Z) : Mw unit := emit (EvSleep ms).

(** The loop [for (let attempt = 0; attempt <= this.maxRetries; attempt++)]
    followed by [throw lastError].  [remaining] counts the iterations left:
    the guard [attempt <= maxRetries] holds exactly while it is positive. *)
Fixpoint retry_loop (this : Agentlify) (config : value)
    (remaining : nat) (attempt : Z) (lastError : thrown) : Mw value :=
  match remaining with
  | O => throw lastError
  | S remaining' =>
      try_catch
        (let* response := httpClient config in
         member response "data")
        (fun error =>
           (* lastError = error *)
           if no_retry error then throw error
           else if attempt =? maxRetries this
           then throw error                 (* break; throw lastError *)
           else
             let* _ := sleep (delay attempt) in
             retry_loop this config remaining' (attempt + 1) error)
  end.

(** The object literal [{url: endpoint, method: options.method || 'POST',
    data: options.data, params: options.params, headers: options.headers,
    ...options}] *)
Definition make_config (endpoint options : value) : value :=
  VObj (obj_spread
          [("url", endpoint);
           ("method", or_else (get_prop options "method") (VStr "POST"));
           ("data", get_prop options "data");
           ("params", get_prop options "params");
           ("headers", get_prop options "headers")]
          (own_props options)).

(** [async request(endpoint, options = {})] *)
Definition request (this : Agentlify) (endpoint : value) (options : value)
  : Mw value :=
  let options := match options with VUndefined => VObj [] | _ => options end in
  let* _ := emit (EvTransport endpoint (opt_member options "data")) in
  let* _ := member options "method" in
  let config := make_config endpoint options in
  retry_loop this config (Z.to_nat (maxRetries this + 1)) 0 (Raw VUndefined).

End Transport.
End Transport.

(** ** [src/agents.js]: class [Agents] *)

Module Agents.
Section Agents.

Variable E : Env.
Local Abbreviation Mw := (M (World E)).

(** [this.client] *)
Variable client : Transport.Agentlify.

(** The [params] object of [run] and [execute].  A field that is left out
    is [undefined]. *)
Record AgentRunParams : Type := mkParams {
  agentId : value;
  messages : arg;
  tools : arg;
  options : value;
  maxToolIterations : value
}.

(** [requestPayload]: [messages] and [tools] hold references, so the
    transport sees the arrays as they are when the request is made. *)
Record payload : Type := mkPayload {
  p_agentId : value;
  p_messages : arg;
  p_tools : option arg;
  p_options : value
}.

Definition payload_value (h : list (list value)) (p : payload) : value :=
  VObj ([("agentId", p_agentId p); ("messages", resolve h (p_messages p))]
        ++ match p_tools p with
           | Some t => [("tools", resolve h t)]
           | None => []
           end
        ++ [("options", p_options p)]).

(** [_executeAgent(payload)] *)
Definition _executeAgent (p : payload) : Mw value :=
  fun s =>
    Transport.request E client (VStr "/agents")
      (VObj [("method", VStr "POST"); ("data", payload_value (heap s) p)]) s.

(** *** The callback registry: a [Map] from tool name to callback *)

(** Key equality of [Map].  Objects and arrays are equal only to themselves;
    a key read from a response is never the object a caller registered. *)
Definition same_value_zero (a b : value) : bool :=
  match a, b with
  | VUndefined, VUndefined | VNull, VNull => true
  | VBool x, VBool y => Bool.eqb x y
  | VNum x, VNum y => x =? y
  | VStr x, VStr y => String.eqb x y
  | VFun f, VFun g => Nat.eqb f g
  | _, _ => false
  end.

Definition registry : Type := list (value * value).

Fixpoint Map_set (k v : value) (m : registry) : registry :=
  match m with
  | [] => [(k, v)]
  | (k', v') :: m' =>
      if same_value_zero k' k then (k', v) :: m' else (k', v') :: Map_set k v m'
  end.

Fixpoint Map_get (k : value) (m : registry) : value :=
  match m with
  | [] => VUndefined
  | (k', v') :: m' => if same_value_zero k' k then v' else Map_get k m'
  end.

(** [const {callback, ...toolDef} = tool]: the rest object [toolDef] *)
Definition toolDef_of (tool : value) : value :=
  VObj (remove_key "callback" (own_props tool)).

(** The [if (callback && typeof callback === 'function')] block *)
Definition register (tool : value) (toolCallbacks : registry) : registry :=
  let callback := get_prop tool "callback" in
  if truthy callback && String.eqb (typeof callback) "function"
  then
    let toolName := opt_member (get_prop tool "function") "name" in
    if truthy toolName
    then Map_set toolName callback toolCallbacks
    else toolCallbacks
  else toolCallbacks.

(** The loop [for (const tool of tools)] of [_extractToolCallbacks].
    Destructuring [undefined] or [null] is a [TypeError]. *)
Fixpoint extract_loop (cleanTools : loc) (tools : list value)
    (toolCallbacks : registry) : Mw registry :=
  match tools with
  | [] => ret toolCallbacks
  | tool :: rest =>
      if nullish tool
      then throw (new_Error TypeError
                    ("Cannot destructure property 'callback' of 'tool' as it is "
                     +:+ to_string tool +:+ "."))
      else
        let toolCallbacks' := register tool toolCallbacks in
        let* _ := push cleanTools (toolDef_of tool) in
        extract_loop cleanTools rest toolCallbacks'
  end.

(** [_extractToolCallbacks(tools)] returns [{tools: cleanTools,
    toolCallbacks}]. *)
Definition _extractToolCallbacks (tools : arg) : Mw (loc * registry) :=
  let* cleanTools := alloc [] in
  let* elems := elements "tools" tools in
  let* toolCallbacks := extract_loop cleanTools elems [] in
  ret (cleanTools, toolCallbacks).

(** *** Resolving tool calls *)

(** [await callback(args)] *)
Definition invoke (callback : value) (args : value) : Mw value :=
  match callback with
  | VFun f =>
      fun s =>
        let '(o, w) := call E f args (world s) in
        let s' := mkState (heap s) w (log s ++ [EvCall f args]) in
        match o with
        | Return v => (Ok v, s')
        | Raise t => (Throw t, s')
        end
  | _ => throw (new_Error TypeError "callback is not a function")
  end.

Definition parse (text : string) : Mw value :=
  match JSON_parse E text with
  | inl v => ret v
  | inr msg => throw (new_Error SyntaxError msg)
  end.

(** [error.message] in the [catch] block *)
Definition error_message (error : thrown) : Mw value :=
  match error with
  | Exn e => ret (message e)
  | Raw v => member v "message"
  end.

(** The body of [for (const toolCall of toolCalls)]: the element pushed on
    [results]. *)
Definition resolve_call (toolCall : value) (toolCallbacks : registry)
  : Mw value :=
  let* fn := member toolCall "function" in
  let toolName := opt_member fn "name" in
  let callback := Map_get toolName toolCallbacks in
  let* result :=
    if truthy callback then
      try_catch
        (let* args :=
           if truthy (opt_member fn "arguments") then
             match get_prop fn "arguments" with
             | VStr text => parse text
             | other => ret other
             end
           else ret (VObj []) in
         invoke callback args)
        (fun error =>
           let* m := error_message error in
           ret (VObj [("error", m)]))
    else
      ret (VObj [("error",
                  VStr ("No callback registered for tool: "
                        +:+ to_string toolName))]) in
  let* id := member toolCall "id" in
  ret (VObj [("tool_call_id", id); ("content", result)]).

Fixpoint resolve_loop (toolCalls : list value) (toolCallbacks : registry)
  : Mw (list value) :=
  match toolCalls with
  | [] => ret []
  | toolCall :: rest =>
      let* r := resolve_call toolCall toolCallbacks in
      let* rs := resolve_loop rest toolCallbacks in
      ret (r :: rs)
  end.

(** [_executeToolCallbacks(toolCalls, toolCallbacks)] *)
Definition _executeToolCallbacks (toolCalls : value)
    (toolCallbacks : registry) : Mw (list value) :=
  let* elems := elements "toolCalls" (Plain toolCalls) in
  resolve_loop elems toolCallbacks.

(** *** The run loop *)

Definition assistant_message (content toolCalls : value) : value :=
  VObj [("role", VStr "assistant");
        ("content", or_else content VNull);
        ("tool_calls", toolCalls)].

(** The [tool] message for one element of [toolResults] *)
Definition tool_message (result : value) : value :=
  let content := get_prop result "content" in
  VObj [("role", VStr "tool");
        ("tool_call_id", get_prop result "tool_call_id");
        ("content",
         if String.eqb (typeof content) "string" then content
         else JSON_stringify content)].

Fixpoint push_results (currentMessages : loc) (toolResults : list value)
  : Mw unit :=
  match toolResults with
  | [] => ret tt
  | result :: rest =>
      let* _ := push currentMessages (tool_message result) in
      push_results currentMessages rest
  end.

(** [response.choices?.[0]?.finish_reason === 'tool_calls' ||
    response.agent_metadata?.requires_tool_execution], for a [response]
    that is not nullish *)
Definition needsToolExecution (response : value) : value :=
  or_else
    (VBool (strict_eq_str
              (opt_member (opt_index (get_prop response "choices") 0)
                          "finish_reason")
              "tool_calls"))
    (opt_member (get_prop response "agent_metadata")
                "requires_tool_execution").

(** [response.choices?.[0]?.message?.tool_calls] *)
Definition pending_tool_calls (response : value) : value :=
  opt_member (opt_member (opt_index (get_prop response "choices") 0)
                         "message")
             "tool_calls".

(** *** ToNumber, for the comparison [iteration < maxIterations]

    A string is converted as StringToNumber does: white space around it is
    dropped, the empty string is 0, and the rest has to be a numeric
    literal ([Infinity], decimal digits with an optional fraction and
    exponent, or a binary, octal or hexadecimal integer after [0b], [0o],
    [0x]), whose value is rounded to the nearest number.  A character of a
    string is a code unit below 256. *)

Definition is_space (c : ascii) : bool :=
  let n := nat_of_ascii c in
  ((9 <=? n) && (n <=? 13) || (n =? 32) || (n =? 160))%nat.

Fixpoint drop_spaces (cs : list ascii) : list ascii :=
  match cs with
  | c :: cs' => if is_space c then drop_spaces cs' else cs
  | [] => []
  end.

Definition trim (cs : list ascii) : list ascii :=
  rev (drop_spaces (rev (drop_spaces cs))).

Definition digit_of (base : Z) (c : ascii) : option Z :=
  let n := Z.of_nat (nat_of_ascii c) in
  let d := if (48 <=? n) && (n <=? 57) then n - 48
           else if (97 <=? n) && (n <=? 102) then n - 87
           else if (65 <=? n) && (n <=? 70) then n - 55
           else base in
  if d <? base then Some d else None.

(** The digits [cs] starts with: their value in [base] continued from
    [acc], how many they are (counted on from [count]), and what follows. *)
Fixpoint take_digits (base : Z) (cs : list ascii) (acc : Z) (count : nat)
  : Z * nat * list ascii :=
  match cs with
  | c :: cs' =>
      match digit_of base c with
      | Some d => take_digits base cs' (acc * base + d) (S count)
      | None => (acc, count, cs)
      end
  | [] => (acc, count, [])
  end.

Definition negate (x : number) : number :=
  match x with
  | NaN => NaN
  | Integer n => Integer (- n)
  | Fraction num den => Fraction (- num) den
  | Infinity negative => Infinity (negb negative)
  end.

(** The number nearest to [mantissa * 10^exponent] *)
Definition scaled (mantissa exponent : Z) : number :=
  if mantissa =? 0 then Integer 0
  else if 0 <=? exponent then nearest (mantissa * 10 ^ exponent) 1
  else nearest mantissa (10 ^ (- exponent)).

(** [0b], [0o] and [0x] literals; [None] when [cs] does not start as one *)
Definition radix_literal (cs : list ascii) : option number :=
  match cs with
  | zero :: letter :: rest =>
      let base :=
        if Ascii.eqb letter "x" || Ascii.eqb letter "X" then 16
        else if Ascii.eqb letter "o" || Ascii.eqb letter "O" then 8
        else if Ascii.eqb letter "b" || Ascii.eqb letter "B" then 2
        else 0 in
      if Ascii.eqb zero "0" && (0 <? base) then
        match take_digits base rest 0 0 with
        | (v, S _, []) => Some (scaled v 0)
        | _ => Some NaN
        end
      else None
  | _ => None
  end.

(** The exponent part: [e] or [E], an optional sign, digits to the end *)
Definition exponent_part (cs : list ascii) : option Z :=
  match cs with
  | [] => Some 0
  | e :: rest =>
      if Ascii.eqb e "e" || Ascii.eqb e "E" then
        let signed :=
          match rest with
          | sign :: rest' =>
              if Ascii.eqb sign "-" then (true, rest')
              else if Ascii.eqb sign "+" then (false, rest')
              else (false, rest)
          | [] => (false, rest)
          end in
        match take_digits 10 (snd signed) 0 0 with
        | (v, S _, []) => Some (if fst signed then - v else v)
        | _ => None
        end
      else None
  end.

(** An unsigned decimal literal *)
Definition unsigned_decimal (cs : list ascii) : number :=
  if String.eqb (string_of_list_ascii cs) "Infinity" then Infinity false
  else
    match take_digits 10 cs 0 0 with
    | (whole, n1, after) =>
        let fraction :=
          match after with
          | dot :: after' =>
              if Ascii.eqb dot "."
              then take_digits 10 after' whole 0
              else (whole, 0%nat, after)
          | [] => (whole, 0%nat, after)
          end in
        match fraction with
        | (mantissa, n2, tail) =>
            if Nat.eqb (n1 + n2) 0 then NaN
            else
              match exponent_part tail with
              | Some e => scaled mantissa (e - Z.of_nat n2)
              | None => NaN
              end
        end
    end.

Definition decimal_literal (cs : list ascii) : number :=
  match cs with
  | sign :: rest =>
      if Ascii.eqb sign "-" then negate (unsigned_decimal rest)
      else if Ascii.eqb sign "+" then unsigned_decimal rest
      else unsigned_decimal cs
  | [] => NaN
  end.

(** StringToNumber *)
Definition string_to_number (s : string) : number :=
  match trim (list_ascii_of_string s) with
  | [] => Integer 0
  | cs =>
      match radix_literal cs with
      | Some x => x
      | None => decimal_literal cs
      end
  end.

(** ToNumber.  An object is converted through its text, which for an
    array is the text of its elements joined by commas and for the other
    objects is never a numeric literal. *)
Definition to_number (v : value) : number :=
  match v with
  | VUndefined | VFun _ | VObj _ => NaN
  | VNull => Integer 0
  | VBool b => Integer (if b then 1 else 0)
  | VNum n => Integer n
  | VStr s => string_to_number s
  | VArr _ => string_to_number (to_string v)
  end.

(** How often [while (iteration < maxIterations) { iteration++; ... }] can
    enter its body, [iteration] starting at 0: as many times as there are
    numbers 0, 1, 2, ... below [maxIterations].  The counter cannot pass
    [2^53], where [iteration++] leaves it as it is; for an infinite budget
    the model stops there. *)
Definition iterations (maxIterations : value) : nat :=
  match to_number maxIterations with
  | Integer n => Z.to_nat n
  | Fraction num den => Z.to_nat (num / den + 1)
  | Infinity false => Z.to_nat 9007199254740992
  | Infinity true | NaN => 0%nat
  end.

Definition budget_error (maxIterations : value) : thrown :=
  new_Error Error
    ("Agent tool execution exceeded maximum iterations ("
     +:+ to_string maxIterations +:+ ")").

(** The [while] loop of [run] and the [throw] after it.  [remaining] is the
    number of iterations the guard still allows. *)
Fixpoint run_loop (remaining : nat) (maxIterations : value)
    (toolCallbacks : registry) (currentMessages : loc)
    (requestPayload : payload) : Mw value :=
  match remaining with
  | O => throw (budget_error maxIterations)
  | S remaining' =>
      let* response := _executeAgent requestPayload in
      let* _ := member response "choices" in
      if negb (truthy (needsToolExecution response)) then ret response
      else
        let toolCalls := pending_tool_calls response in
        if negb (truthy toolCalls)
           || strict_eq_num (get_prop toolCalls "length") 0
        then ret response
        else
          let* toolResults := _executeToolCallbacks toolCalls toolCallbacks in
          let* choices := member response "choices" in
          let* choice := index choices 0 in
          let* message := member choice "message" in
          let* content := member message "content" in
          let* _ := push currentMessages (assistant_message content toolCalls) in
          let* _ := push_results currentMessages toolResults in
          (* requestPayload.messages = currentMessages *)
          run_loop remaining' maxIterations toolCallbacks currentMessages
            (mkPayload (p_agentId requestPayload) (ArrayRef currentMessages)
                       (p_tools requestPayload) (p_options requestPayload))
  end.

Definition InvalidRequest (msg field : string) : thrown :=
  Exn (mkError InvalidRequestError (VStr msg)
         (ctor_status E InvalidRequestError) (Some field) VUndefined).

(** [async run(params)] *)
Definition run (params : AgentRunParams) : Mw value :=
  if negb (truthy (agentId params))
  then throw (InvalidRequest "agentId is required" "agentId")
  else if negb (truthy_arg (messages params))
          || negb (isArray_arg (messages params))
  then throw (InvalidRequest "messages array is required" "messages")
  else
    let* extracted :=
      _extractToolCallbacks
        (if truthy_arg (tools params) then tools params
         else Plain (VArr [])) in
    let tools := fst extracted in
    let toolCallbacks := snd extracted in
    let* cleaned := contents tools in
    let requestPayload :=
      mkPayload (agentId params) (messages params)
        (if (0 <? Z.of_nat (List.length cleaned)) then Some (ArrayRef tools)
         else None)
        (or_else (options params) (VObj [])) in
    let maxIterations := or_else (maxToolIterations params) (VNum 10) in
    let* copy := elements "params.messages" (messages params) in
    let* currentMessages := alloc copy in
    run_loop (iterations maxIterations) maxIterations toolCallbacks
      currentMessages requestPayload.

(** [async execute(params)] *)
Definition execute (params : AgentRunParams) : Mw value :=
  if negb (truthy (agentId params))
  then throw (InvalidRequest "agentId is required" "agentId")
  else if negb (truthy_arg (messages params))
          || negb (isArray_arg (messages params))
  then throw (InvalidRequest "messages array is required" "messages")
  else
    let given :=
      if truthy_arg (tools params) then tools params else Plain (VArr []) in
    if negb (isArray_arg given)
    then throw (new_Error TypeError "(params.tools || []).map is not a function")
    else
      let* elems := elements "params.tools" given in
      let* tools :=
        alloc (map toolDef_of elems) in
      let requestPayload :=
        mkPayload (agentId params) (messages params)
          (if (0 <? Z.of_nat (List.length elems)) then Some (ArrayRef tools)
           else None)
          (or_else (options params) (VObj [])) in
      _executeAgent requestPayload.

End Agents.
End Agents.

(** ** [src/index.js]: the constructor and the read-only endpoints *)

Module Client.
Section Client.

Variable E : Env.
Local Abbreviation Mw := (M (World E)).

(** [validateConfig] of [utils.js]: the validated configuration, or what it
    throws. *)
Variable validateConfig : value -> value + thrown.

(** The fields the constructor sets on [this] *)
Record fields : Type := mkFields {
  apiKey : value;
  baseURL : value;
  routerId : value;
  timeout : value;
  defaultHeaders : value;
  maxRetries : value
}.

Definition key_format_error : thrown :=
  new_Error Error
    ("Invalid Agentlify API key format. API key must start with "
     +:+ dquote +:+ "mp_" +:+ dquote
     +:+ ". Get your API key from https://modelpilot.co").

Definition router_id_error : thrown :=
  new_Error Error
    "Router ID is required. Get your Router ID from https://modelpilot.co".

(** [key.startsWith('mp_')]: the string method; on other values the own
    property [startsWith] is called if it is a function, and anything else
    is a [TypeError]. *)
Definition startsWith_mp (key : value) : Mw value :=
  match key with
  | VStr text => ret (VBool (String.prefix "mp_" text))
  | VUndefined | VNull =>
      throw (new_Error TypeError
               ("Cannot read properties of " +:+ to_string key
                +:+ " (reading 'startsWith')"))
  | _ =>
      match get_prop key "startsWith" with
      | VFun f => Agents.invoke E (VFun f) (VStr "mp_")
      | _ => throw (new_Error TypeError
                      "this.apiKey.startsWith is not a function")
      end
  end.

(** [constructor(config = {})], up to the two checks.  What follows them
    (the [chat] and [agents] sections, the axios instance and its
    interceptors) sets no field read here. *)
Definition constructor (config : value) : Mw fields :=
  let config := match config with VUndefined => VObj [] | _ => config end in
  match validateConfig config with
  | inr t => throw t
  | inl validatedConfig =>
      let* key := member validatedConfig "apiKey" in
      let this :=
        mkFields key
          (or_else (get_prop validatedConfig "baseURL")
                   (VStr "https://modelpilot.co/api"))
          (get_prop validatedConfig "routerId")
          (or_else (get_prop validatedConfig "timeout") (VNum 30000))
          (or_else (get_prop validatedConfig "defaultHeaders") (VObj []))
          (or_else (get_prop validatedConfig "maxRetries") (VNum 3)) in
      let* starts := startsWith_mp key in
      if negb (truthy starts) then throw key_format_error
      else if negb (truthy (routerId this)) then throw router_id_error
      else ret this
  end.

(** [async getRouterConfig()] *)
Definition getRouterConfig (this : Transport.Agentlify) (routerId : value)
  : Mw value :=
  Transport.request E this
    (VStr ("/getRouterConfig/" +:+ to_string routerId))
    (VObj [("method", VStr "GET")]).

(** [async getModels()] *)
Definition getModels (this : Transport.Agentlify) : Mw value :=
  let* response :=
    Transport.request E this (VStr "/getModels")
      (VObj [("method", VStr "GET")]) in
  if truthy response
     && strict_eq_str (get_prop response "object") "list"
     && isArray (get_prop response "data")
  then ret (get_prop response "data")
  else ret response.

End Client.
End Client.

(** ** Concrete environments and inputs *)

Module Scenario.

(** A scripted world: the [n]-th HTTP attempt is answered by [script n];
    callbacks and [JSON.parse] are pure. *)
Definition scripted (script : nat -> http_outcome)
    (callback : nat -> value -> outcome)
    (parse : string -> value + string) : Env :=
  mkEnv nat (fun _ n => (script n, S n)) (fun f a n => (callback f a, n))
        parse (fun _ => None).

(** A [JSON.parse] that knows the empty object and rejects the rest *)
Definition parse_empty_object (text : string) : value + string :=
  if String.eqb text "{}" then inl (VObj [])
  else inr "Unexpected token in JSON".

Definition tool_call (id name arguments : string) : value :=
  VObj [("id", VStr id); ("type", VStr "function");
        ("function", VObj [("name", VStr name);
                           ("arguments", VStr arguments)])].

(** The body of a response that asks for the given tool calls *)
Definition tool_body (toolCalls : list value) : value :=
  VObj [("choices",
         VArr [VObj [("message",
                      VObj [("role", VStr "assistant");
                            ("content", VNull);
                            ("tool_calls", VArr toolCalls)]);
                     ("finish_reason", VStr "tool_calls")]])].

(** The body of a final answer *)
Definition stop_body (text : string) : value :=
  VObj [("choices",
         VArr [VObj [("message",
                      VObj [("role", VStr "assistant");
                            ("content", VStr text)]);
                     ("finish_reason", VStr "stop")]]);
        ("agent_metadata", VObj [("agent_id", VStr "a")])].

(** A body flagged for tool execution that carries no tool calls *)
Definition flagged_body : value :=
  VObj [("choices",
         VArr [VObj [("message",
                      VObj [("role", VStr "assistant");
                            ("content", VStr "done")]);
                     ("finish_reason", VStr "stop")]]);
        ("agent_metadata",
         VObj [("requires_tool_execution", VBool true)])].

Definition http_ok (body : value) : http_outcome :=
  HttpOk (VObj [("status", VNum 200); ("data", body)]).

Definition http_status (status : Z) (msg : string) : http_outcome :=
  HttpFail (mkAxiosError
              (Some (status, VObj [("error", VObj [("message", VStr msg)])]))
              true (VStr "Request failed")).

Definition network_down : http_outcome :=
  HttpFail (mkAxiosError None true (VStr "timeout")).

(** Callback 0 is [args => ({result: 4})], callback 1 throws
    [Error("boom")], the others throw the string [oops]. *)
Definition callbacks (f : nat) (args : value) : outcome :=
  match f with
  | 0%nat => Return (VObj [("result", VNum 4)])
  | 1%nat => Raise (new_Error Error "boom")
  | _ => Raise (Raw (VStr "oops"))
  end.

Definition calc_tool (f : nat) : value :=
  VObj [("type", VStr "function");
        ("function", VObj [("name", VStr "calc")]);
        ("callback", VFun f)].

Definition user_message : value :=
  VObj [("role", VStr "user"); ("content", VStr "2+2?")].

(** The server always asks for [calc]. *)
Definition always_calc : Env :=
  scripted (fun _ => http_ok (tool_body [tool_call "call_1" "calc" "{}"]))
           callbacks parse_empty_object.

(** The server asks for [calc] once and then answers. *)
Definition calc_then_stop : Env :=
  scripted (fun n => match n with
                     | 0%nat => http_ok (tool_body [tool_call "call_1" "calc" "{}"])
                     | _ => http_ok (stop_body "4")
                     end)
           callbacks parse_empty_object.

(** The server answers at once. *)
Definition stops_at_once : Env :=
  scripted (fun _ => http_ok (stop_body "hello")) callbacks parse_empty_object.

(** The server is down for good. *)
Definition always_down : Env :=
  scripted (fun _ => network_down) callbacks parse_empty_object.

(** The server refuses the credentials. *)
Definition unauthorized : Env :=
  scripted (fun _ => http_status 401 "bad key") callbacks parse_empty_object.

Definition the_client : Transport.Agentlify := Transport.mkAgentlify 3.

(** The caller's store: array 0 is [messages], array 1 is [tools]. *)
Definition caller_state (f : nat) : state nat :=
  mkState [[user_message]; [calc_tool f]] 0%nat [].

Definition params_with (budget : value) : Agents.AgentRunParams :=
  Agents.mkParams (VStr "a") (ArrayRef 0%nat) (ArrayRef 1%nat) VUndefined budget.

(** The caller passes an empty [messages] array. *)
Definition empty_messages_state : state nat :=
  mkState [[]; [calc_tool 0]] 0%nat [].

(** The state of [run] when it enters the loop, called from
    [caller_state f]: array 2 is [cleanTools], array 3 is
    [currentMessages]. *)
Definition loop_state (f : nat) : state nat :=
  mkState [[user_message]; [calc_tool f];
           [Agents.toolDef_of (calc_tool f)]; [user_message]] 0%nat [].

Definition first_payload : Agents.payload :=
  Agents.mkPayload (VStr "a") (ArrayRef 0%nat) (Some (ArrayRef 2%nat))
                   (VObj []).

Definition calc_registry (f : nat) : Agents.registry :=
  [(VStr "calc", VFun f)].

(** The server asks for [calc] twice in one response, then answers. *)
Definition two_calls_then_stop : Env :=
  scripted (fun n => match n with
                     | 0%nat => http_ok (tool_body [tool_call "A" "calc" "{}";
                                                    tool_call "B" "calc" "{}"])
                     | _ => http_ok (stop_body "8")
                     end)
           callbacks parse_empty_object.

(** [{"error":"boom"}] *)
Definition boom_text : string :=
  "{" +:+ dquote +:+ "error" +:+ dquote +:+ ":"
      +:+ dquote +:+ "boom" +:+ dquote +:+ "}".

End Scenario.

(** ** Vocabulary of the statements *)

(** [toolCall.function?.name] of a tool call that is an object *)
Definition name_of (toolCall : value) : value :=
  opt_member (get_prop toolCall "function") "name".

(** The result for a tool call nobody registered a callback for *)
Definition missing_result (toolCall : value) : value :=
  VObj [("tool_call_id", get_prop toolCall "id");
        ("content",
         VObj [("error",
                VStr ("No callback registered for tool: "
                      +:+ to_string (name_of toolCall)))])].

(** The [message] a thrown value carries, if reading it does not fail *)
Definition thrown_message (t : thrown) : option value :=
  match t with
  | Exn e => Some (message e)
  | Raw v => if nullish v then None else Some (get_prop v "message")
  end.

(** Callbacks never throw or reject with [undefined] or [null]. *)
Definition callbacks_report (E : Env) : Prop :=
  forall f args w,
    match fst (call E f args w) with
    | Return _ => True
    | Raise t => is_Some (thrown_message t)
    end.

(** A response body that signals tool execution and carries tool calls *)
Definition requests_tools (body : value) : Prop :=
  truthy (Agents.needsToolExecution body) = true
  /\ exists toolCalls,
       Agents.pending_tool_calls body = VArr toolCalls
       /\ toolCalls <> []
       /\ Forall (fun tc => nullish tc = false) toolCalls.

(** Every HTTP attempt is answered, and every answer asks for tools. *)
Definition server_always_requests_tools (E : Env) : Prop :=
  forall config w,
    exists response,
      fst (http E config w) = HttpOk response
      /\ requests_tools (get_prop response "data").

(** [params] passes the two checks at the head of [run] and [execute]. *)
Definition passes_validation (params : Agents.AgentRunParams) : Prop :=
  truthy (Agents.agentId params) = true
  /\ truthy_arg (Agents.messages params) = true
  /\ isArray_arg (Agents.messages params) = true.

(** [params.tools] is left out, or is an array of tool definitions. *)
Definition tools_well_formed (h : list (list value))
    (params : Agents.AgentRunParams) : Prop :=
  truthy_arg (Agents.tools params) = false
  \/ exists ts,
       resolve h (Agents.tools params) = VArr ts
       /\ Forall (fun t => nullish t = false) ts.

(** An array argument refers to an array that exists. *)
Definition in_store (h : list (list value)) (a : arg) : Prop :=
  match a with
  | Plain _ => True
  | ArrayRef l => is_Some (h !! l)
  end.

(** [params.tools || []] *)
Definition given_tools (params : Agents.AgentRunParams) : arg :=
  if truthy_arg (Agents.tools params) then Agents.tools params
  else Plain (VArr []).

(** The effective budget [params.maxToolIterations || 10] *)
Definition maxIterations (params : Agents.AgentRunParams) : value :=
  or_else (Agents.maxToolIterations params) (VNum 10).

(** What one HTTP attempt makes [httpClient] throw, if it fails *)
Definition thrown_by (E : Env) (o : http_outcome) : option thrown :=
  match o with
  | HttpOk _ => None
  | HttpFail e => Some (Transport._handleError E e)
  | HttpThrow t => Some t
  end.

(** The server answered with a status of 500 or more, or nothing came
    back at all. *)
Definition server_or_network_failure (e : axios_error) : Prop :=
  match err_response e with
  | Some (status, _) => 500 <= status
  | None => True
  end.

(** The world after [k] HTTP attempts with the same [config] *)
Fixpoint world_after (E : Env) (config : value) (k : nat) (w : World E)
  : World E :=
  match k with
  | O => w
  | S k' => world_after E config k' (snd (http E config w))
  end.

(** The delays before retries [1] to [k]: [min(1000 * 2^attempt, 10000)]
    milliseconds after the failed attempts [0] to [k - 1] *)
Definition backoff_delays (k : nat) : list Z :=
  map (fun attempt => Z.min (1000 * 2 ^ Z.of_nat attempt) 10000) (seq 0 k).

(** [response.choices?.[0]?.finish_reason] and
    [response.agent_metadata?.requires_tool_execution] of a response body *)
Definition finish_reason (body : value) : value :=
  opt_member (opt_index (get_prop body "choices") 0) "finish_reason".

Definition requires_tool_execution (body : value) : value :=
  opt_member (get_prop body "agent_metadata") "requires_tool_execution".

(** A body that ends the run: it does not signal tool execution, or it
    carries no tool-call list or an empty one. *)
Definition completes (body : value) : Prop :=
  (finish_reason body <> VStr "tool_calls"
   /\ truthy (requires_tool_execution body) = false)
  \/ truthy (Agents.pending_tool_calls body) = false
  \/ Agents.pending_tool_calls body = VArr [].

(** The validation error of [run] and [execute] *)
Definition validation_error (E : Env) (msg field : string) : thrown :=
  Exn (mkError InvalidRequestError (VStr msg)
         (ctor_status E InvalidRequestError) (Some field) VUndefined).

(** [response.choices[0].message.content] *)
Definition content_of (response : value) : value :=
  get_prop (get_prop (get_prop (get_prop response "choices") "0") "message")
           "content".

(** The [args] a callback is called with, when they can be had: the parsed
    [function.arguments] if that is a string, [function.arguments] itself
    if it is some other truthy value, and the empty object otherwise. *)
Definition arguments_value (E : Env) (toolCall : value) : option value :=
  let arguments := opt_member (get_prop toolCall "function") "arguments" in
  if truthy arguments then
    match arguments with
    | VStr text =>
        match JSON_parse E text with
        | inl v => Some v
        | inr _ => None
        end
    | other => Some other
    end
  else Some (VObj []).

(** The two ways resolving [toolCall] with the callback [f] fails in state
    [s]: [JSON.parse] rejects the arguments, or the callback throws (or
    rejects).  [m] is the message the error carries, [s'] the state after. *)
Inductive fails_with (E : Env) (toolCall : value) (f : nat)
    (s : state (World E)) (m : value) (s' : state (World E)) : Prop :=
| parse_fails (text msg : string) :
    opt_member (get_prop toolCall "function") "arguments" = VStr text ->
    text <> ""%string ->
    JSON_parse E text = inr msg ->
    m = VStr msg ->
    s' = s ->
    fails_with E toolCall f s m s'
| callback_fails (args : value) (t : thrown) (w : World E) :
    arguments_value E toolCall = Some args ->
    call E f args (world s) = (Raise t, w) ->
    thrown_message t = Some m ->
    s' = mkState (heap s) w (log s ++ [EvCall f args]) ->
    fails_with E toolCall f s m s'.

(** An authentication failure, and a client error with a status below 500 *)
Definition authentication_failure (t : thrown) : Prop :=
  instanceof t AuthenticationError = true.

Definition client_error_below_500 (t : thrown) : Prop :=
  exists err n,
    t = Exn err /\ instanceof t APIError = true
    /\ status err = Some n /\ n < 500.

(** A step that keeps the store and makes no transport call *)
Definition quiet (E : Env) {A} (m : M (World E) A) : Prop :=
  forall s r s', m s = (r, s') ->
    heap s' = heap s /\ transport_calls (log s') = transport_calls (log s).

(** A step that may push to the array [cm] and makes between [lo] and [hi]
    transport calls *)
Definition tame (E : Env) (cm : loc) (lo hi : nat) {A}
    (m : M (World E) A) : Prop :=
  forall s r s', m s = (r, s') ->
    List.length (heap s') = List.length (heap s)
    /\ (forall l : loc, l <> cm -> heap s' !! l = heap s !! l)
    /\ (transport_calls (log s) + lo <= transport_calls (log s')
        <= transport_calls (log s) + hi)%nat.

(** A step that only adds to the trace *)
Definition appends (E : Env) {A} (m : M (World E) A) : Prop :=
  forall s r s', m s = (r, s') -> exists l, log s' = log s ++ l.

(** The tool [t] registers the callback [f] under the name [name]:
    [t.callback] is that function and [t.function?.name] is [name]. *)
Definition tool_registers (t : value) (name : string) (f : nat) : Prop :=
  get_prop t "callback" = VFun f /\ name_of t = VStr name.

(** The registry [_extractToolCallbacks] builds from the tools [ts] *)
Definition registry_of (ts : list value) : Agents.registry :=
  fold_left (fun r t => Agents.register t r) ts [].

(** The body is the OpenAI list wrapper around the models [xs], or the
    array [xs] itself. *)
Definition lists_models (body : value) (xs : list value) : Prop :=
  body = VArr xs
  \/ (exists ps, body = VObj ps)
     /\ get_prop body "object" = VStr "list"
     /\ get_prop body "data" = VArr xs.

(** The callback invocation that resolving [toolCall] makes, if any: the
    registered function applied to the arguments, when they can be had *)
Definition invoked (E : Env) (reg : Agents.registry) (toolCall : value)
  : list (nat * value) :=
  match Agents.Map_get (name_of toolCall) reg with
  | VFun f =>
      match arguments_value E toolCall with
      | Some args => [(f, args)]
      | None => []
      end
  | _ => []
  end.

(** A step that invokes no callback *)
Definition silent (E : Env) {A} (m : M (World E) A) : Prop :=
  forall s r s', m s = (r, s') -> calls (log s') = calls (log s).

(** The request body [execute] and the first round of [run] submit for the
    tools [ts] and the messages [ms] *)
Definition request_body (params : Agents.AgentRunParams)
    (ms : value) (ts : list value) : value :=
  VObj ([("agentId", Agents.agentId params); ("messages", ms)]
        ++ match ts with
           | [] => []
           | _ => [("tools", VArr (map Agents.toolDef_of ts))]
           end
        ++ [("options", or_else (Agents.options params) (VObj []))]).

(** A step whose outcome, next world and added events do not depend on
    the store *)
Definition heap_blind (E : Env) {A} (m : M (World E) A) : Prop :=
  forall s1 s2, world s1 = world s2 ->
    exists r w evs,
      m s1 = (r, mkState (heap s1) w (log s1 ++ evs))
      /\ m s2 = (r, mkState (heap s2) w (log s2 ++ evs)).

(** [messages] holds a message of role [tool] *)
Definition has_tool_message (messages : value) : bool :=
  match messages with
  | VArr ms =>
      existsb (fun m => strict_eq_str (get_prop m "role") "tool") ms
  | _ => false
  end.

(** The [messages] of the body that an HTTP request carries *)
Definition submitted_messages (config : value) : value :=
  get_prop (get_prop config "data") "messages".

(** A server that answers [first] until the conversation holds a tool
    result, and [second] from then on *)
Definition answers_after_tools (E : Env) (first second : value) : Prop :=
  forall config w,
    fst (http E config w)
    = HttpOk (if has_tool_message (submitted_messages config)
              then second else first).

(** A step that adds only events satisfying [P] to the trace *)
Definition emits (E : Env) (P : event -> Prop) {A} (m : M (World E) A)
  : Prop :=
  forall s r s', m s = (r, s') ->
    exists l, log s' = log s ++ l /\ Forall P l.

(** The event is an HTTP attempt with the given [config], or a delay. *)
Definition attempt_of (config : value) (e : event) : Prop :=
  match e with
  | EvHttp c => c = config
  | EvSleep _ => True
  | _ => False
  end.

(** The event is a [GET] attempt on [url] without a body, or a delay. *)
Definition reads (url : string) (e : event) : Prop :=
  match e with
  | EvHttp c =>
      get_prop c "url" = VStr url /\ get_prop c "method" = VStr "GET"
      /\ get_prop c "data" = VUndefined
  | EvSleep _ => True
  | _ => False
  end.

(** What [run] may do with the registry [reg]: send to [/agents], make
    HTTP attempts, wait, and invoke functions held in [reg] *)
Definition registered (reg : Agents.registry) (e : event) : Prop :=
  match e with
  | EvCall f _ => exists k, In (k, VFun f) reg
  | EvTransport endpoint _ => endpoint = VStr "/agents"
  | _ => True
  end.

(** The same for the caller's tools [ts]: the functions invoked are
    callbacks of these tools. *)
Definition permitted (ts : list value) (e : event) : Prop :=
  match e with
  | EvCall f _ => exists t, In t ts /\ get_prop t "callback" = VFun f
  | EvTransport endpoint _ => endpoint = VStr "/agents"
  | _ => True
  end.

(** How many assistant messages [messages] holds: the caller's own, and
    one more for every round of tools that [run] has been through *)
Definition assistant_turns (messages : value) : nat :=
  match messages with
  | VArr ms =>
      List.length
        (List.filter
           (fun m => strict_eq_str (get_prop m "role") "assistant") ms)
  | _ => 0%nat
  end.

(** A server whose answer to a request is [script t], [t] being the number
    of assistant messages in the conversation it is sent *)
Definition follows_script (E : Env) (script : nat -> value) : Prop :=
  forall config w,
    fst (http E config w)
    = HttpOk (script (assistant_turns (submitted_messages config))).

(** The registry holds functions only, as a registry that
    [_extractToolCallbacks] built does. *)
Definition holds_functions (reg : Agents.registry) : Prop :=
  Forall (fun entry => exists f, snd entry = VFun f) reg.

(** What the tool call [toolCall] is answered with in state [s], and the
    state after: the no-callback error when its name is not registered;
    what the registered callback returns on the call's arguments; the
    message of what the callback throws (or rejects with), or of the
    [JSON.parse] failure, as [{error: message}]. *)
Inductive answers (E : Env) (reg : Agents.registry) (toolCall : value)
    (s : state (World E)) (content : value) (s' : state (World E)) : Prop :=
| no_callback :
    Agents.Map_get (name_of toolCall) reg = VUndefined ->
    content = VObj [("error",
                     VStr ("No callback registered for tool: "
                           +:+ to_string (name_of toolCall)))] ->
    s' = s ->
    answers E reg toolCall s content s'
| callback_returns (f : nat) (args : value) (w : World E) :
    Agents.Map_get (name_of toolCall) reg = VFun f ->
    arguments_value E toolCall = Some args ->
    call E f args (world s) = (Return content, w) ->
    s' = mkState (heap s) w (log s ++ [EvCall f args]) ->
    answers E reg toolCall s content s'
| callback_or_parse_fails (f : nat) (m : value) :
    Agents.Map_get (name_of toolCall) reg = VFun f ->
    fails_with E toolCall f s m s' ->
    content = VObj [("error", m)] ->
    answers E reg toolCall s content s'.

(** One result per call, in the order of the calls: the [i]-th result
    pairs the id of the [i]-th call with what that call is answered with,
    the calls being answered one after the other. *)
Inductive resolved (E : Env) (reg : Agents.registry)
  : list value -> state (World E) -> list value -> state (World E) -> Prop :=
| resolved_nil (s : state (World E)) : resolved E reg [] s [] s
| resolved_cons (toolCall : value) (rest : list value)
    (s s1 s2 : state (World E)) (content : value) (results : list value) :
    answers E reg toolCall s content s1 ->
    resolved E reg rest s1 results s2 ->
    resolved E reg (toolCall :: rest) s
      (VObj [("tool_call_id", get_prop toolCall "id"); ("content", content)]
       :: results) s2.

(** The [tool] message for a result: its content as it is when that is a
    string, and serialised otherwise *)
Definition tool_message_for (result : value) : value :=
  VObj [("role", VStr "tool");
        ("tool_call_id", get_prop result "tool_call_id");
        ("content",
         match get_prop result "content" with
         | VStr text => VStr text
         | content => JSON_stringify content
         end)].

(** ** Further environments and inputs *)

Module Fixtures.

(** The server is down for two attempts and answers the third. *)
Definition flaky : Env :=
  Scenario.scripted
    (fun n => match n with
              | 0%nat | 1%nat => Scenario.network_down
              | _ => Scenario.http_ok (Scenario.stop_body "hello")
              end)
    Scenario.callbacks Scenario.parse_empty_object.

Definition models : list value := [VStr "model-a"; VStr "model-b"].

(** The response to [/getModels] in the list format *)
Definition models_response : value :=
  VObj [("status", VNum 200);
        ("data", VObj [("object", VStr "list"); ("data", VArr models)])].

Definition models_server : Env :=
  Scenario.scripted (fun _ => HttpOk models_response)
                    Scenario.callbacks Scenario.parse_empty_object.

(** A [validateConfig] that returns an object as it is and rejects
    anything else *)
Definition not_an_object : thrown :=
  new_Error Error "Configuration must be an object".

Definition accept_objects (config : value) : value + thrown :=
  match config with
  | VObj _ => inl config
  | _ => inr not_an_object
  end.

Definition full_config : value :=
  VObj [("apiKey", VStr "mp_123"); ("routerId", VStr "r1");
        ("maxRetries", VNum 0)].

Definition foreign_key_config : value :=
  VObj [("apiKey", VStr "sk_123")].

Definition no_router_config : value :=
  VObj [("apiKey", VStr "mp_123")].

(** A tool without a callback *)
Definition plain_tool (name : string) : value :=
  VObj [("type", VStr "function");
        ("function", VObj [("name", VStr name)])].

(** The server asks for [calc] until the conversation holds a tool
    result, then answers. *)
Definition calc_request : value :=
  VObj [("status", VNum 200);
        ("data", Scenario.tool_body [Scenario.tool_call "call_1" "calc" "{}"])].

Definition final_answer : value :=
  VObj [("status", VNum 200); ("data", Scenario.stop_body "4")].

Definition asks_until_answered : Env :=
  mkEnv nat
        (fun config n =>
           (HttpOk (if has_tool_message (submitted_messages config)
                    then final_answer else calc_request), S n))
        (fun f a n => (Scenario.callbacks f a, n))
        Scenario.parse_empty_object (fun _ => None).

(** Every callback rejects with [undefined]. *)
Definition rejects_with_undefined : Env :=
  Scenario.scripted (fun _ => Scenario.http_ok (Scenario.stop_body "hello"))
                    (fun _ _ => Raise (Raw VUndefined))
                    Scenario.parse_empty_object.

(** The caller's store with a hole in the tool list: array 0 is
    [messages], array 1 is [tools]. *)
Definition holed_state : state nat :=
  mkState [[Scenario.user_message]; [Scenario.calc_tool 0; VNull]] 0%nat [].

(** The server answers from a script, by the number of assistant messages
    in the conversation it is sent. *)
Definition scripted_by_turns (script : nat -> value) : Env :=
  mkEnv nat
        (fun config n =>
           (HttpOk (script (assistant_turns (submitted_messages config))),
            S n))
        (fun f a n => (Scenario.callbacks f a, n))
        Scenario.parse_empty_object (fun _ => None).

(** It asks for [calc] twice in a row, then answers. *)
Definition two_rounds (turns : nat) : value :=
  match turns with
  | 0%nat | 1%nat => calc_request
  | _ => final_answer
  end.

(** The server asks for [calc] twice in one response; every callback
    rejects with [undefined], as [Promise.reject()] does. *)
Definition call_A : value := Scenario.tool_call "A" "calc" "{}".
Definition call_B : value := Scenario.tool_call "B" "calc" "{}".

Definition two_calls_rejected : Env :=
  Scenario.scripted
    (fun n => match n with
              | 0%nat => Scenario.http_ok (Scenario.tool_body [call_A; call_B])
              | _ => Scenario.http_ok (Scenario.stop_body "8")
              end)
    (fun _ _ => Raise (Raw VUndefined))
    Scenario.parse_empty_object.

Definition no_message_error : thrown :=
  new_Error TypeError
    "Cannot read properties of undefined (reading 'message')".

End Fixtures.

(** A message field of a response body as the service writes it: a string,
    or missing (falsy) *)
Definition textual (v : value) : Prop :=
  truthy v = false \/ exists text, v = VStr text.

(** ** Properties *)

(** *** What each operation leaves alone *)

Lemma transport_calls_app (l1 l2 : list event) :
  transport_calls (l1 ++ l2) = (transport_calls l1 + transport_calls l2)%nat.
Proof.
  unfold transport_calls. now rewrite List.filter_app, List.length_app.
Qed.

Lemma http_attempts_app (l1 l2 : list event) :
  http_attempts (l1 ++ l2) = (http_attempts l1 + http_attempts l2)%nat.
Proof.
  unfold http_attempts. now rewrite List.filter_app, List.length_app.
Qed.

Lemma sleeps_app (l1 l2 : list event) :
  sleeps (l1 ++ l2) = sleeps l1 ++ sleeps l2.
Proof.
  induction l1 as [|e l1 IH]; simpl; [reflexivity|].
  destruct e; simpl; now rewrite IH.
Qed.

(** Splitting a monadic step: the first computation either threw or gave a
    value on which the rest ran. *)
Lemma bind_inv {W A B} (m : M W A) (k : A -> M W B) s r s' :
  bind m k s = (r, s') ->
  (exists t, m s = (Throw t, s') /\ r = Throw t)
  \/ (exists a s1, m s = (Ok a, s1) /\ k a s1 = (r, s')).
Proof.
  unfold bind. destruct (m s) as [[a|t] s1] eqn:Hm; intros H.
  - right. eauto.
  - left. inversion H; subst. eauto.
Qed.

Lemma member_inv {W} (v : value) (k : string) (s : state W) r s' :
  member v k s = (r, s') ->
  s' = s /\ (nullish v = false -> r = Ok (get_prop v k)).
Proof.
  unfold member. destruct (nullish v); cbn; intros H; inversion H; subst;
    split; auto; discriminate.
Qed.

Lemma member_ok {W} (v : value) (k : string) (s : state W) :
  nullish v = false -> member v k s = (Ok (get_prop v k), s).
Proof. unfold member. now intros ->. Qed.

Section Frames.

Variable E : Env.
Variable client : Transport.Agentlify.

Local Abbreviation quiet := (quiet E).
Local Abbreviation tame := (tame E).

Lemma quiet_ret {A} (a : A) : quiet (ret a).
Proof. intros s r s' H. inversion H; subst. auto. Qed.

Lemma quiet_throw {A} t : quiet (@throw (World E) A t).
Proof. intros s r s' H. inversion H; subst. auto. Qed.

Lemma quiet_bind {A B} (m : M (World E) A) (k : A -> M (World E) B) :
  quiet m -> (forall a, quiet (k a)) -> quiet (bind m k).
Proof.
  intros Hm Hk s r s' H. apply bind_inv in H as [(t & H & _)|(a & s1 & H1 & H2)].
  - now apply Hm in H.
  - destruct (Hm _ _ _ H1) as [Hh Ht]. destruct (Hk _ _ _ _ H2) as [Hh' Ht'].
    split; congruence.
Qed.

Lemma quiet_try_catch {A} (m : M (World E) A) h :
  quiet m -> (forall t, quiet (h t)) -> quiet (try_catch m h).
Proof.
  intros Hm Hh s r s' H. unfold try_catch in H.
  destruct (m s) as [[a|t] s1] eqn:H1.
  - inversion H; subst. now apply Hm in H1.
  - destruct (Hm _ _ _ H1) as [Hh1 Ht1]. destruct (Hh _ _ _ _ H) as [Hh2 Ht2].
    split; congruence.
Qed.

Lemma quiet_member (v : value) (k : string) : quiet (@member (World E) v k).
Proof. intros s r s' H. apply member_inv in H as [-> _]. auto. Qed.

Lemma quiet_httpClient config : quiet (Transport.httpClient E config).
Proof.
  intros s r s' H. unfold Transport.httpClient in H.
  destruct (http E config (world s)) as [o w].
  assert (s' = mkState (heap s) w (log s ++ [EvHttp config])) as ->
    by (destruct o; inversion H; reflexivity).
  cbn [heap log]. rewrite transport_calls_app. cbn. split; [reflexivity | lia].
Qed.

Lemma quiet_sleep ms : quiet (Transport.sleep E ms).
Proof.
  intros s r s' H. inversion H; subst. cbn [heap log].
  rewrite transport_calls_app. cbn. split; [reflexivity | lia].
Qed.

Lemma quiet_retry_loop this config remaining :
  forall attempt lastError,
    quiet (Transport.retry_loop E this config remaining attempt lastError).
Proof.
  induction remaining as [|n IH]; intros attempt lastError; cbn.
  - apply quiet_throw.
  - apply quiet_try_catch.
    + apply quiet_bind; [apply quiet_httpClient | intros; apply quiet_member].
    + intros t. destruct (Transport.no_retry t); [apply quiet_throw|].
      destruct (attempt =? _); [apply quiet_throw|].
      apply quiet_bind; [apply quiet_sleep | intros; apply IH].
Qed.

Lemma request_step this endpoint options s r s' :
  Transport.request E this endpoint options s = (r, s') ->
  heap s' = heap s
  /\ transport_calls (log s') = S (transport_calls (log s)).
Proof.
  unfold Transport.request. intros H.
  apply bind_inv in H as [(t & H & _)|(a & s1 & H1 & H2)];
    [inversion H|].
  inversion H1; subst; clear H1.
  eapply (quiet_bind _ _ (quiet_member _ _)) in H2.
  - destruct H2 as [-> ->]. cbn [heap log]. rewrite transport_calls_app.
    cbn. split; [reflexivity | lia].
  - intros. apply quiet_retry_loop.
Qed.

Lemma _executeAgent_step p s r s' :
  Agents._executeAgent E client p s = (r, s') ->
  heap s' = heap s
  /\ transport_calls (log s') = S (transport_calls (log s)).
Proof. unfold Agents._executeAgent. apply request_step. Qed.

Lemma quiet_invoke callback args : quiet (Agents.invoke E callback args).
Proof.
  destruct callback; try apply quiet_throw.
  intros s r s' H. cbn in H.
  destruct (call E f args (world s)) as [o w].
  assert (s' = mkState (heap s) w (log s ++ [EvCall f args])) as ->
    by (destruct o; inversion H; reflexivity).
  cbn [heap log]. rewrite transport_calls_app. cbn.
  split; [reflexivity | lia].
Qed.

Lemma quiet_parse text : quiet (Agents.parse E text).
Proof.
  unfold Agents.parse.
  destruct (JSON_parse E text); [apply quiet_ret | apply quiet_throw].
Qed.

Lemma quiet_error_message t : quiet (Agents.error_message E t).
Proof. destruct t; [apply quiet_ret | apply quiet_member]. Qed.

Lemma quiet_resolve_call toolCall toolCallbacks :
  quiet (Agents.resolve_call E toolCall toolCallbacks).
Proof.
  unfold Agents.resolve_call.
  apply quiet_bind; [apply quiet_member | intros fn].
  apply quiet_bind.
  - destruct (truthy _); [|apply quiet_ret].
    apply quiet_try_catch.
    + apply quiet_bind; [|intros; apply quiet_invoke].
      destruct (truthy _); [|apply quiet_ret].
      destruct (get_prop fn "arguments");
        first [apply quiet_ret | apply quiet_parse].
    + intros t. apply quiet_bind;
        [apply quiet_error_message | intros; apply quiet_ret].
  - intros result. apply quiet_bind;
      [apply quiet_member | intros; apply quiet_ret].
Qed.

Lemma quiet_resolve_loop toolCalls toolCallbacks :
  quiet (Agents.resolve_loop E toolCalls toolCallbacks).
Proof.
  induction toolCalls as [|tc rest IH]; cbn; [apply quiet_ret|].
  apply quiet_bind; [apply quiet_resolve_call | intros r].
  apply quiet_bind; [apply IH | intros; apply quiet_ret].
Qed.

Lemma quiet_elements what a : quiet (@elements (World E) what a).
Proof.
  intros s r s' H. unfold elements in H.
  destruct (iterate _); inversion H; subst; auto.
Qed.

Lemma quiet__executeToolCallbacks toolCalls toolCallbacks :
  quiet (Agents._executeToolCallbacks E toolCalls toolCallbacks).
Proof.
  unfold Agents._executeToolCallbacks.
  apply quiet_bind; [apply quiet_elements | intros; apply quiet_resolve_loop].
Qed.

Lemma tame_quiet cm {A} (m : M (World E) A) : quiet m -> tame cm 0 0 m.
Proof.
  intros Hq s r s' H. destruct (Hq _ _ _ H) as [-> ->].
  repeat split; auto; lia.
Qed.

Lemma tame_weaken cm lo hi lo' hi' {A} (m : M (World E) A) :
  (lo' <= lo)%nat -> (hi <= hi')%nat -> tame cm lo hi m -> tame cm lo' hi' m.
Proof.
  intros ? ? Hm s r s' H. destruct (Hm _ _ _ H) as (? & ? & ?).
  repeat split; auto; lia.
Qed.

Lemma tame_bind cm lo hi hi' {A B} (m : M (World E) A)
    (k : A -> M (World E) B) :
  tame cm lo hi m -> (forall a, tame cm 0 hi' (k a)) ->
  tame cm lo (hi + hi') (bind m k).
Proof.
  intros Hm Hk s r s' H.
  apply bind_inv in H as [(t & H & _)|(a & s1 & H1 & H2)].
  - destruct (Hm _ _ _ H) as (? & ? & ?). repeat split; auto; lia.
  - destruct (Hm _ _ _ H1) as (L1 & F1 & C1).
    destruct (Hk _ _ _ _ H2) as (L2 & F2 & C2).
    repeat split; try lia.
    intros l Hl. now rewrite F2, F1.
Qed.

Lemma tame_push cm v : tame cm 0 0 (@push (World E) cm v).
Proof.
  intros s r s' H. inversion H; subst; clear H. cbn [heap log].
  repeat split; try lia.
  - apply length_insert.
  - intros l Hl. apply list_lookup_insert_ne. congruence.
Qed.

Lemma tame_push_results cm results :
  tame cm 0 0 (Agents.push_results E cm results).
Proof.
  induction results as [|x rest IH]; cbn.
  - apply tame_quiet, quiet_ret.
  - change 0%nat with (0 + 0)%nat at 2.
    apply tame_bind; [apply tame_push | intros; apply IH].
Qed.

Lemma tame_extract_loop cleanTools tools :
  forall toolCallbacks,
    tame cleanTools 0 0 (Agents.extract_loop E cleanTools tools toolCallbacks).
Proof.
  induction tools as [|tool rest IH]; intros toolCallbacks; cbn.
  - apply tame_quiet, quiet_ret.
  - destruct (nullish tool); [apply tame_quiet, quiet_throw|].
    change 0%nat with (0 + 0)%nat at 2.
    apply tame_bind; [apply tame_push | intros; apply IH].
Qed.

Lemma tame__executeAgent cm p : tame cm 1 1 (Agents._executeAgent E client p).
Proof.
  intros s r s' H. apply _executeAgent_step in H as [-> ->].
  repeat split; auto; lia.
Qed.

Lemma tame_run_loop cm maxIterations toolCallbacks remaining :
  forall p,
    tame cm (Nat.min 1 remaining) remaining
      (Agents.run_loop E client remaining maxIterations toolCallbacks cm p).
Proof.
  induction remaining as [|n IH]; intros p; cbn [Agents.run_loop Nat.min].
  - apply tame_quiet, quiet_throw.
  - change (Nat.min 1 (S n)) with 1%nat. change (S n) with (1 + n)%nat at 1.
    apply tame_bind; [apply tame__executeAgent | intros response].
    change n with (0 + n)%nat at 1.
    apply tame_bind; [apply tame_quiet, quiet_member | intros _].
    destruct (negb _);
      [apply tame_weaken with (lo := 0%nat) (hi := 0%nat); try lia;
       apply tame_quiet, quiet_ret|].
    destruct (_ || _);
      [apply tame_weaken with (lo := 0%nat) (hi := 0%nat); try lia;
       apply tame_quiet, quiet_ret|].
    change n with (0 + n)%nat at 1.
    apply tame_bind;
      [apply tame_quiet, quiet__executeToolCallbacks | intros results].
    repeat (change n with (0 + n)%nat at 1;
            apply tame_bind; [apply tame_quiet, quiet_member | intros ?]).
    change n with (0 + n)%nat at 1.
    apply tame_bind; [apply tame_push | intros _].
    change n with (0 + n)%nat at 1.
    apply tame_bind; [apply tame_push_results | intros _].
    eapply tame_weaken; [| |apply IH]; lia.
Qed.

End Frames.

(** *** The trace only grows *)

Section Trace.

Variable E : Env.
Variable client : Transport.Agentlify.

Local Abbreviation appends := (appends E).

Lemma appends_ret {A} (a : A) : appends (ret a).
Proof. intros s r s' H. inversion H; subst. exists []. now rewrite app_nil_r. Qed.

Lemma appends_throw {A} t : appends (@throw (World E) A t).
Proof. intros s r s' H. inversion H; subst. exists []. now rewrite app_nil_r. Qed.

Lemma appends_bind {A B} (m : M (World E) A) (k : A -> M (World E) B) :
  appends m -> (forall a, appends (k a)) -> appends (bind m k).
Proof.
  intros Hm Hk s r s' H.
  apply bind_inv in H as [(t & H & _)|(a & s1 & H1 & H2)].
  - now apply Hm in H.
  - destruct (Hm _ _ _ H1) as [l1 E1]. destruct (Hk _ _ _ _ H2) as [l2 E2].
    exists (l1 ++ l2). now rewrite E2, E1, app_assoc.
Qed.

Lemma appends_try_catch {A} (m : M (World E) A) h :
  appends m -> (forall t, appends (h t)) -> appends (try_catch m h).
Proof.
  intros Hm Hh s r s' H. unfold try_catch in H.
  destruct (m s) as [[a|t] s1] eqn:H1.
  - inversion H; subst. now apply Hm in H1.
  - destruct (Hm _ _ _ H1) as [l1 E1]. destruct (Hh _ _ _ _ H) as [l2 E2].
    exists (l1 ++ l2). now rewrite E2, E1, app_assoc.
Qed.

Lemma appends_member (v : value) (k : string) :
  appends (@member (World E) v k).
Proof.
  unfold member. destruct (nullish v); [apply appends_throw | apply appends_ret].
Qed.

Lemma appends_emit (e : event) : appends (@emit (World E) e).
Proof. intros s r s' H. inversion H; subst. cbn. eauto. Qed.

Lemma appends_push (l : loc) (v : value) : appends (@push (World E) l v).
Proof.
  intros s r s' H. inversion H; subst. cbn. exists []. now rewrite app_nil_r.
Qed.

Lemma appends_elements what (a : arg) :
  appends (@elements (World E) what a).
Proof.
  intros s r s' H. unfold elements in H.
  destruct (iterate _); inversion H; subst; exists []; now rewrite app_nil_r.
Qed.

Lemma appends_httpClient config : appends (Transport.httpClient E config).
Proof.
  intros s r s' H. unfold Transport.httpClient in H.
  destruct (http E config (world s)) as [o w].
  destruct o; inversion H; subst; cbn; eauto.
Qed.

Lemma appends_retry_loop this config remaining :
  forall attempt lastError,
    appends (Transport.retry_loop E this config remaining attempt lastError).
Proof.
  induction remaining as [|n IH]; intros attempt lastError; cbn.
  - apply appends_throw.
  - apply appends_try_catch.
    + apply appends_bind; [apply appends_httpClient | intros; apply appends_member].
    + intros t. destruct (Transport.no_retry t); [apply appends_throw|].
      destruct (attempt =? _); [apply appends_throw|].
      apply appends_bind; [apply appends_emit | intros; apply IH].
Qed.

Lemma appends_invoke callback args : appends (Agents.invoke E callback args).
Proof.
  destruct callback; try apply appends_throw.
  intros s r s' H. cbn in H.
  destruct (call E f args (world s)) as [o w].
  destruct o; inversion H; subst; cbn; eauto.
Qed.

Lemma appends_resolve_call toolCall toolCallbacks :
  appends (Agents.resolve_call E toolCall toolCallbacks).
Proof.
  unfold Agents.resolve_call.
  apply appends_bind; [apply appends_member | intros fn].
  apply appends_bind.
  - destruct (truthy _); [|apply appends_ret].
    apply appends_try_catch.
    + apply appends_bind; [|intros; apply appends_invoke].
      destruct (truthy _); [|apply appends_ret].
      unfold Agents.parse.
      destruct (get_prop fn "arguments"); try apply appends_ret.
      destruct (JSON_parse E s); [apply appends_ret | apply appends_throw].
    + intros t. apply appends_bind; [|intros; apply appends_ret].
      destruct t; [apply appends_ret | apply appends_member].
  - intros result. apply appends_bind;
      [apply appends_member | intros; apply appends_ret].
Qed.

Lemma appends_resolve_loop toolCalls toolCallbacks :
  appends (Agents.resolve_loop E toolCalls toolCallbacks).
Proof.
  induction toolCalls as [|tc rest IH]; cbn; [apply appends_ret|].
  apply appends_bind; [apply appends_resolve_call | intros r].
  apply appends_bind; [apply IH | intros; apply appends_ret].
Qed.

Lemma appends_push_results cm results :
  appends (Agents.push_results E cm results).
Proof.
  induction results as [|x rest IH]; cbn; [apply appends_ret|].
  apply appends_bind; [apply appends_push | intros; apply IH].
Qed.

(** Every transport call opens with the payload as it is at that moment. *)
Lemma _executeAgent_trace (p : Agents.payload) (s : state (World E)) r s' :
  Agents._executeAgent E client p s = (r, s') ->
  exists l,
    log s' = log s
             ++ EvTransport (VStr "/agents") (Agents.payload_value (heap s) p)
             :: l.
Proof.
  unfold Agents._executeAgent, Transport.request. intros H.
  apply bind_inv in H as [(t & H & _)|(a & s1 & H1 & H2)]; [inversion H|].
  inversion H1; subst; clear H1.
  eapply (appends_bind _ _ (appends_member _ _)) in H2.
  - destruct H2 as [l Hl]. cbn [log] in Hl. exists l.
    rewrite Hl, <- app_assoc. reflexivity.
  - intros. apply appends_retry_loop.
Qed.

Lemma appends_run_loop cm maxIterations toolCallbacks remaining :
  forall p,
    appends (Agents.run_loop E client remaining maxIterations toolCallbacks
               cm p).
Proof.
  induction remaining as [|n IH]; intros p; cbn [Agents.run_loop].
  - apply appends_throw.
  - apply appends_bind.
    { intros s r s' H. apply _executeAgent_trace in H as [l Hl]. eauto. }
    intros response.
    apply appends_bind; [apply appends_member | intros _].
    destruct (negb _); [apply appends_ret|].
    destruct (_ || _); [apply appends_ret|].
    apply appends_bind.
    { unfold Agents._executeToolCallbacks.
      apply appends_bind; [apply appends_elements|].
      intros; apply appends_resolve_loop. }
    intros results.
    repeat (apply appends_bind; [apply appends_member | intros ?]).
    apply appends_bind; [apply appends_push | intros _].
    apply appends_bind; [apply appends_push_results | intros _].
    apply IH.
Qed.

(** A round of the loop opens with a transport call that submits the
    messages as they are at that moment. *)
Lemma run_loop_submits cm maxIterations toolCallbacks n p
    (s : state (World E)) r s' :
  Agents.run_loop E client (S n) maxIterations toolCallbacks cm p s = (r, s') ->
  exists l,
    log s' = log s
             ++ EvTransport (VStr "/agents") (Agents.payload_value (heap s) p)
             :: l.
Proof.
  intros H. cbn [Agents.run_loop] in H.
  apply bind_inv in H as [(t & H & _)|(response & s1 & H1 & H2)].
  - now apply _executeAgent_trace in H.
  - apply _executeAgent_trace in H1 as [l1 Hl1].
    assert (Hrest : exists l2, log s' = log s1 ++ l2).
    { revert H2. apply appends_bind; [apply appends_member | intros _].
      destruct (negb _); [apply appends_ret|].
      destruct (_ || _); [apply appends_ret|].
      apply appends_bind.
      { unfold Agents._executeToolCallbacks.
        apply appends_bind; [apply appends_elements|].
        intros; apply appends_resolve_loop. }
      intros results.
      repeat (apply appends_bind; [apply appends_member | intros ?]).
      apply appends_bind; [apply appends_push | intros _].
      apply appends_bind; [apply appends_push_results | intros _].
      apply appends_run_loop. }
    destruct Hrest as [l2 Hl2]. exists (l1 ++ l2).
    rewrite Hl2, Hl1, <- app_assoc. reflexivity.
Qed.

End Trace.

(** *** The callback registry *)

Lemma assoc_remove_key (k k' : string) (ps : list (string * value)) :
  assoc k (remove_key k' ps) = if String.eqb k' k then None else assoc k ps.
Proof.
  unfold remove_key.
  induction ps as [|[k0 v0] ps IH]; simpl.
  - now destruct (String.eqb k' k).
  - destruct (String.eqb k0 k') eqn:E0; simpl.
    + apply String.eqb_eq in E0. subst k0. rewrite IH.
      now destruct (String.eqb k' k).
    + destruct (String.eqb k0 k) eqn:E1.
      * apply String.eqb_eq in E1. subst k0.
        destruct (String.eqb k' k) eqn:E2; [|reflexivity].
        apply String.eqb_eq in E2. subst k'.
        rewrite String.eqb_refl in E0. discriminate.
      * exact IH.
Qed.

Lemma resolve_alloc (h : list (list value)) (a : arg) :
  resolve (h ++ [[]]) a = resolve h a.
Proof.
  destruct a as [v|l]; [reflexivity|]. unfold resolve. f_equal.
  destruct (h !! l) as [xs|] eqn:Hl.
  - now rewrite (lookup_app_l_Some _ _ _ _ Hl).
  - apply lookup_ge_None_1 in Hl.
    destruct (decide (l = List.length h)) as [->|Hne].
    + now rewrite list_lookup_middle.
    + rewrite (lookup_ge_None_2 (h ++ [[]]) l); [reflexivity|].
      rewrite length_app. cbn. lia.
Qed.

Section Registry.

Variable E : Env.

Lemma extract_loop_ok (cleanTools : loc) (ts : list value) :
  forall (toolCallbacks : Agents.registry) (s : state (World E)) xs,
    Forall (fun t => nullish t = false) ts ->
    heap s !! cleanTools = Some xs ->
    Agents.extract_loop E cleanTools ts toolCallbacks s
    = (Ok (fold_left (fun r t => Agents.register t r) ts toolCallbacks),
       mkState (<[cleanTools := xs ++ map Agents.toolDef_of ts]> (heap s))
               (world s) (log s)).
Proof.
  induction ts as [|t ts IH]; intros reg s xs Hts Hc; cbn.
  - rewrite app_nil_r, (list_insert_id _ _ _ Hc). now destruct s.
  - inversion Hts as [|? ? Ht Hts']; subst. rewrite Ht.
    unfold bind, push. cbn [heap world log].
    rewrite Hc. cbn [default].
    rewrite (IH _ _ (xs ++ [Agents.toolDef_of t]) Hts').
    + cbn [heap world log]. rewrite list_insert_insert_eq, <- app_assoc.
      reflexivity.
    + cbn [heap]. apply list_lookup_insert_eq. eapply lookup_lt_Some, Hc.
Qed.

Lemma _extractToolCallbacks_ok (tools : arg) (ts : list value)
    (s : state (World E)) :
  resolve (heap s) tools = VArr ts ->
  Forall (fun t => nullish t = false) ts ->
  Agents._extractToolCallbacks E tools s
  = (Ok (List.length (heap s),
         fold_left (fun r t => Agents.register t r) ts []),
     mkState (heap s ++ [map Agents.toolDef_of ts]) (world s) (log s)).
Proof.
  intros Hres Hts. unfold Agents._extractToolCallbacks, bind, alloc, elements.
  cbn [heap world log]. rewrite resolve_alloc, Hres. cbn [iterate].
  rewrite (extract_loop_ok _ _ _ _ [] Hts).
  - cbn [heap world log ret]. rewrite insert_app_r_alt by lia.
    rewrite Nat.sub_diag. reflexivity.
  - cbn [heap]. apply list_lookup_middle. reflexivity.
Qed.

End Registry.

(** *** Resolving tool calls always gives a result *)

Section Resolver.

Variable E : Env.

Lemma error_message_ok (t : thrown) (m : value) (s : state (World E)) :
  thrown_message t = Some m ->
  Agents.error_message E t s = (Ok m, s).
Proof.
  destruct t as [e|v]; cbn.
  - now intros [= <-].
  - unfold member. destruct (nullish v); [discriminate|]. now intros [= <-].
Qed.

Lemma invoke_throws (callback args : value) (s : state (World E)) t s' :
  callbacks_report E ->
  Agents.invoke E callback args s = (Throw t, s') ->
  is_Some (thrown_message t).
Proof.
  intros Hcb H. destruct callback; try (inversion H; subst; cbn; eauto).
  clear H1. cbn in H. specialize (Hcb f args (world s)).
  destruct (call E f args (world s)) as [[v|t'] w]; cbn in *;
    inversion H; subst. exact Hcb.
Qed.

Lemma parse_throws (text : string) (s : state (World E)) t s' :
  Agents.parse E text s = (Throw t, s') -> is_Some (thrown_message t).
Proof.
  unfold Agents.parse. destruct (JSON_parse E text); intros H;
    inversion H; subst; cbn; eauto.
Qed.

Lemma resolve_call_total (toolCall : value) (reg : Agents.registry)
    (s : state (World E)) :
  callbacks_report E ->
  nullish toolCall = false ->
  exists content s',
    Agents.resolve_call E toolCall reg s
    = (Ok (VObj [("tool_call_id", get_prop toolCall "id");
                 ("content", content)]), s').
Proof.
  intros Hcb Htc. unfold Agents.resolve_call.
  unfold bind at 1. rewrite (member_ok _ _ _ Htc).
  set (fn := get_prop toolCall "function").
  destruct (truthy (Agents.Map_get (opt_member fn "name") reg)).
  - unfold bind at 1. unfold try_catch.
    match goal with |- context [bind ?m ?k s] =>
      destruct (bind m k s) as [[v|t] s1] eqn:Hbody end.
    + unfold bind. rewrite (member_ok _ _ _ Htc). cbn. eauto.
    + assert (Ht : is_Some (thrown_message t)).
      { apply bind_inv in Hbody as [(t' & H & [= <-])|(a & s2 & _ & H)].
        - destruct (truthy _); [|inversion H].
          destruct (get_prop fn "arguments"); try (inversion H; fail).
          eapply parse_throws, H.
        - eapply invoke_throws; eauto. }
      destruct Ht as [m Hm]. unfold bind.
      rewrite (error_message_ok _ _ _ Hm). cbn.
      rewrite (member_ok _ _ _ Htc). cbn. eauto.
  - unfold bind. cbn. rewrite (member_ok _ _ _ Htc). cbn. eauto.
Qed.

Lemma resolve_loop_total (toolCalls : list value) (reg : Agents.registry) :
  callbacks_report E ->
  Forall (fun tc => nullish tc = false) toolCalls ->
  forall s : state (World E),
    exists results s',
      Agents.resolve_loop E toolCalls reg s = (Ok results, s')
      /\ Forall2 (fun tc r =>
                    get_prop r "tool_call_id" = get_prop tc "id")
                 toolCalls results.
Proof.
  intros Hcb Htcs. induction Htcs as [|tc rest Htc _ IH]; intros s; cbn.
  - exists [], s. split; [reflexivity | constructor].
  - destruct (resolve_call_total tc reg s Hcb Htc) as (c & s1 & H1).
    destruct (IH s1) as (rs & s2 & H2 & HF).
    unfold bind. rewrite H1, H2. cbn.
    eexists _, _. split; [reflexivity|]. constructor; [reflexivity | exact HF].
Qed.

(** Whatever the callbacks do: when resolution returns, it returns one
    result per call, in the order of the calls. *)
Lemma resolve_call_returns (toolCall : value) (reg : Agents.registry)
    (s : state (World E)) r s' :
  Agents.resolve_call E toolCall reg s = (Ok r, s') ->
  get_prop r "tool_call_id" = get_prop toolCall "id".
Proof.
  unfold Agents.resolve_call. intros H.
  apply bind_inv in H as [(t & _ & [=])|(fn & s1 & H1 & H)].
  apply bind_inv in H as [(t & _ & [=])|(result & s2 & _ & H)].
  apply bind_inv in H as [(t & _ & [=])|(id & s3 & H3 & H)].
  inversion H; subst; clear H. cbn.
  unfold member in H3. destruct (nullish toolCall); inversion H3. reflexivity.
Qed.

Lemma resolve_loop_returns (toolCalls : list value) (reg : Agents.registry) :
  forall (s : state (World E)) results s',
    Agents.resolve_loop E toolCalls reg s = (Ok results, s') ->
    Forall2 (fun tc r => get_prop r "tool_call_id" = get_prop tc "id")
            toolCalls results.
Proof.
  induction toolCalls as [|tc rest IH]; intros s results s' H; cbn in H.
  - inversion H; subst. constructor.
  - apply bind_inv in H as [(t & _ & [=])|(r & s1 & H1 & H)].
    apply bind_inv in H as [(t & _ & [=])|(rs & s2 & H2 & H)].
    inversion H; subst; clear H. constructor.
    + eapply resolve_call_returns, H1.
    + eapply IH, H2.
Qed.

End Resolver.

(** *** One round of the run loop *)

Section Loop.

Variable E : Env.
Variable client : Transport.Agentlify.

Lemma push_results_ok (cm : loc) (results : list value) :
  forall (s : state (World E)) xs,
    heap s !! cm = Some xs ->
    Agents.push_results E cm results s
    = (Ok tt,
       mkState (<[cm := xs ++ map Agents.tool_message results]> (heap s))
               (world s) (log s)).
Proof.
  induction results as [|r rest IH]; intros s xs Hc; cbn.
  - rewrite app_nil_r, (list_insert_id _ _ _ Hc). now destruct s.
  - unfold bind, push. cbn [heap world log]. rewrite Hc. cbn [default].
    rewrite (IH _ (xs ++ [Agents.tool_message r])).
    + cbn [heap world log]. rewrite list_insert_insert_eq, <- app_assoc.
      reflexivity.
    + cbn [heap]. apply list_lookup_insert_eq. eapply lookup_lt_Some, Hc.
Qed.

(** An answered first attempt is the result of [request]. *)
Lemma request_answered (this : Transport.Agentlify) (endpoint : value)
    (opts : list (string * value)) (s : state (World E)) response w :
  0 <= Transport.maxRetries this ->
  http E (Transport.make_config endpoint (VObj opts)) (world s)
  = (HttpOk response, w) ->
  nullish response = false ->
  Transport.request E this endpoint (VObj opts) s
  = (Ok (get_prop response "data"),
     mkState (heap s) w
       (log s ++ [EvTransport endpoint (get_prop (VObj opts) "data");
                  EvHttp (Transport.make_config endpoint (VObj opts))])).
Proof.
  intros Hr Hhttp Hresp. unfold Transport.request.
  destruct (Z.to_nat (Transport.maxRetries this + 1)) as [|n] eqn:Hn; [lia|].
  unfold bind, emit, member. cbn [nullish ret heap world log].
  cbn [Transport.retry_loop]. unfold try_catch, bind, Transport.httpClient.
  cbn [heap world log]. rewrite Hhttp. unfold member. rewrite Hresp.
  cbn [ret]. rewrite <- app_assoc. reflexivity.
Qed.

Lemma requests_tools_not_nullish (body : value) :
  requests_tools body -> nullish body = false.
Proof. intros [H _]. now destruct body. Qed.

Lemma get_prop_not_nullish (v : value) (k : string) :
  nullish (get_prop v k) = false -> nullish v = false.
Proof. now destruct v. Qed.

Lemma opt_member_not_nullish (v : value) (k : string) :
  nullish (opt_member v k) = false ->
  nullish v = false /\ opt_member v k = get_prop v k.
Proof. unfold opt_member. destruct (nullish v); [discriminate | auto]. Qed.

(** When a response carries tool calls, the path to its message exists. *)
Lemma pending_path (response : value) :
  nullish (Agents.pending_tool_calls response) = false ->
  let choices := get_prop response "choices" in
  let choice := get_prop choices "0" in
  let message := get_prop choice "message" in
  nullish choices = false /\ nullish choice = false
  /\ nullish message = false
  /\ Agents.pending_tool_calls response = get_prop message "tool_calls".
Proof.
  unfold Agents.pending_tool_calls. intros H.
  apply opt_member_not_nullish in H as [H1 E1]. rewrite E1.
  pose proof (opt_member_not_nullish _ _ H1) as [H2 E2]. rewrite E2 in *.
  unfold opt_index in *. change (digits (Z.of_nat 0)) with "0"%string in *.
  destruct (nullish (get_prop response "choices")) eqn:H3; [discriminate|].
  auto.
Qed.

(** A round that resolves tool calls appends the assistant message and one
    tool message per result, in order, and goes on with the next round. *)
Lemma run_loop_step (n : nat) (B : value) (reg : Agents.registry) (cm : loc)
    (p : Agents.payload) (s s1 s2 : state (World E)) response tcs results old :
  Agents._executeAgent E client p s = (Ok response, s1) ->
  nullish response = false ->
  truthy (Agents.needsToolExecution response) = true ->
  Agents.pending_tool_calls response = VArr tcs ->
  tcs <> [] ->
  Agents._executeToolCallbacks E (VArr tcs) reg s1 = (Ok results, s2) ->
  heap s2 !! cm = Some old ->
  Agents.run_loop E client (S n) B reg cm p s
  = Agents.run_loop E client n B reg cm
      (Agents.mkPayload (Agents.p_agentId p) (ArrayRef cm)
                        (Agents.p_tools p) (Agents.p_options p))
      (mkState
         (<[cm := old ++ Agents.assistant_message (content_of response)
                           (VArr tcs)
                       :: map Agents.tool_message results]> (heap s2))
         (world s2) (log s2)).
Proof.
  intros Hexec Hresp Hneeds Hpend Hne Hres Hcm.
  assert (Hnn : nullish (Agents.pending_tool_calls response) = false)
    by now rewrite Hpend.
  destruct (pending_path _ Hnn) as (Hc & Hch & Hm & _).
  cbn [Agents.run_loop]. unfold bind at 1. rewrite Hexec.
  unfold bind at 1. rewrite (member_ok _ _ _ Hresp).
  rewrite Hneeds, Hpend. cbn [negb truthy orb].
  assert (Hlen : strict_eq_num (get_prop (VArr tcs) "length") 0 = false).
  { destruct tcs; [congruence|]. reflexivity. }
  rewrite Hlen. unfold bind at 1. rewrite Hres.
  unfold bind at 1. rewrite (member_ok _ _ _ Hresp).
  unfold bind at 1. unfold index. rewrite (member_ok _ _ _ Hc).
  change (digits (Z.of_nat 0)) with "0"%string.
  unfold bind at 1. rewrite (member_ok _ _ _ Hch).
  unfold bind at 1. rewrite (member_ok _ _ _ Hm).
  unfold bind at 1. unfold push at 1. cbn [heap world log]. rewrite Hcm.
  cbn [default]. unfold bind at 1.
  rewrite (push_results_ok _ _ _
             (old ++ [Agents.assistant_message (content_of response)
                        (VArr tcs)])).
  - cbn [heap world log]. rewrite list_insert_insert_eq, <- app_assoc.
    reflexivity.
  - cbn [heap]. apply list_lookup_insert_eq. eapply lookup_lt_Some, Hcm.
Qed.

(** If the budget allows another round, that round resubmits the extended
    messages. *)
Lemma run_loop_step_submits (n : nat) (B : value) (reg : Agents.registry)
    (cm : loc) (p : Agents.payload) (s s1 s2 : state (World E))
    response tcs results old r sf :
  Agents._executeAgent E client p s = (Ok response, s1) ->
  nullish response = false ->
  truthy (Agents.needsToolExecution response) = true ->
  Agents.pending_tool_calls response = VArr tcs ->
  tcs <> [] ->
  Agents._executeToolCallbacks E (VArr tcs) reg s1 = (Ok results, s2) ->
  heap s2 !! cm = Some old ->
  Agents.run_loop E client (S (S n)) B reg cm p s = (r, sf) ->
  exists l data,
    log sf = log s2 ++ EvTransport (VStr "/agents") data :: l
    /\ get_prop data "messages"
       = VArr (old ++ Agents.assistant_message (content_of response)
                        (VArr tcs)
                   :: map Agents.tool_message results).
Proof.
  intros Hexec Hresp Hneeds Hpend Hne Hres Hcm Hrun.
  rewrite (run_loop_step (S n) B reg cm p s s1 s2 response tcs results old
             Hexec Hresp Hneeds Hpend Hne Hres Hcm) in Hrun.
  apply run_loop_submits in Hrun as [l Hl]. cbn [log heap] in Hl.
  eexists l, _. split; [exact Hl|].
  unfold Agents.payload_value. cbn [Agents.p_messages Agents.p_agentId app].
  cbn [get_prop assoc String.eqb Ascii.eqb Bool.eqb default]. unfold resolve.
  rewrite list_lookup_insert_eq by (eapply lookup_lt_Some, Hcm).
  reflexivity.
Qed.

End Loop.

(** *** What [run] does to the store and to the transport *)

Section Run.

Variable E : Env.
Variable client : Transport.Agentlify.

Lemma extract_frame (tools : arg) (s : state (World E)) r s' :
  Agents._extractToolCallbacks E tools s = (r, s') ->
  List.length (heap s') = S (List.length (heap s))
  /\ (forall l : loc, (l < List.length (heap s))%nat ->
                      heap s' !! l = heap s !! l)
  /\ transport_calls (log s') = transport_calls (log s)
  /\ (forall c reg, r = Ok (c, reg) -> c = List.length (heap s)).
Proof.
  unfold Agents._extractToolCallbacks. intros H.
  apply bind_inv in H as [(t & H & _)|(c & s1 & H1 & H)]; [inversion H|].
  inversion H1; subst; clear H1.
  set (s1 := mkState (heap s ++ [[]]) (world s) (log s)) in *.
  assert (F1 : forall l : loc, (l < List.length (heap s))%nat ->
                               heap s1 !! l = heap s !! l)
    by (intros l Hl; apply lookup_app_l; exact Hl).
  assert (L1 : List.length (heap s1) = S (List.length (heap s)))
    by (cbn; rewrite length_app; cbn; lia).
  apply bind_inv in H as [(t & H & ->)|(elems & s2 & H2 & H)].
  { apply quiet_elements in H as [Hh Hl]. rewrite Hh, Hl.
    repeat split; auto. discriminate. }
  apply quiet_elements in H2 as [Hh2 Hl2].
  apply bind_inv in H as [(t & H & ->)|(reg & s3 & H3 & H)].
  - apply tame_extract_loop in H as (L & F & C).
    rewrite L, Hh2. repeat split; auto; try discriminate.
    + intros l Hl. rewrite F by lia. rewrite Hh2. auto.
    + rewrite Hl2 in C. cbn [log s1] in C. lia.
  - apply tame_extract_loop in H3 as (L & F & C).
    inversion H; subst; clear H.
    rewrite L, Hh2. repeat split; auto.
    + intros l Hl. rewrite F by lia. rewrite Hh2. auto.
    + rewrite Hl2 in C. cbn [log s1] in C. lia.
    + intros c reg' [= <- _]. reflexivity.
Qed.

(** [run] never writes to an array that existed before the call, and makes
    at most as many transport calls as the budget allows. *)
Lemma run_frame (params : Agents.AgentRunParams) (s : state (World E)) r s' :
  Agents.run E client params s = (r, s') ->
  (forall l : loc, (l < List.length (heap s))%nat ->
                   heap s' !! l = heap s !! l)
  /\ (transport_calls (log s) <= transport_calls (log s')
      <= transport_calls (log s)
         + Agents.iterations (maxIterations params))%nat.
Proof.
  unfold Agents.run. intros H.
  destruct (negb (truthy (Agents.agentId params)));
    [inversion H; subst; split; [auto | lia]|].
  destruct (negb _ || negb _);
    [inversion H; subst; split; [auto | lia]|].
  apply bind_inv in H as [(t & H & ->)|([c reg] & s1 & H1 & H)].
  { apply extract_frame in H as (L & F & C & _). rewrite C.
    split; [auto | lia]. }
  apply extract_frame in H1 as (L1 & F1 & C1 & Hc).
  specialize (Hc _ _ eq_refl). cbn [fst snd] in H.
  apply bind_inv in H as [(t & H & _)|(cleaned & s2 & H2 & H)];
    [inversion H|].
  inversion H2; subst s2 cleaned; clear H2.
  apply bind_inv in H as [(t & H & ->)|(copy & s2 & H2 & H)].
  { apply quiet_elements in H as [Hh Hl]. rewrite Hh, Hl, C1.
    split; [auto | lia]. }
  apply quiet_elements in H2 as [Hh2 Hl2].
  apply bind_inv in H as [(t & H & _)|(cm & s3 & H3 & H)];
    [inversion H|].
  inversion H3; subst s3 cm; clear H3.
  apply tame_run_loop in H as (L & F & C). cbn [heap log] in *.
  split.
  - intros l Hl. rewrite F by (rewrite Hh2; lia).
    rewrite lookup_app_l by (rewrite Hh2; lia). rewrite Hh2. auto.
  - rewrite Hl2, C1 in C. unfold maxIterations. lia.
Qed.

Lemma resolve_app (h x : list (list value)) (a : arg) :
  in_store h a -> resolve (h ++ x) a = resolve h a.
Proof.
  destruct a as [v|l]; [reflexivity|]. intros [xs Hl]. unfold resolve.
  now rewrite (lookup_app_l_Some _ _ _ _ Hl), Hl.
Qed.

Lemma isArray_resolve (h : list (list value)) (a : arg) :
  isArray_arg a = true -> exists ms, resolve h a = VArr ms.
Proof.
  destruct a as [v|l]; cbn; [|eauto].
  destruct v; try discriminate. eauto.
Qed.

Lemma elements_ok (what : string) (a : arg) (xs : list value)
    (s : state (World E)) :
  resolve (heap s) a = VArr xs -> elements what a s = (Ok xs, s).
Proof. unfold elements. now intros ->. Qed.

Lemma given_tools_well_formed (h : list (list value)) params :
  tools_well_formed h params ->
  exists ts, resolve h (given_tools params) = VArr ts
             /\ Forall (fun t => nullish t = false) ts.
Proof.
  unfold given_tools. intros [Hf|(ts & Hr & Hts)].
  - rewrite Hf. exists []. split; [reflexivity | constructor].
  - exists ts. split; [|exact Hts].
    destruct (Agents.tools params) as [v|l]; [|exact Hr].
    cbn in Hr. subst v. reflexivity.
Qed.

(** With valid parameters the part of [run] before the loop cannot fail:
    it allocates the cleaned tool list and the copy of the messages. *)
Lemma run_setup (params : Agents.AgentRunParams) (s : state (World E))
    (ts ms : list value) :
  passes_validation params ->
  in_store (heap s) (Agents.messages params) ->
  resolve (heap s) (Agents.messages params) = VArr ms ->
  resolve (heap s) (given_tools params) = VArr ts ->
  Forall (fun t => nullish t = false) ts ->
  Agents.run E client params s
  = Agents.run_loop E client (Agents.iterations (maxIterations params))
      (maxIterations params)
      (fold_left (fun r t => Agents.register t r) ts [])
      (S (List.length (heap s)))
      (Agents.mkPayload (Agents.agentId params) (Agents.messages params)
         (if 0 <? Z.of_nat (List.length ts)
          then Some (ArrayRef (List.length (heap s))) else None)
         (or_else (Agents.options params) (VObj [])))
      (mkState (heap s ++ [map Agents.toolDef_of ts; ms]) (world s) (log s)).
Proof.
  intros (Ha & Hm & Harr) Hin Hms Hts Hnn. unfold Agents.run.
  rewrite Ha, Hm, Harr. cbn [negb orb].
  unfold bind at 1. fold (given_tools params).
  rewrite (_extractToolCallbacks_ok _ _ _ _ Hts Hnn). cbn [fst snd].
  unfold bind at 1, contents at 1. cbn [heap world log].
  rewrite list_lookup_middle by reflexivity. cbn [default].
  unfold bind at 1. rewrite (elements_ok _ _ ms).
  2:{ cbn [heap]. now rewrite resolve_app. }
  unfold bind at 1, alloc at 1. cbn [heap world log].
  unfold id, maxIterations. rewrite length_app, length_map. cbn [List.length].
  rewrite Nat.add_1_r, <- app_assoc. reflexivity.
Qed.

(** If the server keeps asking for tools, every round runs to its end and
    the loop leaves through the [throw] after it. *)
Lemma run_loop_exhausts (B : value) (reg : Agents.registry) (cm : loc) :
  server_always_requests_tools E ->
  callbacks_report E ->
  0 <= Transport.maxRetries client ->
  forall (n : nat) (p : Agents.payload) (s : state (World E)),
    is_Some (heap s !! cm) ->
    exists s',
      Agents.run_loop E client n B reg cm p s
      = (Throw (Agents.budget_error B), s')
      /\ transport_calls (log s') = (transport_calls (log s) + n)%nat.
Proof.
  intros Hsrv Hcb Hr. induction n as [|n IH]; intros p s [old Hold].
  - exists s. split; [reflexivity | lia].
  - set (options := [("method", VStr "POST");
                      ("data", Agents.payload_value (heap s) p)]).
    destruct (http E (Transport.make_config (VStr "/agents") (VObj options))
                   (world s)) as [o w] eqn:Hhttp.
    destruct (Hsrv (Transport.make_config (VStr "/agents") (VObj options))
                   (world s)) as (response & Ho & Hneeds & tcs & Hp & Hne & Hnn).
    rewrite Hhttp in Ho. cbn in Ho. subst o.
    assert (Hbody : nullish (get_prop response "data") = false)
      by (apply requests_tools_not_nullish; split; eauto).
    pose proof (get_prop_not_nullish _ _ Hbody) as Hresp.
    pose proof (request_answered E client (VStr "/agents") options s
                  response w Hr Hhttp Hresp) as Hreq.
    fold (Agents._executeAgent E client p s) in Hreq.
    match type of Hreq with _ = (_, ?st) => set (s1 := st) in * end.
    destruct (resolve_loop_total E tcs reg Hcb Hnn s1)
      as (results & s2 & Hres & _).
    assert (Hres' : Agents._executeToolCallbacks E (VArr tcs) reg s1
                    = (Ok results, s2)).
    { unfold Agents._executeToolCallbacks, bind. cbn. exact Hres. }
    destruct (quiet__executeToolCallbacks E _ _ _ _ _ Hres') as [Hh2 Hl2].
    assert (Hold2 : heap s2 !! cm = Some old) by (rewrite Hh2; exact Hold).
    rewrite (run_loop_step E client n B reg cm p s s1 s2 _ tcs results old
               Hreq Hbody Hneeds Hp Hne Hres' Hold2).
    match goal with |- context [Agents.run_loop E client n B reg cm ?p' ?s3] =>
      destruct (IH p' s3) as (s' & Hrun & Hcount) end.
    + cbn [heap]. rewrite list_lookup_insert_eq; [eauto|].
      eapply lookup_lt_Some, Hold2.
    + exists s'. split; [exact Hrun|]. rewrite Hcount. cbn [log].
      rewrite Hl2. subst s1. cbn [log]. rewrite transport_calls_app. cbn. lia.
Qed.

End Run.

(** *** The retry policy of [request] *)

Section Retry.

Variable E : Env.
Variable this : Transport.Agentlify.

Lemma retry_loop_S (config : value) (remaining : nat) (attempt : Z)
    (lastError : thrown) :
  Transport.retry_loop E this config (S remaining) attempt lastError
  = try_catch
      (bind (Transport.httpClient E config)
            (fun response => member response "data"))
      (fun error =>
         if Transport.no_retry error then throw error
         else if attempt =? Transport.maxRetries this then throw error
         else bind (Transport.sleep E (Transport.delay attempt))
                (fun _ => Transport.retry_loop E this config remaining
                            (attempt + 1) error)).
Proof. reflexivity. Qed.

Lemma retry_loop_propagates (config : value) (remaining : nat) (attempt : Z)
    (lastError : thrown) (s : state (World E)) o w e :
  http E config (world s) = (o, w) ->
  thrown_by E o = Some e ->
  Transport.no_retry e = true ->
  Transport.retry_loop E this config (S remaining) attempt lastError s
  = (Throw e, mkState (heap s) w (log s ++ [EvHttp config])).
Proof.
  intros Hhttp Ho Hno. cbn [Transport.retry_loop].
  unfold try_catch, bind, Transport.httpClient. rewrite Hhttp.
  destruct o as [response|ax|t]; cbn in Ho; [discriminate| |];
    inversion Ho; subst; rewrite Hno; reflexivity.
Qed.

Lemma server_or_network_retried (ax : axios_error) :
  server_or_network_failure ax ->
  Transport.no_retry (Transport._handleError E ax) = false.
Proof.
  unfold server_or_network_failure, Transport._handleError.
  destruct (err_response ax) as [[status data]|].
  - intros Hs.
    destruct (status =? 401) eqn:E1; [lia|].
    destruct (status =? 429) eqn:E2; [lia|].
    assert (Hlt : (status <? 500) = false) by lia.
    unfold Transport.no_retry.
    destruct (status =? 400), (status =? 422); cbn; now rewrite Hlt.
  - intros _. now destruct (err_request ax).
Qed.

Lemma seq_shift_delays (attempt : Z) (k : nat) :
  map (fun i => Transport.delay (attempt + Z.of_nat i)) (seq 1 k)
  = map (fun i => Transport.delay (attempt + 1 + Z.of_nat i)) (seq 0 k).
Proof.
  rewrite <- seq_shift, map_map. apply map_ext. intros i. f_equal. lia.
Qed.

Lemma retry_loop_gives_up (config : value) :
  (forall w, exists ax, fst (http E config w) = HttpFail ax
                        /\ server_or_network_failure ax) ->
  forall (remaining : nat) (attempt : Z) (lastError : thrown)
         (s : state (World E)),
    attempt + Z.of_nat remaining = Transport.maxRetries this ->
    exists e s',
      Transport.retry_loop E this config (S remaining) attempt lastError s
      = (Throw e, s')
      /\ thrown_by E (fst (http E config
                             (world_after E config remaining (world s))))
         = Some e
      /\ heap s' = heap s
      /\ world s' = world_after E config (S remaining) (world s)
      /\ http_attempts (log s')
         = (http_attempts (log s) + S remaining)%nat
      /\ sleeps (log s')
         = sleeps (log s)
           ++ map (fun i => Transport.delay (attempt + Z.of_nat i))
                  (seq 0 remaining).
Proof.
  intros Hfail. induction remaining as [|n IH]; intros attempt lastError s Hk.
  - destruct (Hfail (world s)) as (ax & Ho & Hax).
    destruct (http E config (world s)) as [o w] eqn:Hhttp. cbn in Ho. subst o.
    cbn [Transport.retry_loop]. unfold try_catch, bind, Transport.httpClient.
    rewrite Hhttp. rewrite (server_or_network_retried _ Hax).
    assert (Hlast : (attempt =? Transport.maxRetries this) = true) by lia.
    rewrite Hlast. eexists _, _. split; [reflexivity|].
    cbn [world_after heap world log]. rewrite Hhttp. cbn [fst snd thrown_by].
    rewrite http_attempts_app, sleeps_app. cbn.
    rewrite app_nil_r. repeat split; auto; lia.
  - destruct (Hfail (world s)) as (ax & Ho & Hax).
    destruct (http E config (world s)) as [o w] eqn:Hhttp. cbn in Ho. subst o.
    rewrite retry_loop_S. unfold try_catch at 1, bind at 1.
    unfold Transport.httpClient at 1. rewrite Hhttp.
    rewrite (server_or_network_retried _ Hax).
    assert (Hlast : (attempt =? Transport.maxRetries this) = false) by lia.
    rewrite Hlast. unfold bind at 1, Transport.sleep, emit.
    cbn [heap world log].
    match goal with |- context [Transport.retry_loop E this config (S n) ?a ?l ?s1] =>
      destruct (IH a l s1) as (e & s' & Hrun & Hlasterr & Hh & Hw & Ha & Hs);
        [lia|] end.
    exists e, s'. split; [exact Hrun|].
    cbn [heap world log] in *.
    cbn [world_after]. rewrite Hhttp. cbn [snd].
    rewrite Ha, Hs, !http_attempts_app, !sleeps_app. cbn [seq map].
    rewrite seq_shift_delays. cbn.
    rewrite Z.add_0_r, <- !app_assoc. cbn [app].
    repeat split; auto; lia.
Qed.

End Retry.

(** ** The claims *)

Section Claims.

Variable E : Env.
Variable client : Transport.Agentlify.

(** C8. Through [request], an authentication failure or a client error
    with a status below 500 is thrown at once: no delay, no further attempt
    (first part, for any attempt of the loop; the errors arise from status
    401 and from the other statuses below 500 except 429, third part).
    When every attempt fails with a server or network failure, [request]
    makes [maxRetries + 1] attempts, waits [min(1000 * 2^attempt, 10000)]
    milliseconds after each failed attempt but the last, and throws the
    error of the last attempt (second part). *)
Theorem request_retry_policy (endpoint : value) (opts : list (string * value)) :
  let config := Transport.make_config endpoint (VObj opts) in
  (forall remaining attempt lastError (s : state (World E)) o w e,
      http E config (world s) = (o, w) ->
      thrown_by E o = Some e ->
      authentication_failure e \/ client_error_below_500 e ->
      Transport.retry_loop E client config (S remaining) attempt lastError s
      = (Throw e, mkState (heap s) w (log s ++ [EvHttp config])))
  /\ (0 <= Transport.maxRetries client ->
      (forall w, exists ax, fst (http E config w) = HttpFail ax
                            /\ server_or_network_failure ax) ->
      forall s : state (World E),
      exists e s',
        Transport.request E client endpoint (VObj opts) s = (Throw e, s')
        /\ thrown_by E
             (fst (http E config
                     (world_after E config
                        (Z.to_nat (Transport.maxRetries client)) (world s))))
           = Some e
        /\ http_attempts (log s')
           = (http_attempts (log s)
              + Z.to_nat (Transport.maxRetries client) + 1)%nat
        /\ sleeps (log s')
           = sleeps (log s)
             ++ backoff_delays (Z.to_nat (Transport.maxRetries client)))
  /\ (forall ax status data,
      err_response ax = Some (status, data) ->
      (status = 401 -> authentication_failure (Transport._handleError E ax))
      /\ (status < 500 -> status <> 401 -> status <> 429 ->
          client_error_below_500 (Transport._handleError E ax))).
Proof.
  intros config. split; [|split].
  - intros remaining attempt lastError s o w e Hhttp Ho Hclass.
    apply retry_loop_propagates with (o := o); auto.
    unfold Transport.no_retry.
    destruct Hclass as [Hauth|(err & n & -> & Hapi & Hst & Hn)].
    + unfold authentication_failure in Hauth. now rewrite Hauth.
    + rewrite Hapi. cbn. rewrite Hst.
      assert (Hlt : (n <? 500) = true) by lia.
      rewrite Hlt. apply orb_true_r.
  - intros Hr Hfail s. unfold Transport.request.
    unfold bind at 1, emit at 1. unfold bind at 1, member at 1.
    cbn [nullish ret heap world log]. fold config.
    destruct (retry_loop_gives_up E client config Hfail
                (Z.to_nat (Transport.maxRetries client)) 0 (Raw VUndefined)
                (mkState (heap s) (world s)
                   (log s ++ [EvTransport endpoint
                                (opt_member (VObj opts) "data")])))
      as (e & s' & Hrun & Hlast & Hh & Hw & Ha & Hs); [lia|].
    replace (Z.to_nat (Transport.maxRetries client + 1))
      with (S (Z.to_nat (Transport.maxRetries client))) by lia.
    exists e, s'. split; [exact Hrun|].
    cbn [heap world log] in *. split; [exact Hlast|].
    rewrite Ha, Hs, http_attempts_app, sleeps_app. cbn.
    rewrite app_nil_r. split; [lia|]. reflexivity.
  - intros ax status data Hresp. unfold Transport._handleError. rewrite Hresp.
    split.
    + intros ->. reflexivity.
    + intros Hlt H401 H429.
      destruct (status =? 401) eqn:E1; [lia|].
      destruct (status =? 429) eqn:E2; [lia|].
      destruct (status =? 400), (status =? 422);
        (eexists _, status; repeat split; try reflexivity; exact Hlt).
Qed.

(** C1 (amended). For a positive integer [maxToolIterations = n], [run]
    makes at most [n] transport calls, whatever the server answers.  When
    the call is valid and every answer signals tool execution and carries
    tool calls, [run] makes exactly [n] calls and then throws the error
    [Agent tool execution exceeded maximum iterations (n)] instead of
    returning a response. *)
Theorem run_iteration_budget (params : Agents.AgentRunParams)
    (s : state (World E)) (n : Z) :
  Agents.maxToolIterations params = VNum n ->
  0 < n ->
  let outcome := Agents.run E client params s in
  (transport_calls (log (snd outcome))
   <= transport_calls (log s) + Z.to_nat n)%nat
  /\ (passes_validation params ->
      in_store (heap s) (Agents.messages params) ->
      tools_well_formed (heap s) params ->
      0 <= Transport.maxRetries client ->
      server_always_requests_tools E ->
      callbacks_report E ->
      fst outcome
      = Throw (new_Error Error
                 ("Agent tool execution exceeded maximum iterations ("
                  +:+ dec n +:+ ")"))
      /\ transport_calls (log (snd outcome))
         = (transport_calls (log s) + Z.to_nat n)%nat).
Proof.
  intros Hn Hpos outcome.
  assert (HB : maxIterations params = VNum n).
  { unfold maxIterations, or_else. rewrite Hn. cbn.
    destruct (n =? 0) eqn:E0; [lia | reflexivity]. }
  split.
  - subst outcome.
    destruct (Agents.run E client params s) as [r s'] eqn:Hrun.
    apply run_frame in Hrun as [_ Hc]. rewrite HB in Hc. cbn in *. lia.
  - intros Hv Hin Htools Hr Hsrv Hcb.
    destruct (given_tools_well_formed _ _ Htools) as (ts & Hts & Hnn).
    destruct (isArray_resolve (heap s) (Agents.messages params))
      as [ms Hms]; [apply Hv|].
    subst outcome. rewrite (run_setup E client params s ts ms Hv Hin Hms Hts Hnn).
    rewrite HB.
    match goal with |- context [Agents.run_loop E client ?k ?B ?reg ?cm ?p ?s0] =>
      destruct (run_loop_exhausts E client B reg cm Hsrv Hcb Hr k p s0)
        as (s' & Hrun & Hcount) end.
    + cbn [heap]. rewrite lookup_app_r by lia.
      replace (S (List.length (heap s)) - List.length (heap s))%nat
        with 1%nat by lia. cbn. eauto.
    + rewrite Hrun. cbn [fst snd]. split; [reflexivity|].
      rewrite Hcount. reflexivity.
Qed.

(** C9. When [maxToolIterations] is falsy (left out, [0], [null], ...), the
    budget is the default 10, not zero: a valid call makes at least one
    transport call (and at most ten). *)
Theorem falsy_budget_defaults_to_ten (params : Agents.AgentRunParams)
    (s : state (World E)) :
  truthy (Agents.maxToolIterations params) = false ->
  passes_validation params ->
  in_store (heap s) (Agents.messages params) ->
  tools_well_formed (heap s) params ->
  maxIterations params = VNum 10
  /\ Agents.iterations (maxIterations params) = 10%nat
  /\ (transport_calls (log s) + 1
      <= transport_calls (log (snd (Agents.run E client params s)))
      <= transport_calls (log s) + 10)%nat.
Proof.
  intros Hf Hv Hin Htools.
  assert (HB : maxIterations params = VNum 10)
    by (unfold maxIterations, or_else; now rewrite Hf).
  split; [exact HB|]. rewrite HB. split; [reflexivity|].
  destruct (given_tools_well_formed _ _ Htools) as (ts & Hts & Hnn).
  destruct (isArray_resolve (heap s) (Agents.messages params))
    as [ms Hms]; [apply Hv|].
  rewrite (run_setup E client params s ts ms Hv Hin Hms Hts Hnn), HB.
  match goal with |- context [Agents.run_loop E client ?k ?B ?reg ?cm ?p ?s0] =>
    destruct (Agents.run_loop E client k B reg cm p s0) as [r s'] eqn:Hrun end.
  change (Agents.iterations (VNum 10)) with 10%nat in Hrun.
  apply tame_run_loop in Hrun as (_ & _ & Hc).
  change (Nat.min 1 10) with 1%nat in Hc. cbn [snd log] in *. lia.
Qed.

(** C10. [run] never mutates the caller's [messages] array: whether it
    returns or throws, the array holds the same elements afterwards (the
    loop pushes to its own copy). *)
Theorem run_leaves_caller_messages (params : Agents.AgentRunParams)
    (s : state (World E)) (l : loc) :
  Agents.messages params = ArrayRef l ->
  is_Some (heap s !! l) ->
  heap (snd (Agents.run E client params s)) !! l = heap s !! l
  /\ resolve (heap (snd (Agents.run E client params s)))
       (Agents.messages params)
     = resolve (heap s) (Agents.messages params).
Proof.
  intros Hm Hl.
  destruct (Agents.run E client params s) as [r s'] eqn:Hrun.
  apply run_frame in Hrun as [Hf _]. cbn [snd].
  assert (H : heap s' !! l = heap s !! l)
    by (apply Hf, lookup_lt_is_Some, Hl).
  split; [exact H|]. rewrite Hm. unfold resolve. now rewrite H.
Qed.

(** C7 (amended). When [agentId] is falsy (left out or empty), or
    [messages] is falsy or not an array, [run] and [execute] throw an
    [InvalidRequestError] that names the field, and nothing else happens:
    no transport call, no HTTP attempt.  ([agentId] is checked first.) *)
Theorem validation_precedes_transport (params : Agents.AgentRunParams)
    (s : state (World E)) :
  truthy (Agents.agentId params) = false
  \/ truthy_arg (Agents.messages params) = false
  \/ isArray_arg (Agents.messages params) = false ->
  exists msg field,
    ((truthy (Agents.agentId params) = false
      /\ msg = "agentId is required"%string /\ field = "agentId"%string)
     \/ (truthy (Agents.agentId params) = true
         /\ msg = "messages array is required"%string
         /\ field = "messages"%string))
    /\ Agents.run E client params s = (Throw (validation_error E msg field), s)
    /\ Agents.execute E client params s
       = (Throw (validation_error E msg field), s).
Proof.
  intros H. unfold Agents.run, Agents.execute.
  destruct (truthy (Agents.agentId params)) eqn:Ha; cbn [negb].
  - exists "messages array is required"%string, "messages"%string.
    split; [right; auto|].
    assert (Hm : negb (truthy_arg (Agents.messages params))
                 || negb (isArray_arg (Agents.messages params)) = true).
    { destruct H as [H|[H|H]]; [discriminate| |]; rewrite H; cbn;
        [reflexivity | apply orb_true_r]. }
    rewrite Hm. split; reflexivity.
  - exists "agentId is required"%string, "agentId"%string.
    split; [left; auto|]. split; reflexivity.
Qed.

(** When the first answer of the server does not signal tool execution,
    or carries no tool-call list or an empty one, [run] returns the body of
    that answer unchanged after one transport call. *)
Lemma run_first_answer_completes (params : Agents.AgentRunParams)
    (s : state (World E)) (response : value) :
  passes_validation params ->
  in_store (heap s) (Agents.messages params) ->
  tools_well_formed (heap s) params ->
  (1 <= Agents.iterations (maxIterations params))%nat ->
  0 <= Transport.maxRetries client ->
  (forall config, fst (http E config (world s)) = HttpOk response) ->
  nullish (get_prop response "data") = false ->
  completes (get_prop response "data") ->
  fst (Agents.run E client params s) = Ok (get_prop response "data")
  /\ transport_calls (log (snd (Agents.run E client params s)))
     = S (transport_calls (log s)).
Proof.
  intros Hv Hin Htools Hiter Hr Hsrv Hbody Hdone.
  enough (Hrun : exists s',
             Agents.run E client params s
             = (Ok (get_prop response "data"), s')
             /\ transport_calls (log s') = S (transport_calls (log s)))
    by (destruct Hrun as (s' & -> & Hc); auto).
  destruct (given_tools_well_formed _ _ Htools) as (ts & Hts & Hnn).
  destruct (isArray_resolve (heap s) (Agents.messages params))
    as [ms Hms]; [apply Hv|].
  rewrite (run_setup E client params s ts ms Hv Hin Hms Hts Hnn).
  destruct (Agents.iterations (maxIterations params)) as [|n]; [lia|].
  cbn [Agents.run_loop].
  match goal with |- context [Agents._executeAgent E client ?x] =>
    set (p := x) end.
  match goal with |- context [bind _ _ ?x] => set (s0 := x) end.
  set (options := [("method", VStr "POST");
                    ("data", Agents.payload_value (heap s0) p)]).
  destruct (http E (Transport.make_config (VStr "/agents") (VObj options))
                 (world s0)) as [o w] eqn:Hhttp.
  pose proof (Hsrv (Transport.make_config (VStr "/agents") (VObj options)))
    as Ho.
  change (world s0) with (world s) in Hhttp. rewrite Hhttp in Ho.
  cbn in Ho. subst o.
  pose proof (get_prop_not_nullish _ _ Hbody) as Hresp.
  pose proof (request_answered E client (VStr "/agents") options s0
                response w Hr Hhttp Hresp) as Hreq.
  match type of Hreq with _ = ?rhs =>
    assert (Hexec : Agents._executeAgent E client p s0 = rhs) by exact Hreq
  end.
  unfold bind at 1. rewrite Hexec.
  unfold bind at 1. rewrite (member_ok _ _ _ Hbody).
  set (body := get_prop response "data") in *.
  assert (Hret : negb (truthy (Agents.needsToolExecution body)) = true
                 \/ negb (truthy (Agents.pending_tool_calls body))
                    || strict_eq_num
                         (get_prop (Agents.pending_tool_calls body) "length")
                         0 = true).
  { destruct Hdone as [[Hfr Hflag]|[Hnone|Hempty]].
    - left. unfold Agents.needsToolExecution.
      fold (finish_reason body). fold (requires_tool_execution body).
      assert (Hs : strict_eq_str (finish_reason body) "tool_calls" = false).
      { destruct (finish_reason body) as [| | | |fr| | |]; try reflexivity.
        cbn. apply String.eqb_neq. congruence. }
      rewrite Hs. unfold or_else. cbn. now rewrite Hflag.
    - right. now rewrite Hnone.
    - right. rewrite Hempty. reflexivity. }
  assert (Hcount : forall a b c,
             transport_calls (log s0 ++ [EvTransport a b; EvHttp c])
             = S (transport_calls (log s))).
  { intros. rewrite transport_calls_app. subst s0. cbn [log].
    change (transport_calls [EvTransport a b; EvHttp c]) with 1%nat. lia. }
  destruct (negb (truthy (Agents.needsToolExecution body))) eqn:Hneeds.
  - eexists. split; [reflexivity|]. apply Hcount.
  - destruct Hret as [Hret|Hret]; [discriminate|]. rewrite Hret.
    eexists. split; [reflexivity|]. apply Hcount.
Qed.

(** C2. Resolving tool calls none of which has a registered callback
    never throws: it returns, for each call and in order, the call's [id]
    as [tool_call_id] with the content
    [{error: "No callback registered for tool: <name>"}], and invokes
    nothing. *)
Theorem missing_callback_gives_error_result (toolCalls : list value)
    (reg : Agents.registry) (s : state (World E)) :
  Forall (fun tc => nullish tc = false
                    /\ Agents.Map_get (name_of tc) reg = VUndefined)
         toolCalls ->
  Agents._executeToolCallbacks E (VArr toolCalls) reg s
  = (Ok (map missing_result toolCalls), s).
Proof.
  intros H. unfold Agents._executeToolCallbacks, bind. cbn [elements].
  unfold elements. cbn [resolve iterate].
  induction H as [|tc rest [Hnn Hget] _ IH]; [reflexivity|].
  cbn [Agents.resolve_loop map]. unfold bind at 1.
  assert (Hcall : Agents.resolve_call E tc reg s
                  = (Ok (missing_result tc), s)).
  { unfold Agents.resolve_call. unfold bind at 1.
    rewrite (member_ok _ _ _ Hnn). fold (name_of tc). rewrite Hget.
    cbn [truthy]. unfold bind. cbn [ret]. rewrite (member_ok _ _ _ Hnn).
    reflexivity. }
  rewrite Hcall. unfold bind. rewrite IH. reflexivity.
Qed.

(** C4. For every list of tool definitions, [_extractToolCallbacks]
    returns a new array [cleanTools] of the same length whose [i]-th
    element is the [i]-th tool without its [callback] property (all other
    properties as they were); every array that existed before, the caller's
    list with its elements among them, is as it was. *)
Theorem extract_strips_callbacks_in_order (tools : arg) (ts : list value)
    (s : state (World E)) :
  resolve (heap s) tools = VArr ts ->
  Forall (fun t => nullish t = false) ts ->
  exists reg cleaned s',
    Agents._extractToolCallbacks E tools s
    = (Ok (List.length (heap s), reg), s')
    /\ heap s' = heap s ++ [cleaned]
    /\ List.length cleaned = List.length ts
    /\ (forall (i : nat) t,
          ts !! i = Some t ->
          exists c,
            cleaned !! i = Some c
            /\ assoc "callback" (own_props c) = None
            /\ forall k, k <> "callback"%string ->
                         assoc k (own_props c) = assoc k (own_props t))
    /\ (forall l : loc, (l < List.length (heap s))%nat ->
                        heap s' !! l = heap s !! l)
    /\ resolve (heap s') tools = VArr ts.
Proof.
  intros Hres Hts. eexists _, (map Agents.toolDef_of ts), _.
  split; [apply (_extractToolCallbacks_ok E _ _ _ Hres Hts)|].
  cbn [heap]. split; [reflexivity|]. split; [apply length_map|].
  split; [|split].
  - intros i t Hi. exists (Agents.toolDef_of t).
    split; [now rewrite list_lookup_fmap, Hi|].
    unfold Agents.toolDef_of. cbn [own_props].
    split.
    + rewrite assoc_remove_key. now rewrite String.eqb_refl.
    + intros k Hk. rewrite assoc_remove_key.
      destruct (String.eqb "callback" k) eqn:Ek; [|reflexivity].
      apply String.eqb_eq in Ek. congruence.
  - intros l Hl. now apply lookup_app_l.
  - destruct tools as [v|l]; [exact Hres|]. cbn [resolve] in *.
    destruct (heap s !! l) as [xs|] eqn:Hl.
    + now rewrite (lookup_app_l_Some _ _ _ _ Hl).
    + cbn in Hres. injection Hres as <-.
      apply lookup_ge_None_1 in Hl.
      destruct (decide (l = List.length (heap s))) as [->|Hne].
      * now rewrite list_lookup_middle.
      * rewrite lookup_ge_None_2; [reflexivity|].
        rewrite length_app. cbn. lia.
Qed.

(** C3. When the callback registered for a tool call throws or rejects
    with an error carrying the message [m], or [JSON.parse] rejects the
    call's arguments with the message [m], resolving the call does not
    throw: its result has the content [{error: m}].  The round of the run
    loop appends the assistant message and the tool message whose content
    is that object serialised, and goes on to the next round; for
    [Error("boom")] the content is the text [{"error":"boom"}]. *)
Theorem callback_failure_becomes_error_content (toolCall : value)
    (reg : Agents.registry) (f : nat) (s s' : state (World E)) (m : value) :
  nullish toolCall = false ->
  Agents.Map_get (name_of toolCall) reg = VFun f ->
  fails_with E toolCall f s m s' ->
  Agents.resolve_call E toolCall reg s
  = (Ok (VObj [("tool_call_id", get_prop toolCall "id");
               ("content", VObj [("error", m)])]), s')
  /\ (forall n B cm p s0 response old,
        Agents._executeAgent E client p s0 = (Ok response, s) ->
        nullish response = false ->
        truthy (Agents.needsToolExecution response) = true ->
        Agents.pending_tool_calls response = VArr [toolCall] ->
        heap s !! cm = Some old ->
        let extended :=
          old ++ [VObj [("role", VStr "assistant");
                        ("content", or_else (content_of response) VNull);
                        ("tool_calls", VArr [toolCall])];
                  VObj [("role", VStr "tool");
                        ("tool_call_id", get_prop toolCall "id");
                        ("content", JSON_stringify (VObj [("error", m)]))]] in
        Agents.run_loop E client (S n) B reg cm p s0
        = Agents.run_loop E client n B reg cm
            (Agents.mkPayload (Agents.p_agentId p) (ArrayRef cm)
                              (Agents.p_tools p) (Agents.p_options p))
            (mkState (<[cm := extended]> (heap s')) (world s') (log s'))
        /\ forall r sf,
             (1 <= n)%nat ->
             Agents.run_loop E client (S n) B reg cm p s0 = (r, sf) ->
             exists l data,
               log sf = log s' ++ EvTransport (VStr "/agents") data :: l
               /\ get_prop data "messages" = VArr extended)
  /\ JSON_stringify (VObj [("error", VStr "boom")])
     = VStr Scenario.boom_text.
Proof.
  intros Hnn Hget Hfail.
  assert (Hcall : Agents.resolve_call E toolCall reg s
                  = (Ok (VObj [("tool_call_id", get_prop toolCall "id");
                               ("content", VObj [("error", m)])]), s')).
  { unfold Agents.resolve_call. unfold bind at 1.
    rewrite (member_ok _ _ _ Hnn). fold (name_of toolCall). rewrite Hget.
    cbn [truthy]. unfold bind at 1, try_catch.
    destruct Hfail as [text msg Harg Htext Hparse -> ->
                      |args t w Hargs Hthrow Hmsg ->].
    - rewrite Harg.
      assert (Htruthy : truthy (VStr text) = true).
      { cbn. destruct (String.eqb text "") eqn:E0; [|reflexivity].
        apply String.eqb_eq in E0. congruence. }
      rewrite Htruthy.
      assert (Hg : get_prop (get_prop toolCall "function") "arguments"
                   = VStr text).
      { unfold opt_member in Harg.
        destruct (nullish (get_prop toolCall "function"));
          [discriminate | exact Harg]. }
      rewrite Hg. unfold bind at 1, Agents.parse. rewrite Hparse.
      cbn [throw Agents.error_message message new_Error].
      unfold bind. cbn [ret]. rewrite (member_ok _ _ _ Hnn). reflexivity.
    - unfold arguments_value in Hargs.
      set (a := opt_member (get_prop toolCall "function") "arguments") in *.
      assert (Hg : truthy a = true ->
                   get_prop (get_prop toolCall "function") "arguments" = a).
      { subst a. unfold opt_member.
        destruct (nullish (get_prop toolCall "function"));
          [discriminate | reflexivity]. }
      assert (Hbody :
        bind (if truthy a
              then match get_prop (get_prop toolCall "function") "arguments"
                   with
                   | VStr text => Agents.parse E text
                   | other => ret other
                   end
              else ret (VObj []))
             (fun args0 => Agents.invoke E (VFun f) args0) s
        = (Throw t, mkState (heap s) w (log s ++ [EvCall f args]))).
      { destruct (truthy a) eqn:Ha.
        - rewrite (Hg eq_refl).
          destruct a; try discriminate;
            try (injection Hargs as <-; unfold bind; cbn [ret Agents.invoke];
                 rewrite Hthrow; reflexivity).
          unfold bind, Agents.parse.
          destruct (JSON_parse E s0) as [v|msg]; [|discriminate].
          injection Hargs as <-. cbn [ret Agents.invoke].
          rewrite Hthrow. reflexivity.
        - injection Hargs as <-. unfold bind. cbn [ret Agents.invoke].
          rewrite Hthrow. reflexivity. }
      rewrite Hbody. unfold bind at 1.
      rewrite (error_message_ok E _ _ _ Hmsg). unfold bind. cbn [ret].
      rewrite (member_ok _ _ _ Hnn). reflexivity. }
  split; [exact Hcall|]. split; [|reflexivity].
  intros n B cm p s0 response old Hexec Hresp Hneeds Hpend Hold extended.
  assert (Hres : Agents._executeToolCallbacks E (VArr [toolCall]) reg s
                 = (Ok [VObj [("tool_call_id", get_prop toolCall "id");
                              ("content", VObj [("error", m)])]], s')).
  { unfold Agents._executeToolCallbacks, bind, elements.
    cbn [resolve iterate Agents.resolve_loop]. unfold bind.
    rewrite Hcall. reflexivity. }
  destruct (quiet__executeToolCallbacks E _ _ _ _ _ Hres) as [Hh _].
  assert (Hold' : heap s' !! cm = Some old) by now rewrite Hh.
  assert (Hne : [toolCall] <> []) by discriminate.
  split.
  - apply (run_loop_step E client n B reg cm p s0 s s' response [toolCall]
             _ old Hexec Hresp Hneeds Hpend Hne Hres Hold').
  - intros r sf Hn Hrun. destruct n as [|n]; [lia|].
    apply (run_loop_step_submits E client n B reg cm p s0 s s' response
             [toolCall] _ old r sf Hexec Hresp Hneeds Hpend Hne Hres Hold'
             Hrun).
Qed.

End Claims.

(** ** The claims at concrete inputs *)

Lemma always_calc_requests_tools :
  server_always_requests_tools Scenario.always_calc.
Proof.
  intros config w. eexists. split; [reflexivity|].
  split; [reflexivity|]. eexists. split; [reflexivity|].
  split; [discriminate | repeat constructor].
Qed.

Lemma scripted_callbacks_report script parse :
  callbacks_report (Scenario.scripted script Scenario.callbacks parse).
Proof.
  intros f args w. cbn. destruct f as [|[|f]]; cbn; eauto.
Qed.

Lemma caller_state_valid (f : nat) (budget : value) :
  passes_validation (Scenario.params_with budget)
  /\ in_store (heap (Scenario.caller_state f))
              (Agents.messages (Scenario.params_with budget))
  /\ tools_well_formed (heap (Scenario.caller_state f))
                       (Scenario.params_with budget).
Proof.
  split; [repeat split|]. split; [eexists; reflexivity|].
  right. eexists. split; [reflexivity | repeat constructor].
Qed.

(** C1 at budget 2 against a server that always asks for [calc] *)
Lemma run_iteration_budget_witness :
  let outcome :=
    Agents.run Scenario.always_calc Scenario.the_client
      (Scenario.params_with (VNum 2)) (Scenario.caller_state 0) in
  (0 < 2)
  /\ (transport_calls (log (snd outcome)) <= 0 + 2)%nat
  /\ fst outcome
     = Throw (new_Error Error
                "Agent tool execution exceeded maximum iterations (2)")
  /\ transport_calls (log (snd outcome)) = 2%nat.
Proof.
  intros outcome.
  destruct (run_iteration_budget Scenario.always_calc Scenario.the_client
              (Scenario.params_with (VNum 2)) (Scenario.caller_state 0) 2
              eq_refl eq_refl) as [Hle Hthrow].
  split; [reflexivity|]. split; [exact Hle|].
  destruct (caller_state_valid 0 (VNum 2)) as (Hv & Hin & Htools).
  apply Hthrow; auto.
  - discriminate.
  - apply always_calc_requests_tools.
  - apply scripted_callbacks_report.
Defined.

(** C1 as stated fails at budget 0: ten calls are made, and the error names
    the limit 10. *)
Lemma zero_budget_makes_ten_calls :
  let outcome :=
    Agents.run Scenario.always_calc Scenario.the_client
      (Scenario.params_with (VNum 0)) (Scenario.caller_state 0) in
  Agents.maxToolIterations (Scenario.params_with (VNum 0)) = VNum 0
  /\ transport_calls (log (snd outcome)) = 10%nat
  /\ ~ (transport_calls (log (snd outcome)) <= 0)%nat
  /\ fst outcome
     = Throw (new_Error Error
                "Agent tool execution exceeded maximum iterations (10)").
Proof.
  vm_compute. repeat split. intros H. inversion H.
Qed.

(** C9 at budget 0 *)
Lemma falsy_budget_defaults_to_ten_witness :
  truthy (Agents.maxToolIterations (Scenario.params_with (VNum 0))) = false
  /\ maxIterations (Scenario.params_with (VNum 0)) = VNum 10
  /\ (1 <= transport_calls
             (log (snd (Agents.run Scenario.calc_then_stop
                          Scenario.the_client
                          (Scenario.params_with (VNum 0))
                          (Scenario.caller_state 0)))))%nat.
Proof.
  destruct (caller_state_valid 0 (VNum 0)) as (Hv & Hin & Htools).
  destruct (falsy_budget_defaults_to_ten Scenario.calc_then_stop
              Scenario.the_client (Scenario.params_with (VNum 0))
              (Scenario.caller_state 0) eq_refl Hv Hin Htools)
    as (HB & _ & Hlo & _).
  split; [reflexivity|]. split; [exact HB | exact Hlo].
Defined.

(** C10 on a run that appends two messages to its copy *)
Lemma run_leaves_caller_messages_witness :
  is_Some (heap (Scenario.caller_state 0) !! 0%nat)
  /\ heap (snd (Agents.run Scenario.calc_then_stop Scenario.the_client
                  (Scenario.params_with (VNum 3))
                  (Scenario.caller_state 0))) !! 0%nat
     = Some [Scenario.user_message].
Proof.
  assert (H : is_Some (heap (Scenario.caller_state 0) !! 0%nat))
    by (eexists; reflexivity).
  split; [exact H|].
  exact (proj1 (run_leaves_caller_messages Scenario.calc_then_stop
                  Scenario.the_client (Scenario.params_with (VNum 3))
                  (Scenario.caller_state 0) 0%nat eq_refl H)).
Defined.

(** C7 with [agentId] left out *)
Lemma validation_precedes_transport_witness :
  let params :=
    Agents.mkParams VUndefined (ArrayRef 0%nat) (ArrayRef 1%nat) VUndefined
                    VUndefined in
  truthy (Agents.agentId params) = false
  /\ exists msg field,
       Agents.run Scenario.stops_at_once Scenario.the_client params
         (Scenario.caller_state 0)
       = (Throw (validation_error Scenario.stops_at_once msg field),
          Scenario.caller_state 0)
       /\ Agents.execute Scenario.stops_at_once Scenario.the_client params
            (Scenario.caller_state 0)
          = (Throw (validation_error Scenario.stops_at_once msg field),
             Scenario.caller_state 0).
Proof.
  intros params. split; [reflexivity|].
  destruct (validation_precedes_transport Scenario.stops_at_once
              Scenario.the_client params (Scenario.caller_state 0)
              (or_introl eq_refl)) as (msg & field & _ & Hrun & Hexec).
  exists msg, field. split; [exact Hrun | exact Hexec].
Defined.

(** C7 as stated fails for an empty [messages] array: validation passes
    and the request is made, by [run] and by [execute]. *)
Lemma empty_messages_reach_transport :
  let params := Scenario.params_with (VNum 3) in
  let s := Scenario.empty_messages_state in
  resolve (heap s) (Agents.messages params) = VArr []
  /\ fst (Agents.run Scenario.stops_at_once Scenario.the_client params s)
     = Ok (Scenario.stop_body "hello")
  /\ transport_calls
       (log (snd (Agents.run Scenario.stops_at_once Scenario.the_client
                    params s))) = 1%nat
  /\ fst (Agents.execute Scenario.stops_at_once Scenario.the_client params s)
     = Ok (Scenario.stop_body "hello")
  /\ transport_calls
       (log (snd (Agents.execute Scenario.stops_at_once Scenario.the_client
                    params s))) = 1%nat.
Proof. vm_compute. repeat split. Qed.

(** C8 against a server that refuses the credentials, and against one that
    is down: one attempt and no delay in the first case; four attempts,
    delays of 1, 2 and 4 seconds and the network error in the second. *)
Lemma request_retry_policy_witness :
  let config := Transport.make_config (VStr "/agents") (VObj []) in
  Transport.retry_loop Scenario.unauthorized Scenario.the_client config
    4 0 (Raw VUndefined) (Scenario.caller_state 0)
  = (Throw (Exn (mkError AuthenticationError (VStr "bad key") None None
                   VUndefined)),
     mkState (heap (Scenario.caller_state 0)) 1%nat [EvHttp config])
  /\ exists s',
      Transport.request Scenario.always_down Scenario.the_client
        (VStr "/agents") (VObj []) (Scenario.caller_state 0)
      = (Throw (new_Error AgentlifyError
                  "Network error: No response received"), s')
      /\ http_attempts (log s') = 4%nat
      /\ sleeps (log s') = [1000; 2000; 4000].
Proof.
  intros config. split.
  - refine (proj1 (request_retry_policy Scenario.unauthorized
                     Scenario.the_client (VStr "/agents") [])
              3%nat 0 (Raw VUndefined) (Scenario.caller_state 0)
              _ _ _ eq_refl eq_refl _).
    left. reflexivity.
  - destruct (proj1 (proj2 (request_retry_policy Scenario.always_down
                              Scenario.the_client (VStr "/agents") [])))
      with (s := Scenario.caller_state 0)
      as (e & s' & Hrun & Hlast & Hattempts & Hsleeps).
    + discriminate.
    + intros w. eexists. split; [reflexivity | exact I].
    + injection Hlast as <-. exists s'.
      split; [exact Hrun|]. split; [exact Hattempts | exact Hsleeps].
Defined.

(** C2 for a call to a tool nobody registered *)
Lemma missing_callback_gives_error_result_witness :
  let toolCall := Scenario.tool_call "call_9" "lookup" "{}" in
  Agents.Map_get (name_of toolCall) (Scenario.calc_registry 0) = VUndefined
  /\ Agents._executeToolCallbacks Scenario.always_calc (VArr [toolCall])
       (Scenario.calc_registry 0) (Scenario.caller_state 0)
     = (Ok [VObj [("tool_call_id", VStr "call_9");
                  ("content",
                   VObj [("error",
                          VStr "No callback registered for tool: lookup")])]],
        Scenario.caller_state 0).
Proof.
  intros toolCall. split; [reflexivity|].
  apply (missing_callback_gives_error_result Scenario.always_calc
           [toolCall] (Scenario.calc_registry 0) (Scenario.caller_state 0)).
  repeat constructor.
Defined.

(** C4 on the caller's one-element tool list *)
Lemma extract_strips_callbacks_in_order_witness :
  resolve (heap (Scenario.caller_state 0)) (ArrayRef 1%nat)
  = VArr [Scenario.calc_tool 0]
  /\ exists reg cleaned s',
      Agents._extractToolCallbacks Scenario.always_calc (ArrayRef 1%nat)
        (Scenario.caller_state 0)
      = (Ok (2%nat, reg), s')
      /\ heap s' = heap (Scenario.caller_state 0) ++ [cleaned]
      /\ List.length cleaned = 1%nat
      /\ resolve (heap s') (ArrayRef 1%nat) = VArr [Scenario.calc_tool 0].
Proof.
  split; [reflexivity|].
  destruct (extract_strips_callbacks_in_order Scenario.always_calc
              (ArrayRef 1%nat) [Scenario.calc_tool 0]
              (Scenario.caller_state 0) eq_refl)
    as (reg & cleaned & s' & Hrun & Hheap & Hlen & _ & _ & Hsame).
  - repeat constructor.
  - exists reg, cleaned, s'. repeat split; assumption.
Defined.

(** C3 for a callback that throws [Error("boom")]: the result carries
    [{error: "boom"}], and the next request carries the tool message whose
    content is the text [{"error":"boom"}]. *)
Lemma callback_failure_becomes_error_content_witness :
  let E := Scenario.calc_then_stop in
  let toolCall := Scenario.tool_call "call_1" "calc" "{}" in
  let s0 := Scenario.loop_state 1 in
  let s := snd (Agents._executeAgent E Scenario.the_client
                  Scenario.first_payload s0) in
  let s' := mkState (heap s) (world s) (log s ++ [EvCall 1 (VObj [])]) in
  let final := Agents.run_loop E Scenario.the_client 2 (VNum 10)
                 (Scenario.calc_registry 1) 3%nat Scenario.first_payload s0 in
  fails_with E toolCall 1 s (VStr "boom") s'
  /\ Agents.resolve_call E toolCall (Scenario.calc_registry 1) s
     = (Ok (VObj [("tool_call_id", VStr "call_1");
                  ("content", VObj [("error", VStr "boom")])]), s')
  /\ exists l data,
       log (snd final) = log s' ++ EvTransport (VStr "/agents") data :: l
       /\ get_prop data "messages"
          = VArr [Scenario.user_message;
                  VObj [("role", VStr "assistant");
                        ("content", VNull);
                        ("tool_calls", VArr [toolCall])];
                  VObj [("role", VStr "tool");
                        ("tool_call_id", VStr "call_1");
                        ("content", VStr Scenario.boom_text)]].
Proof.
  intros E toolCall s0 s s' final.
  assert (Hfail : fails_with E toolCall 1 s (VStr "boom") s').
  { apply callback_fails
      with (args := VObj []) (t := new_Error Error "boom") (w := world s);
      reflexivity. }
  split; [exact Hfail|].
  destruct (callback_failure_becomes_error_content E Scenario.the_client
              toolCall (Scenario.calc_registry 1) 1%nat s s' (VStr "boom")
              eq_refl eq_refl Hfail) as (Hcall & Hloop & _).
  split; [exact Hcall|].
  assert (Hexec : Agents._executeAgent E Scenario.the_client
                    Scenario.first_payload s0
                  = (Ok (Scenario.tool_body [toolCall]), s))
    by (vm_compute; reflexivity).
  destruct (Hloop 1%nat (VNum 10) 3%nat Scenario.first_payload s0
              (Scenario.tool_body [toolCall]) [Scenario.user_message]
              Hexec eq_refl eq_refl eq_refl eq_refl) as [_ Hnext].
  exact (Hnext (fst final) (snd final) (le_n 1) (surjective_pairing final)).
Defined.

(** ** Further properties of the transport *)

Section TransportMore.

Variable E : Env.
Variable this : Transport.Agentlify.

Lemma backoff_delays_S (k : nat) :
  backoff_delays (S k)
  = backoff_delays k ++ [Z.min (1000 * 2 ^ Z.of_nat k) 10000].
Proof. unfold backoff_delays. now rewrite seq_S, map_app. Qed.

Lemma delay_bounds (attempt : Z) :
  0 <= attempt -> 1000 <= Transport.delay attempt <= 10000.
Proof.
  intros H. unfold Transport.delay.
  assert (2 ^ 0 <= 2 ^ attempt) by (apply Z.pow_le_mono_r; lia).
  change (2 ^ 0) with 1 in *. lia.
Qed.

Lemma delay_monotone (a b : Z) :
  0 <= a <= b -> Transport.delay a <= Transport.delay b.
Proof.
  intros H. unfold Transport.delay.
  assert (2 ^ a <= 2 ^ b) by (apply Z.pow_le_mono_r; lia).
  lia.
Qed.

(** The accounting of one run of the retry loop: [k] attempts were made,
    and a delay was slept after each of them but the last. *)
Lemma retry_loop_accounting (config : value) :
  forall (remaining : nat) (attempt : Z) (lastError : thrown)
         (s : state (World E)) r s',
    attempt + Z.of_nat remaining = Transport.maxRetries this + 1 ->
    Transport.retry_loop E this config remaining attempt lastError s
    = (r, s') ->
    exists k : nat,
      (k <= remaining)%nat
      /\ (1 <= remaining -> 1 <= k)%nat
      /\ http_attempts (log s') = (http_attempts (log s) + k)%nat
      /\ sleeps (log s')
         = sleeps (log s)
           ++ map (fun i => Transport.delay (attempt + Z.of_nat i))
                  (seq 0 (k - 1)).
Proof.
  induction remaining as [|n IH]; intros attempt lastError s r s' Hinv H.
  - inversion H; subst. exists 0%nat. cbn. rewrite app_nil_r.
    repeat split; lia.
  - rewrite retry_loop_S in H. unfold try_catch in H.
    destruct (bind (Transport.httpClient E config)
                (fun response => member response "data") s)
      as [[v|t] s1] eqn:Htry.
    + inversion H; subst; clear H.
      assert (Hlog : log s' = log s ++ [EvHttp config]).
      { apply bind_inv in Htry as [(t & Ht & [=])|(a & s2 & H1 & H2)].
        apply member_inv in H2 as [-> _].
        unfold Transport.httpClient in H1.
        destruct (http E config (world s)) as [o w].
        destruct o; inversion H1; reflexivity. }
      exists 1%nat. rewrite Hlog, http_attempts_app, sleeps_app. cbn.
      rewrite app_nil_r. repeat split; lia.
    + assert (Hlog : log s1 = log s ++ [EvHttp config]).
      { apply bind_inv in Htry as [(t' & Ht & _)|(a & s2 & H1 & H2)].
        - unfold Transport.httpClient in Ht.
          destruct (http E config (world s)) as [o w].
          destruct o; inversion Ht; reflexivity.
        - apply member_inv in H2 as [-> _].
          unfold Transport.httpClient in H1.
          destruct (http E config (world s)) as [o w].
          destruct o; inversion H1; reflexivity. }
      assert (Hone : http_attempts (log s1) = (http_attempts (log s) + 1)%nat
                     /\ sleeps (log s1) = sleeps (log s)).
      { rewrite Hlog, http_attempts_app, sleeps_app. cbn.
        now rewrite app_nil_r. }
      destruct Hone as [Ha1 Hs1].
      destruct (Transport.no_retry t).
      { inversion H; subst. exists 1%nat. rewrite Ha1, Hs1. cbn.
        rewrite app_nil_r. repeat split; lia. }
      destruct (attempt =? Transport.maxRetries this) eqn:Hlast.
      { inversion H; subst. exists 1%nat. rewrite Ha1, Hs1. cbn.
        rewrite app_nil_r. repeat split; lia. }
      unfold bind at 1, Transport.sleep, emit in H.
      apply IH in H as (k & Hk & Hk1 & Ha & Hs); [|lia].
      cbn [log] in Ha, Hs.
      assert (Hn : (1 <= n)%nat) by lia. specialize (Hk1 Hn).
      exists (S k). rewrite Ha, Hs, http_attempts_app, sleeps_app, Ha1, Hs1.
      cbn [http_attempts sleeps List.filter is_http List.length app].
      replace (S k - 1)%nat with (S (k - 1)) by lia.
      cbn [seq map]. rewrite seq_shift_delays, Z.add_0_r, <- app_assoc.
      cbn [app]. repeat split; try lia.
Qed.

Lemma backoff_delays_bounded (k : nat) :
  Forall (fun d => 1000 <= d <= 10000) (backoff_delays k).
Proof.
  unfold backoff_delays. apply List.Forall_forall. intros d Hd.
  apply in_map_iff in Hd as (i & <- & _).
  apply (delay_bounds (Z.of_nat i)). lia.
Qed.

Lemma retry_loop_recovers (config : value) (response : value) :
  nullish response = false ->
  forall (k remaining : nat) (attempt : Z) (lastError : thrown)
         (s : state (World E)),
    attempt + Z.of_nat remaining = Transport.maxRetries this ->
    (k <= remaining)%nat ->
    (forall i, (i < k)%nat ->
       exists ax,
         fst (http E config (world_after E config i (world s))) = HttpFail ax
         /\ server_or_network_failure ax) ->
    fst (http E config (world_after E config k (world s))) = HttpOk response ->
    exists s',
      Transport.retry_loop E this config (S remaining) attempt lastError s
      = (Ok (get_prop response "data"), s')
      /\ heap s' = heap s
      /\ world s' = world_after E config (S k) (world s)
      /\ http_attempts (log s') = (http_attempts (log s) + k + 1)%nat
      /\ sleeps (log s')
         = sleeps (log s)
           ++ map (fun i => Transport.delay (attempt + Z.of_nat i)) (seq 0 k).
Proof.
  intros Hresp. induction k as [|k IH];
    intros remaining attempt lastError s Hinv Hk Hfail Hok.
  - cbn [world_after] in Hok.
    destruct (http E config (world s)) as [o w] eqn:Hhttp. cbn in Hok. subst o.
    rewrite retry_loop_S. unfold try_catch, bind, Transport.httpClient.
    rewrite Hhttp. rewrite (member_ok _ _ _ Hresp).
    eexists. split; [reflexivity|]. cbn [heap world log world_after].
    rewrite Hhttp, http_attempts_app, sleeps_app. cbn.
    rewrite app_nil_r. repeat split; lia.
  - destruct (Hfail 0%nat ltac:(lia)) as (ax & Ho & Hax).
    cbn [world_after] in Ho.
    destruct (http E config (world s)) as [o w] eqn:Hhttp. cbn in Ho. subst o.
    destruct remaining as [|n]; [lia|].
    rewrite retry_loop_S. unfold try_catch at 1, bind at 1.
    unfold Transport.httpClient at 1. rewrite Hhttp.
    rewrite (server_or_network_retried _ _ Hax).
    assert (Hlast : (attempt =? Transport.maxRetries this) = false) by lia.
    rewrite Hlast. unfold bind at 1, Transport.sleep, emit.
    cbn [heap world log].
    match goal with |- context [Transport.retry_loop E this config (S n) ?a ?l ?s1] =>
      destruct (IH n a l s1) as (s' & Hrun & Hh & Hw & Ha & Hs) end.
    + lia.
    + lia.
    + intros i Hi. cbn [world].
      destruct (Hfail (S i) ltac:(lia)) as (ax' & Ho' & Hax').
      cbn [world_after] in Ho'. rewrite Hhttp in Ho'. eauto.
    + cbn [world]. cbn [world_after] in Hok. rewrite Hhttp in Hok. exact Hok.
    + exists s'. split; [exact Hrun|]. cbn [heap world log] in *.
      split; [exact Hh|]. split.
      { rewrite Hw. cbn [world_after]. now rewrite Hhttp. }
      rewrite Ha, Hs, !http_attempts_app, !sleeps_app. cbn [seq map].
      rewrite seq_shift_delays. cbn.
      rewrite Z.add_0_r, <- !app_assoc. cbn [app].
      split; [lia | reflexivity].
Qed.

(** *** Object spread in [make_config] *)

Lemma assoc_obj_set (k k' : string) (v : value) (ps : list (string * value)) :
  assoc k (obj_set k' v ps) = if String.eqb k' k then Some v else assoc k ps.
Proof.
  induction ps as [|[k0 v0] ps IH]; cbn.
  - reflexivity.
  - destruct (String.eqb k0 k') eqn:E0; cbn.
    + apply String.eqb_eq in E0. subst k0.
      now destruct (String.eqb k' k).
    + destruct (String.eqb k0 k) eqn:E1.
      * apply String.eqb_eq in E1. subst k0.
        destruct (String.eqb k' k) eqn:E2; [|reflexivity].
        apply String.eqb_eq in E2. subst k'.
        rewrite String.eqb_refl in E0. discriminate.
      * exact IH.
Qed.

Lemma assoc_not_in (k : string) (ps : list (string * value)) :
  ~ elem_of k (map fst ps) -> assoc k ps = None.
Proof.
  induction ps as [|[k0 v0] ps IH]; cbn; [reflexivity|].
  intros H. apply not_elem_of_cons in H as [Hne H].
  destruct (String.eqb k0 k) eqn:E0.
  - apply String.eqb_eq in E0. congruence.
  - apply IH, H.
Qed.

Lemma assoc_obj_spread (k : string) (b : list (string * value)) :
  NoDup (map fst b) ->
  forall a,
    assoc k (obj_spread a b)
    = match assoc k b with
      | Some v => Some v
      | None => assoc k a
      end.
Proof.
  unfold obj_spread. induction b as [|[k0 v0] b IH]; intros Hnd a; cbn.
  - reflexivity.
  - inversion Hnd as [|? ? Hnotin Hnd']; subst.
    rewrite (IH Hnd'), assoc_obj_set.
    destruct (String.eqb k0 k) eqn:E0; [|reflexivity].
    apply String.eqb_eq in E0. subst k0.
    now rewrite (assoc_not_in _ _ Hnotin).
Qed.

End TransportMore.

Section TransportExtras.

Variable E : Env.
Variable this : Transport.Agentlify.

(** X1. Whatever the server does, [request] is one transport call that
    makes at most [maxRetries + 1] HTTP attempts, and at least one exactly
    when [options] is not [null] (reading [options.method] is a
    [TypeError] then) and [maxRetries] is not negative; having made [k]
    attempts it has slept exactly the first [k - 1] backoff delays (none
    after the last attempt), each between 1000 and 10000 milliseconds. *)
Theorem request_attempts_and_delays (endpoint options : value)
    (s : state (World E)) :
  let final := snd (Transport.request E this endpoint options s) in
  exists k : nat,
    (k <= Z.to_nat (Transport.maxRetries this + 1))%nat
    /\ ((1 <= k)%nat <-> options <> VNull /\ 0 <= Transport.maxRetries this)
    /\ http_attempts (log final) = (http_attempts (log s) + k)%nat
    /\ sleeps (log final) = sleeps (log s) ++ backoff_delays (k - 1)
    /\ Forall (fun d => 1000 <= d <= 10000) (backoff_delays (k - 1))
    /\ transport_calls (log final) = S (transport_calls (log s)).
Proof.
  intros final. subst final.
  destruct (Transport.request E this endpoint options s) as [r s'] eqn:Hreq.
  cbn [snd].
  pose proof (request_step E _ _ _ _ _ _ Hreq) as [_ Hcount].
  unfold Transport.request in Hreq.
  apply bind_inv in Hreq as [(t & H & _)|([] & s1 & H1 & H)]; [inversion H|].
  inversion H1; subst s1; clear H1.
  apply bind_inv in H as [(t & H & _)|(m & s2 & H2 & H)].
  - assert (Hnull : options = VNull).
    { unfold member in H. destruct options; try discriminate H. reflexivity. }
    apply member_inv in H as [-> _]. exists 0%nat. cbn [log].
    rewrite http_attempts_app, sleeps_app. cbn. rewrite !app_nil_r.
    split; [lia|]. split; [split; [lia | intros [Ho _]; congruence]|].
    repeat split; try lia; try exact Hcount. constructor.
  - assert (Hobj : options <> VNull).
    { intros ->. unfold member in H2. discriminate H2. }
    apply member_inv in H2 as [-> _].
    destruct (Z.to_nat (Transport.maxRetries this + 1)) as [|n] eqn:Hn.
    + inversion H; subst. exists 0%nat. cbn [log].
      rewrite http_attempts_app, sleeps_app. cbn. rewrite !app_nil_r.
      split; [lia|]. split; [split; [lia | intros [_ Hr]; lia]|].
      repeat split; try lia; try exact Hcount. constructor.
    + apply retry_loop_accounting in H as (k & Hk & Hk1 & Ha & Hs); [|lia].
      cbn [log] in Ha, Hs. exists k.
      rewrite Ha, Hs, http_attempts_app, sleeps_app. cbn.
      rewrite !app_nil_r.
      split; [lia|]. split; [split; [intros _; split; [exact Hobj | lia] | intros _; apply Hk1; lia]|].
      repeat split; try lia; try exact Hcount.
      apply backoff_delays_bounded.
Qed.

(** X2. If the first [k] attempts ([k <= maxRetries]) fail with server or
    network failures and the next one is answered, [request] returns the
    [data] of that answer after [k + 1] attempts and the first [k] backoff
    delays. *)
Theorem request_recovers_after_failures (endpoint : value)
    (opts : list (string * value)) (s : state (World E)) (k : nat)
    (response : value) :
  let config := Transport.make_config endpoint (VObj opts) in
  Z.of_nat k <= Transport.maxRetries this ->
  (forall i, (i < k)%nat ->
     exists ax,
       fst (http E config (world_after E config i (world s))) = HttpFail ax
       /\ server_or_network_failure ax) ->
  fst (http E config (world_after E config k (world s))) = HttpOk response ->
  nullish response = false ->
  exists s',
    Transport.request E this endpoint (VObj opts) s
    = (Ok (get_prop response "data"), s')
    /\ http_attempts (log s') = (http_attempts (log s) + k + 1)%nat
    /\ sleeps (log s') = sleeps (log s) ++ backoff_delays k
    /\ world s' = world_after E config (S k) (world s).
Proof.
  intros config Hk Hfail Hok Hresp. unfold Transport.request.
  unfold bind at 1, emit at 1. unfold bind at 1, member at 1.
  cbn [nullish ret heap world log]. fold config.
  replace (Z.to_nat (Transport.maxRetries this + 1))
    with (S (Z.to_nat (Transport.maxRetries this))) by lia.
  destruct (retry_loop_recovers E this config response Hresp k
              (Z.to_nat (Transport.maxRetries this)) 0 (Raw VUndefined)
              (mkState (heap s) (world s)
                 (log s ++ [EvTransport endpoint
                              (opt_member (VObj opts) "data")])))
    as (s' & Hrun & _ & Hw & Ha & Hs); auto; try lia.
  exists s'. split; [exact Hrun|]. cbn [heap world log] in *.
  rewrite Ha, Hs, http_attempts_app, sleeps_app. cbn.
  rewrite app_nil_r. repeat split; auto; lia.
Qed.

(** X3. In the configuration that [request] hands to the HTTP client, every
    own property of [options] wins over the computed entry, [url]
    included; what [options] leaves out is [url = endpoint],
    [method = 'POST'] and [undefined] for the rest.  So an explicit falsy
    [method] is kept, not replaced by [POST]. *)
Theorem make_config_options_win (endpoint : value)
    (opts : list (string * value)) (k : string) :
  NoDup (map fst opts) ->
  get_prop (Transport.make_config endpoint (VObj opts)) k
  = match assoc k opts with
    | Some v => v
    | None =>
        if String.eqb k "url" then endpoint
        else if String.eqb k "method" then VStr "POST"
        else VUndefined
    end.
Proof.
  intros Hnd. unfold Transport.make_config. cbn [get_prop own_props].
  rewrite (assoc_obj_spread k opts Hnd).
  destruct (assoc k opts) as [v|] eqn:Hk; [reflexivity|].
  cbn [assoc].
  rewrite (String.eqb_sym "url" k), (String.eqb_sym "method" k),
    (String.eqb_sym "data" k), (String.eqb_sym "params" k),
    (String.eqb_sym "headers" k).
  destruct (String.eqb k "url") eqn:E1; [reflexivity|].
  destruct (String.eqb k "method") eqn:E2.
  { apply String.eqb_eq in E2. subst k. now rewrite Hk. }
  destruct (String.eqb k "data") eqn:E3.
  { apply String.eqb_eq in E3. subst k. now rewrite Hk. }
  destruct (String.eqb k "params") eqn:E4.
  { apply String.eqb_eq in E4. subst k. now rewrite Hk. }
  destruct (String.eqb k "headers") eqn:E5.
  { apply String.eqb_eq in E5. subst k. now rewrite Hk. }
  reflexivity.
Qed.

End TransportExtras.

(** ** Further properties of the client *)

(** Index keys are numerals: a name that does not start with a digit is not
    an element of an array. *)
Lemma dec_starts_with_digit (i : nat) :
  exists c rest,
    digits (Z.of_nat i) = String c rest
    /\ (48 <=? nat_of_ascii c)%nat && (nat_of_ascii c <=? 57)%nat = true.
Proof.
  unfold digits. destruct (Z.of_nat i) as [|q|q] eqn:Hi; [| |lia].
  - eexists _, _. split; reflexivity.
  - cbn. destruct (Pos.to_uint q); cbn; eexists _, _; split; reflexivity.
Qed.

Lemma assoc_indexed_name (c : ascii) (rest : string) (xs : list value) :
  (48 <=? nat_of_ascii c)%nat && (nat_of_ascii c <=? 57)%nat = false ->
  forall i, assoc (String c rest) (indexed i xs) = None.
Proof.
  intros Hc. induction xs as [|x xs IH]; intros i; cbn; [reflexivity|].
  destruct (dec_starts_with_digit i) as (c' & rest' & -> & Hd).
  destruct (String.eqb (String c' rest') (String c rest)) eqn:E0.
  - apply String.eqb_eq in E0. injection E0 as -> _. congruence.
  - apply IH.
Qed.

Section ClientExtras.

Variable E : Env.
Variable this : Transport.Agentlify.

(** X4. When the server answers [/getModels] at the first attempt with the
    OpenAI list wrapper [{object: 'list', data: [...]}] or with the bare
    array, [getModels] returns the array of models either way, after one
    transport call. *)
Theorem getModels_returns_the_models (s : state (World E))
    (response : value) (xs : list value) :
  0 <= Transport.maxRetries this ->
  (forall config, fst (http E config (world s)) = HttpOk response) ->
  lists_models (get_prop response "data") xs ->
  fst (Client.getModels E this s) = Ok (VArr xs)
  /\ transport_calls (log (snd (Client.getModels E this s)))
     = S (transport_calls (log s)).
Proof.
  intros Hr Hsrv Hbody.
  set (opts := [("method", VStr "GET")]).
  destruct (http E (Transport.make_config (VStr "/getModels") (VObj opts))
                 (world s)) as [o w] eqn:Hhttp.
  pose proof (Hsrv (Transport.make_config (VStr "/getModels") (VObj opts)))
    as Ho.
  rewrite Hhttp in Ho. cbn in Ho. subst o.
  assert (Hresp : nullish response = false).
  { apply (get_prop_not_nullish _ "data").
    destruct Hbody as [->|[[ps ->] _]]; reflexivity. }
  pose proof (request_answered E this (VStr "/getModels") opts s
                response w Hr Hhttp Hresp) as Hreq.
  unfold Client.getModels. fold opts. unfold bind. rewrite Hreq.
  set (body := get_prop response "data") in *.
  assert (Hsel : (if truthy body
                     && strict_eq_str (get_prop body "object") "list"
                     && isArray (get_prop body "data")
                  then get_prop body "data" else body) = VArr xs).
  { destruct Hbody as [Harr|([ps Hps] & Hobj & Hdata)].
    - rewrite Harr. cbn [get_prop String.eqb Ascii.eqb Bool.eqb].
      rewrite (assoc_indexed_name "o" "bject"); reflexivity.
    - rewrite Hobj, Hdata, Hps. reflexivity. }
  destruct (truthy body && strict_eq_str (get_prop body "object") "list"
            && isArray (get_prop body "data"));
    cbn [ret fst snd log]; rewrite Hsel;
    (split; [reflexivity|]); rewrite transport_calls_app; cbn; lia.
Qed.

End ClientExtras.

Section ConstructorExtras.

Variable E : Env.
Variable validateConfig : value -> value + thrown.

Lemma constructor_inv (config : value) (s : state (World E)) this s' :
  Client.constructor E validateConfig config s = (Ok this, s') ->
  exists validated starts s1,
    validateConfig match config with VUndefined => VObj [] | _ => config end
    = inl validated
    /\ nullish validated = false
    /\ this = Client.mkFields (get_prop validated "apiKey")
               (or_else (get_prop validated "baseURL")
                        (VStr "https://modelpilot.co/api"))
               (get_prop validated "routerId")
               (or_else (get_prop validated "timeout") (VNum 30000))
               (or_else (get_prop validated "defaultHeaders") (VObj []))
               (or_else (get_prop validated "maxRetries") (VNum 3))
    /\ Client.startsWith_mp E (get_prop validated "apiKey") s1 = (Ok starts, s')
    /\ truthy starts = true
    /\ truthy (get_prop validated "routerId") = true.
Proof.
  unfold Client.constructor. intros H.
  destruct (validateConfig _) as [validated|t] eqn:Hv; [|inversion H].
  apply bind_inv in H as [(t & _ & [=])|(key & s1 & H1 & H)].
  assert (Hnn : nullish validated = false).
  { unfold member in H1. destruct (nullish validated); [inversion H1 | auto]. }
  rewrite (member_ok _ _ _ Hnn) in H1. inversion H1; subst key s1; clear H1.
  apply bind_inv in H as [(t & _ & [=])|(starts & s2 & H2 & H)].
  cbn [Client.routerId] in H.
  destruct (truthy starts) eqn:Hs; cbn [negb] in H; [|inversion H].
  destruct (truthy (get_prop validated "routerId")) eqn:Hrid; cbn [negb] in H;
    [|inversion H].
  inversion H; subst. exists validated, starts, s. auto 10.
Qed.

Lemma or_else_truthy (a b : value) : truthy b = true -> truthy (or_else a b) = true.
Proof. unfold or_else. now destruct (truthy a) eqn:Ha. Qed.

(** X5. Every client the constructor returns has an [apiKey] that, when
    it is a string, starts with [mp_], a truthy [routerId], and truthy
    [baseURL], [timeout], [defaultHeaders] and [maxRetries]: a validated
    value that is falsy was replaced by the default
    ([https://modelpilot.co/api], 30000, [{}], 3). *)
Theorem constructor_establishes_fields (config : value)
    (s : state (World E)) this s' :
  Client.constructor E validateConfig config s = (Ok this, s') ->
  (forall key, Client.apiKey this = VStr key -> String.prefix "mp_" key = true)
  /\ truthy (Client.routerId this) = true
  /\ truthy (Client.baseURL this) = true
  /\ truthy (Client.timeout this) = true
  /\ truthy (Client.defaultHeaders this) = true
  /\ truthy (Client.maxRetries this) = true
  /\ (forall validated,
        validateConfig
          match config with VUndefined => VObj [] | _ => config end
        = inl validated ->
        (truthy (get_prop validated "maxRetries") = false ->
         Client.maxRetries this = VNum 3)
        /\ (truthy (get_prop validated "timeout") = false ->
            Client.timeout this = VNum 30000)
        /\ (truthy (get_prop validated "baseURL") = false ->
            Client.baseURL this = VStr "https://modelpilot.co/api")
        /\ (truthy (get_prop validated "defaultHeaders") = false ->
            Client.defaultHeaders this = VObj [])).
Proof.
  intros H.
  apply constructor_inv in H
    as (validated & starts & s1 & Hv & Hnn & -> & Hst & Hs & Hrid).
  cbn [Client.apiKey Client.routerId Client.baseURL Client.timeout
       Client.defaultHeaders Client.maxRetries].
  split.
  { intros key Hkey. rewrite Hkey in Hst. cbn in Hst.
    inversion Hst; subst. exact Hs. }
  split; [exact Hrid|].
  repeat (split; [apply or_else_truthy; reflexivity|]).
  intros validated' Hv'. rewrite Hv in Hv'. injection Hv' as <-.
  unfold or_else. repeat split; intros ->; reflexivity.
Qed.

(** X6. The constructor rejects in this order: what [validateConfig]
    throws is thrown; then a string [apiKey] that does not start with
    [mp_] gives the key-format error, even when [routerId] is missing
    too; then a falsy [routerId] gives the router-id error.  In each case
    no client is returned and the state is untouched. *)
Theorem constructor_rejections (config : value) (s : state (World E)) :
  let given := match config with VUndefined => VObj [] | _ => config end in
  (forall t, validateConfig given = inr t ->
             Client.constructor E validateConfig config s = (Throw t, s))
  /\ (forall validated key,
        validateConfig given = inl validated ->
        get_prop validated "apiKey" = VStr key ->
        String.prefix "mp_" key = false ->
        Client.constructor E validateConfig config s
        = (Throw Client.key_format_error, s))
  /\ (forall validated key,
        validateConfig given = inl validated ->
        get_prop validated "apiKey" = VStr key ->
        String.prefix "mp_" key = true ->
        truthy (get_prop validated "routerId") = false ->
        Client.constructor E validateConfig config s
        = (Throw Client.router_id_error, s)).
Proof.
  intros given. unfold Client.constructor. fold given.
  split; [|split].
  - intros t ->. reflexivity.
  - intros validated key -> Hkey Hp.
    assert (Hnn : nullish validated = false)
      by (apply (get_prop_not_nullish _ "apiKey"); now rewrite Hkey).
    unfold bind. rewrite (member_ok _ _ _ Hnn), Hkey. cbn. rewrite Hp.
    reflexivity.
  - intros validated key -> Hkey Hp Hrid.
    assert (Hnn : nullish validated = false)
      by (apply (get_prop_not_nullish _ "apiKey"); now rewrite Hkey).
    unfold bind. rewrite (member_ok _ _ _ Hnn), Hkey. cbn. rewrite Hp.
    cbn. rewrite Hrid. reflexivity.
Qed.

(** X7. Retries cannot be switched off with [maxRetries: 0]: the
    constructor replaces the falsy value by 3, and a client with that
    setting makes four attempts, with delays of 1, 2 and 4 seconds, against
    a server that keeps failing. *)
Theorem zero_maxRetries_still_retries (config validated : value)
    (s : state (World E)) this s' (endpoint : value)
    (opts : list (string * value)) (s0 : state (World E)) :
  validateConfig match config with VUndefined => VObj [] | _ => config end
  = inl validated ->
  get_prop validated "maxRetries" = VNum 0 ->
  Client.constructor E validateConfig config s = (Ok this, s') ->
  (forall w, exists ax,
      fst (http E (Transport.make_config endpoint (VObj opts)) w) = HttpFail ax
      /\ server_or_network_failure ax) ->
  let client := Transport.mkAgentlify 3 in
  Client.maxRetries this = VNum (Transport.maxRetries client)
  /\ exists e s1,
      Transport.request E client endpoint (VObj opts) s0 = (Throw e, s1)
      /\ http_attempts (log s1) = (http_attempts (log s0) + 4)%nat
      /\ sleeps (log s1) = sleeps (log s0) ++ [1000; 2000; 4000].
Proof.
  intros Hv Hzero Hctor Hfail client.
  apply constructor_inv in Hctor
    as (validated' & starts & s1 & Hv' & _ & -> & _).
  rewrite Hv in Hv'. injection Hv' as <-.
  split; [cbn; now rewrite Hzero|].
  unfold Transport.request.
  unfold bind at 1, emit at 1. unfold bind at 1, member at 1.
  cbn [nullish ret heap world log].
  destruct (retry_loop_gives_up E client _ Hfail 3%nat 0 (Raw VUndefined)
              (mkState (heap s0) (world s0)
                 (log s0 ++ [EvTransport endpoint
                               (opt_member (VObj opts) "data")])))
    as (e & s2 & Hrun & _ & _ & _ & Ha & Hs); [reflexivity|].
  exists e, s2. split; [exact Hrun|]. cbn [log] in Ha, Hs.
  rewrite Ha, Hs, http_attempts_app, sleeps_app. cbn.
  rewrite app_nil_r. split; [lia | reflexivity].
Qed.

End ConstructorExtras.

(** ** Further properties of the callback registry *)

Lemma same_value_zero_eq (a b : value) :
  Agents.same_value_zero a b = true -> a = b.
Proof.
  destruct a, b; cbn; try discriminate; intros H; try reflexivity.
  - f_equal. now apply Bool.eqb_prop.
  - f_equal. lia.
  - f_equal. now apply String.eqb_eq.
  - f_equal. now apply Nat.eqb_eq.
Qed.

Lemma Map_get_set (q k v : value) (m : Agents.registry) :
  Agents.Map_get q (Agents.Map_set k v m)
  = if Agents.same_value_zero k q then v else Agents.Map_get q m.
Proof.
  induction m as [|[k' v'] m IH]; cbn.
  - reflexivity.
  - destruct (Agents.same_value_zero k' k) eqn:E0; cbn.
    + apply same_value_zero_eq in E0. subst k'.
      now destruct (Agents.same_value_zero k q).
    + destruct (Agents.same_value_zero k' q) eqn:E1; [|exact IH].
      destruct (Agents.same_value_zero k q) eqn:E2; [|reflexivity].
      pose proof E2 as E3. apply same_value_zero_eq in E1, E2. subst.
      congruence.
Qed.

(** Looking a string name up after one more tool was registered *)
Lemma Map_get_register (name : string) (u : value) (reg : Agents.registry) :
  name <> ""%string ->
  Agents.Map_get (VStr name) (Agents.register u reg)
  = match get_prop u "callback", name_of u with
    | VFun f, VStr n =>
        if String.eqb n name then VFun f else Agents.Map_get (VStr name) reg
    | _, _ => Agents.Map_get (VStr name) reg
    end.
Proof.
  intros Hname. unfold Agents.register. fold (name_of u).
  destruct (get_prop u "callback") as [| |b|z|c|f| |] eqn:Hcb;
    cbn [truthy typeof andb]; try reflexivity.
  - destruct b; reflexivity.
  - destruct (negb (z =? 0)); reflexivity.
  - destruct (negb (String.eqb c "")); reflexivity.
  - cbn. destruct (truthy (name_of u)) eqn:Ht.
    + rewrite Map_get_set.
      destruct (name_of u) as [| | | |n| | |]; reflexivity.
    + destruct (name_of u) as [| | | |n| | |]; try reflexivity.
      cbn in Ht. destruct (String.eqb n "") eqn:En; [|discriminate].
      apply String.eqb_eq in En. subst n.
      destruct (String.eqb "" name) eqn:E1; [|reflexivity].
      apply String.eqb_eq in E1. congruence.
Qed.

Lemma registry_of_app (pre post : list value) :
  registry_of (pre ++ post)
  = fold_left (fun r t => Agents.register t r) post (registry_of pre).
Proof. unfold registry_of. apply fold_left_app. Qed.

Lemma Map_get_unregistered (name : string) (post : list value) :
  name <> ""%string ->
  Forall (fun u => forall g, ~ tool_registers u name g) post ->
  forall reg,
    Agents.Map_get (VStr name)
      (fold_left (fun r t => Agents.register t r) post reg)
    = Agents.Map_get (VStr name) reg.
Proof.
  intros Hname H. induction H as [|u post Hu _ IH]; intros reg; cbn;
    [reflexivity|].
  rewrite IH, (Map_get_register _ _ _ Hname).
  destruct (get_prop u "callback") as [| | | | |f| |] eqn:Hcb; try reflexivity.
  destruct (name_of u) as [| | | |n| | |] eqn:Hn; try reflexivity.
  destruct (String.eqb n name) eqn:E0; [|reflexivity].
  apply String.eqb_eq in E0. subst n. exfalso. apply (Hu f). split; auto.
Qed.

(** X8. When several tools share a name, the callback of the last of them
    that has a function callback is the one the registry holds: a later
    tool with that name overwrites an earlier one, and tools without a
    function callback do not. *)
Theorem last_registered_callback_wins (pre post : list value) (t : value)
    (name : string) (f : nat) :
  name <> ""%string ->
  tool_registers t name f ->
  Forall (fun u => forall g, ~ tool_registers u name g) post ->
  Agents.Map_get (VStr name) (registry_of (pre ++ t :: post)) = VFun f.
Proof.
  intros Hname [Hcb Hn] Hpost.
  rewrite registry_of_app. cbn [fold_left].
  rewrite (Map_get_unregistered _ _ Hname Hpost),
    (Map_get_register _ _ _ Hname), Hcb, Hn.
  now rewrite String.eqb_refl.
Qed.

(** X9. A name under which no tool of the list has a function callback is
    not in the registry: looking it up gives [undefined], so a tool call
    to it gets the no-callback error of [_executeToolCallbacks]. *)
Theorem unregistered_name_is_undefined (ts : list value) (name : string)
    (toolCall : value) (E : Env) (s0 : state (World E)) :
  name <> ""%string ->
  Forall (fun u => forall g, ~ tool_registers u name g) ts ->
  nullish toolCall = false ->
  name_of toolCall = VStr name ->
  Agents.Map_get (VStr name) (registry_of ts) = VUndefined
  /\ Agents._executeToolCallbacks E (VArr [toolCall]) (registry_of ts) s0
     = (Ok [VObj [("tool_call_id", get_prop toolCall "id");
                  ("content",
                   VObj [("error",
                          VStr ("No callback registered for tool: "
                                +:+ name))])]], s0).
Proof.
  intros Hname Hts Hnn Hn.
  assert (Hget : Agents.Map_get (VStr name) (registry_of ts) = VUndefined).
  { unfold registry_of. now rewrite (Map_get_unregistered _ _ Hname Hts). }
  split; [exact Hget|].
  unfold Agents._executeToolCallbacks, bind, elements.
  cbn [resolve iterate Agents.resolve_loop]. unfold bind.
  unfold Agents.resolve_call. unfold bind.
  rewrite (member_ok _ _ _ Hnn). fold (name_of toolCall).
  rewrite Hn, Hget. cbn [truthy ret to_string].
  rewrite (member_ok _ _ _ Hnn). reflexivity.
Qed.

Lemma register_entries (u : value) (reg : Agents.registry) k v :
  In (k, v) (Agents.register u reg) ->
  In (k, v) reg
  \/ (exists f, v = VFun f /\ get_prop u "callback" = VFun f)
     /\ truthy k = true.
Proof.
  unfold Agents.register.
  destruct (truthy (get_prop u "callback")
            && String.eqb (typeof (get_prop u "callback")) "function")
    eqn:Hc; [|auto].
  destruct (truthy (opt_member (get_prop u "function") "name")) eqn:Ht;
    [|auto].
  assert (Hf : exists f, get_prop u "callback" = VFun f).
  { destruct (get_prop u "callback"); cbn in Hc;
      try (rewrite andb_false_r in Hc); try discriminate; eauto. }
  destruct Hf as [f Hf]. rewrite Hf.
  generalize (opt_member (get_prop u "function") "name") Ht.
  intros key Hkey. clear Hc Ht.
  induction reg as [|[k' v'] reg IH]; cbn.
  - intros [[= <- <-]|[]]. right. split; eauto.
  - destruct (Agents.same_value_zero k' key) eqn:E0; cbn.
    + intros [[= <- <-]|H]; [|auto].
      apply same_value_zero_eq in E0. subst k'. right. split; eauto.
    + intros [H|H]; [auto|]. apply IH in H as [H|H]; auto.
Qed.

Lemma fold_register_entries (ts : list value) (k v : value) :
  forall reg,
    In (k, v) (fold_left (fun r t => Agents.register t r) ts reg) ->
    In (k, v) reg
    \/ (truthy k = true
        /\ exists f t, v = VFun f /\ In t ts
                       /\ get_prop t "callback" = VFun f).
Proof.
  induction ts as [|t ts IH]; intros reg Hin; cbn in Hin; [auto|].
  apply IH in Hin as [Hin|(Hk & f & u & -> & Hu & Hcb)].
  - apply register_entries in Hin as [Hin|[(f & -> & Hcb) Hk]]; [auto|].
    right. split; [exact Hk|]. exists f, t. cbn. auto.
  - right. split; [exact Hk|]. exists f, u. cbn. auto.
Qed.

(** X10. Every entry of the registry is a function that is the [callback]
    of one of the tools, stored under a truthy name: what the resolver
    finds in it can always be called. *)
Theorem registry_holds_callbacks_of_tools (ts : list value) (k v : value) :
  In (k, v) (registry_of ts) ->
  truthy k = true
  /\ exists f t, v = VFun f /\ In t ts /\ get_prop t "callback" = VFun f.
Proof.
  unfold registry_of. intros Hin.
  apply fold_register_entries in Hin as [[]|Hin]. exact Hin.
Qed.

Lemma remove_key_idem (k : string) (ps : list (string * value)) :
  remove_key k (remove_key k ps) = remove_key k ps.
Proof.
  unfold remove_key. induction ps as [|[k0 v0] ps IH]; cbn; [reflexivity|].
  destruct (negb (String.eqb k0 k)) eqn:E0; cbn; [|exact IH].
  rewrite E0. now rewrite IH.
Qed.

Lemma toolDef_of_idem (t : value) :
  Agents.toolDef_of (Agents.toolDef_of t) = Agents.toolDef_of t.
Proof.
  unfold Agents.toolDef_of. cbn [own_props]. now rewrite remove_key_idem.
Qed.

Lemma register_toolDef_of (t : value) (reg : Agents.registry) :
  Agents.register (Agents.toolDef_of t) reg = reg.
Proof.
  unfold Agents.register, Agents.toolDef_of. cbn [get_prop].
  rewrite assoc_remove_key, String.eqb_refl. reflexivity.
Qed.

Section RegistryExtras.

Variable E : Env.

(** X11. Cleaning is idempotent: running [_extractToolCallbacks] on the
    list it returned registers no callback and returns the same tools
    again, so a cleaned list holds nothing that cleaning would remove. *)
Theorem extract_again_changes_nothing (tools : arg) (ts : list value)
    (s : state (World E)) :
  resolve (heap s) tools = VArr ts ->
  Forall (fun t => nullish t = false) ts ->
  exists c1 reg1 s1 c2 s2 cleaned,
    Agents._extractToolCallbacks E tools s = (Ok (c1, reg1), s1)
    /\ heap s1 !! c1 = Some cleaned
    /\ Agents._extractToolCallbacks E (ArrayRef c1) s1 = (Ok (c2, []), s2)
    /\ heap s2 !! c2 = Some cleaned
    /\ heap s2 !! c1 = Some cleaned.
Proof.
  intros Hres Hts.
  pose proof (_extractToolCallbacks_ok E tools ts s Hres Hts) as H1.
  set (cleaned := map Agents.toolDef_of ts) in *.
  set (s1 := mkState (heap s ++ [cleaned]) (world s) (log s)) in *.
  assert (Hc : heap s1 !! List.length (heap s) = Some cleaned)
    by (apply list_lookup_middle; reflexivity).
  assert (Hres1 : resolve (heap s1) (ArrayRef (List.length (heap s)))
                  = VArr cleaned) by (unfold resolve; now rewrite Hc).
  assert (Hnn : Forall (fun t => nullish t = false) cleaned).
  { subst cleaned. apply List.Forall_forall. intros t Ht.
    apply in_map_iff in Ht as (u & <- & _). reflexivity. }
  pose proof (_extractToolCallbacks_ok E _ cleaned s1 Hres1 Hnn) as H2.
  assert (Hreg : fold_left (fun r t => Agents.register t r) cleaned [] = []).
  { assert (Hall : forall (l : list value) (reg : Agents.registry),
              fold_left (fun r t => Agents.register t r)
                        (map Agents.toolDef_of l) reg = reg).
    { induction l as [|t l IH]; intros reg; cbn; [reflexivity|].
      rewrite register_toolDef_of. apply IH. }
    apply Hall. }
  assert (Hagain : map Agents.toolDef_of cleaned = cleaned).
  { subst cleaned. rewrite map_map. apply map_ext. intros t.
    apply toolDef_of_idem. }
  rewrite Hreg, Hagain in H2.
  eexists _, _, s1, _, _, cleaned. split; [exact H1|].
  split; [exact Hc|]. split; [exact H2|]. cbn [heap]. split.
  - apply list_lookup_middle. reflexivity.
  - apply lookup_app_l_Some. exact Hc.
Qed.

Lemma calls_app (l1 l2 : list event) :
  calls (l1 ++ l2) = calls l1 ++ calls l2.
Proof.
  induction l1 as [|e l1 IH]; cbn; [reflexivity|].
  destruct e; cbn; now rewrite IH.
Qed.

Lemma calls_of_invocations (l : list (nat * value)) :
  calls (map (fun fa => EvCall (fst fa) (snd fa)) l) = l.
Proof.
  induction l as [|[f a] l IH]; cbn; [reflexivity | now rewrite IH].
Qed.

(** What resolving one tool call adds to the trace *)
Lemma resolve_call_trace (toolCall : value) (reg : Agents.registry)
    (s : state (World E)) :
  callbacks_report E ->
  nullish toolCall = false ->
  exists r s',
    Agents.resolve_call E toolCall reg s = (Ok r, s')
    /\ log s'
       = log s ++ map (fun fa => EvCall (fst fa) (snd fa))
                      (invoked E reg toolCall).
Proof.
  intros Hcb Hnn. unfold Agents.resolve_call, invoked, arguments_value.
  unfold bind at 1. rewrite (member_ok _ _ _ Hnn). fold (name_of toolCall).
  set (fn := get_prop toolCall "function").
  set (cb := Agents.Map_get (name_of toolCall) reg).
  set (a := opt_member fn "arguments").
  assert (Hga : truthy a = true -> get_prop fn "arguments" = a).
  { subst a. unfold opt_member. destruct (nullish fn); [discriminate | auto]. }
  (* the arguments *)
  set (argsM := if truthy a
                then match get_prop fn "arguments" with
                     | VStr text => Agents.parse E text
                     | other => ret other
                     end
                else ret (VObj [])).
  assert (Hargs :
    match (if truthy a
           then match a with
                | VStr text => match JSON_parse E text with
                               | inl v => Some v
                               | inr _ => None
                               end
                | other => Some other
                end
           else Some (VObj [])) with
    | Some args => argsM s = (Ok args, s)
    | None => exists msg, argsM s = (Throw (new_Error SyntaxError msg), s)
    end).
  { subst argsM. destruct (truthy a) eqn:Ha; [|reflexivity].
    rewrite (Hga eq_refl). destruct a; try reflexivity.
    unfold Agents.parse. destruct (JSON_parse E s0); [reflexivity | eauto]. }
  destruct (truthy cb) eqn:Htcb.
  - unfold bind at 1, try_catch. fold argsM.
    destruct (if truthy a
              then match a with
                   | VStr text => match JSON_parse E text with
                                  | inl v => Some v
                                  | inr _ => None
                                  end
                   | other => Some other
                   end
              else Some (VObj [])) as [args|].
    + unfold bind at 1. rewrite Hargs.
      destruct cb as [| | | | |f| |] eqn:Hcbv;
        try (cbn [Agents.invoke throw Agents.error_message new_Error message];
             unfold bind; cbn [ret]; rewrite (member_ok _ _ _ Hnn);
             eexists _, _; split; [reflexivity|]; cbn;
             now rewrite app_nil_r).
      cbn [Agents.invoke]. specialize (Hcb f args (world s)).
      destruct (call E f args (world s)) as [[v|t] w]; cbn in Hcb.
      * unfold bind. cbn [ret]. rewrite (member_ok _ _ _ Hnn).
        eexists _, _. split; reflexivity.
      * destruct Hcb as [m Hm]. unfold bind.
        rewrite (error_message_ok E _ _ _ Hm). cbn [ret].
        rewrite (member_ok _ _ _ Hnn).
        eexists _, _. split; reflexivity.
    + destruct Hargs as [msg Hargs]. unfold bind at 1. rewrite Hargs.
      cbn [Agents.error_message new_Error message]. unfold bind. cbn [ret].
      rewrite (member_ok _ _ _ Hnn).
      eexists _, _. split; [reflexivity|].
      destruct cb; cbn; now rewrite app_nil_r.
  - unfold bind. cbn [ret]. rewrite (member_ok _ _ _ Hnn).
    eexists _, _. split; [reflexivity|].
    destruct cb; try discriminate; cbn; now rewrite app_nil_r.
Qed.

Lemma _executeToolCallbacks_trace (toolCalls : list value)
    (reg : Agents.registry) (s : state (World E)) :
  callbacks_report E ->
  Forall (fun tc => nullish tc = false) toolCalls ->
  exists results s',
    Agents._executeToolCallbacks E (VArr toolCalls) reg s = (Ok results, s')
    /\ List.length results = List.length toolCalls
    /\ log s'
       = log s ++ map (fun fa => EvCall (fst fa) (snd fa))
                      (flat_map (invoked E reg) toolCalls).
Proof.
  intros Hcb Hnn. unfold Agents._executeToolCallbacks, bind, elements.
  cbn [resolve iterate]. revert s.
  induction Hnn as [|tc rest Htc _ IH]; intros s.
  - exists [], s. cbn. now rewrite app_nil_r.
  - destruct (resolve_call_trace tc reg s Hcb Htc) as (r & s1 & H1 & Hl1).
    destruct (IH s1) as (rs & s2 & H2 & Hlen & Hl2).
    cbn [Agents.resolve_loop flat_map]. unfold bind. rewrite H1, H2. cbn [ret].
    eexists _, _. split; [reflexivity|]. split; [cbn; now rewrite Hlen|].
    rewrite Hl2, Hl1, map_app, <- app_assoc. reflexivity.
Qed.

(** X12. Callbacks run one after the other in the order of the tool
    calls: the invocations that [_executeToolCallbacks] makes are, call by
    call, the registered function applied to the call's arguments; a call
    whose tool is not registered, or whose arguments do not parse, invokes
    nothing.  This is for callbacks that never throw or reject with
    [undefined] or [null]. *)
Theorem callbacks_run_in_call_order (toolCalls : list value)
    (reg : Agents.registry) (s : state (World E)) :
  callbacks_report E ->
  Forall (fun tc => nullish tc = false) toolCalls ->
  exists results s',
    Agents._executeToolCallbacks E (VArr toolCalls) reg s = (Ok results, s')
    /\ calls (log s') = calls (log s) ++ flat_map (invoked E reg) toolCalls.
Proof.
  intros Hcb Hnn.
  destruct (_executeToolCallbacks_trace toolCalls reg s Hcb Hnn)
    as (results & s' & H & _ & Hl).
  exists results, s'. split; [exact H|].
  rewrite Hl, calls_app, calls_of_invocations. reflexivity.
Qed.

End RegistryExtras.

(** ** [execute]: one request, no callback *)

Section Silent.

Variable E : Env.

Local Abbreviation silent := (silent E).

Lemma silent_ret {A} (a : A) : silent (ret a).
Proof. intros s r s' H. inversion H; subst. reflexivity. Qed.

Lemma silent_throw {A} t : silent (@throw (World E) A t).
Proof. intros s r s' H. inversion H; subst. reflexivity. Qed.

Lemma silent_bind {A B} (m : M (World E) A) (k : A -> M (World E) B) :
  silent m -> (forall a, silent (k a)) -> silent (bind m k).
Proof.
  intros Hm Hk s r s' H.
  apply bind_inv in H as [(t & H & _)|(a & s1 & H1 & H2)].
  - now apply Hm in H.
  - rewrite (Hk _ _ _ _ H2). now apply Hm in H1.
Qed.

Lemma silent_try_catch {A} (m : M (World E) A) h :
  silent m -> (forall t, silent (h t)) -> silent (try_catch m h).
Proof.
  intros Hm Hh s r s' H. unfold try_catch in H.
  destruct (m s) as [[a|t] s1] eqn:H1.
  - inversion H; subst. now apply Hm in H1.
  - rewrite (Hh _ _ _ _ H). now apply Hm in H1.
Qed.

Lemma silent_member (v : value) (k : string) : silent (@member (World E) v k).
Proof. intros s r s' H. apply member_inv in H as [-> _]. reflexivity. Qed.

Lemma silent_httpClient config : silent (Transport.httpClient E config).
Proof.
  intros s r s' H. unfold Transport.httpClient in H.
  destruct (http E config (world s)) as [o w].
  assert (s' = mkState (heap s) w (log s ++ [EvHttp config])) as ->
    by (destruct o; inversion H; reflexivity).
  cbn [log]. rewrite calls_app. cbn. now rewrite app_nil_r.
Qed.

Lemma silent_sleep ms : silent (Transport.sleep E ms).
Proof.
  intros s r s' H. inversion H; subst. cbn [log].
  rewrite calls_app. cbn. now rewrite app_nil_r.
Qed.

Lemma silent_retry_loop this config remaining :
  forall attempt lastError,
    silent (Transport.retry_loop E this config remaining attempt lastError).
Proof.
  induction remaining as [|n IH]; intros attempt lastError; cbn.
  - apply silent_throw.
  - apply silent_try_catch.
    + apply silent_bind; [apply silent_httpClient | intros; apply silent_member].
    + intros t. destruct (Transport.no_retry t); [apply silent_throw|].
      destruct (attempt =? _); [apply silent_throw|].
      apply silent_bind; [apply silent_sleep | intros; apply IH].
Qed.

Lemma silent_request this endpoint options :
  silent (Transport.request E this endpoint options).
Proof.
  unfold Transport.request. apply silent_bind.
  - intros s r s' H. inversion H; subst. cbn [log].
    rewrite calls_app. cbn. now rewrite app_nil_r.
  - intros _. apply silent_bind; [apply silent_member|].
    intros _. apply silent_retry_loop.
Qed.

End Silent.

Lemma isArray_arg_resolve (h : list (list value)) (a : arg) (xs : list value) :
  resolve h a = VArr xs -> isArray_arg a = true.
Proof. destruct a as [v|l]; cbn; [intros ->|]; reflexivity. Qed.

Section ExecuteExtras.

Variable E : Env.
Variable client : Transport.Agentlify.

Lemma execute_frame (params : Agents.AgentRunParams) (s : state (World E))
    r s' :
  Agents.execute E client params s = (r, s') ->
  calls (log s') = calls (log s)
  /\ (forall l : loc, (l < List.length (heap s))%nat ->
                      heap s' !! l = heap s !! l)
  /\ (transport_calls (log s) <= transport_calls (log s')
      <= S (transport_calls (log s)))%nat.
Proof.
  unfold Agents.execute. intros H.
  destruct (negb (truthy (Agents.agentId params)));
    [inversion H; subst; split; [reflexivity | split; [auto | lia]]|].
  destruct (negb _ || negb _);
    [inversion H; subst; split; [reflexivity | split; [auto | lia]]|].
  destruct (negb (isArray_arg _));
    [inversion H; subst; split; [reflexivity | split; [auto | lia]]|].
  apply bind_inv in H as [(t & H & ->)|(elems & s1 & H1 & H)].
  { unfold elements in H. destruct (iterate _); inversion H; subst.
    split; [reflexivity | split; [auto | lia]]. }
  assert (s1 = s) as ->.
  { unfold elements in H1. destruct (iterate _); now inversion H1. }
  apply bind_inv in H as [(t & H & _)|(c & s2 & H2 & H)]; [inversion H|].
  inversion H2; subst c s2; clear H2.
  pose proof H as Hc. unfold Agents._executeAgent in Hc.
  apply silent_request in Hc.
  apply _executeAgent_step in H as [Hh2 Ht2]. cbn [heap log] in *.
  split; [exact Hc|]. split; [|lia].
  intros l Hl'. rewrite Hh2. now apply lookup_app_l.
Qed.

(** X13. Whatever the server does, [execute] invokes no callback, leaves
    every array of the caller as it was and makes at most one transport
    call ([tools] being left out or an array, so that [map] is the array
    method). *)
Theorem execute_invokes_no_callback (params : Agents.AgentRunParams)
    (s : state (World E)) :
  isArray_arg (given_tools params) = true ->
  let out := Agents.execute E client params s in
  calls (log (snd out)) = calls (log s)
  /\ (forall l : loc, (l < List.length (heap s))%nat ->
                      heap (snd out) !! l = heap s !! l)
  /\ (transport_calls (log s) <= transport_calls (log (snd out))
      <= S (transport_calls (log s)))%nat.
Proof.
  intros _. cbv zeta.
  destruct (Agents.execute E client params s) as [r s'] eqn:H.
  exact (execute_frame params s r s' H).
Qed.

(** X14. [execute] hands the first answer of the server to its caller as
    it is, also when that answer asks for tools: it sends one request to
    [/agents] whose body holds the agent, the caller's messages, the tools
    without their callbacks (left out when there are none) and the
    options, and returns the [data] of the response. *)
Theorem execute_returns_first_answer (params : Agents.AgentRunParams)
    (s : state (World E)) (response : value) (ts : list value) :
  passes_validation params ->
  in_store (heap s) (Agents.messages params) ->
  resolve (heap s) (given_tools params) = VArr ts ->
  0 <= Transport.maxRetries client ->
  (forall config, fst (http E config (world s)) = HttpOk response) ->
  nullish response = false ->
  let body := request_body params (resolve (heap s) (Agents.messages params))
                ts in
  let options := [("method", VStr "POST"); ("data", body)] in
  exists s',
    Agents.execute E client params s = (Ok (get_prop response "data"), s')
    /\ log s'
       = log s ++ [EvTransport (VStr "/agents") body;
                   EvHttp (Transport.make_config (VStr "/agents")
                             (VObj options))].
Proof.
  intros (Ha & Hm & Harr) Hin Hts Hr Hsrv Hresp body options.
  unfold Agents.execute. rewrite Ha, Hm, Harr. cbn [negb orb].
  fold (given_tools params).
  rewrite (isArray_arg_resolve _ _ _ Hts). cbn [negb].
  unfold bind at 1. rewrite (elements_ok E _ _ ts s Hts).
  unfold bind, alloc. cbn [heap world log].
  unfold Agents._executeAgent. cbn [heap].
  match goal with |- context [Agents.payload_value ?h ?p] =>
    assert (Hbody : Agents.payload_value h p = body) end.
  { unfold Agents.payload_value, body, request_body.
    cbn [Agents.p_agentId Agents.p_messages Agents.p_tools Agents.p_options].
    rewrite (resolve_app _ _ _ Hin).
    destruct ts as [|t ts']; [reflexivity|].
    replace (0 <? Z.of_nat (List.length (t :: ts'))) with true
      by (symmetry; apply Z.ltb_lt; cbn [List.length]; lia).
    unfold resolve. rewrite list_lookup_middle by reflexivity.
    reflexivity. }
  rewrite Hbody. fold options.
  specialize (Hsrv (Transport.make_config (VStr "/agents") (VObj options))).
  match goal with |- context [Transport.request E client ?e ?o ?st] =>
    destruct (http E (Transport.make_config e o) (world st)) as [o' w] eqn:Hh
  end.
  cbn [world] in Hh. rewrite Hh in Hsrv. cbn [fst] in Hsrv. subst o'.
  match goal with |- context [Transport.request E client _ _ ?st] =>
    rewrite (request_answered E client _ options st response w Hr Hh Hresp)
  end.
  eexists. split; reflexivity.
Qed.

Lemma extract_loop_nullish (c : loc) (ts : list value) :
  Exists (fun t => nullish t = true) ts ->
  forall (reg : Agents.registry) (s : state (World E)),
  exists msg s',
    Agents.extract_loop E c ts reg s = (Throw (new_Error TypeError msg), s')
    /\ log s' = log s.
Proof.
  induction ts as [|t ts IH]; intros Hex reg s; [inversion Hex|].
  cbn [Agents.extract_loop]. destruct (nullish t) eqn:Hn.
  - eexists _, s. split; reflexivity.
  - assert (Hex' : Exists (fun t => nullish t = true) ts)
      by (inversion Hex; subst; [congruence | assumption]).
    unfold bind, push.
    edestruct (IH Hex') as (msg & s' & -> & Hl).
    eexists _, s'. split; [reflexivity|]. exact Hl.
Qed.

(** X15. A tool that is [null] or [undefined] separates the two entry
    points: [run] fails with a [TypeError] while it takes the callbacks
    out, before anything is sent, whereas [execute] sends its request. *)
Theorem nullish_tool_stops_run_only (params : Agents.AgentRunParams)
    (s : state (World E)) (ts : list value) :
  passes_validation params ->
  resolve (heap s) (given_tools params) = VArr ts ->
  Exists (fun t => nullish t = true) ts ->
  (exists msg s',
     Agents.run E client params s = (Throw (new_Error TypeError msg), s')
     /\ log s' = log s)
  /\ transport_calls (log (snd (Agents.execute E client params s)))
     = S (transport_calls (log s)).
Proof.
  intros (Ha & Hm & Harr) Hts Hex. split.
  - unfold Agents.run. rewrite Ha, Hm, Harr. cbn [negb orb].
    fold (given_tools params).
    unfold bind at 1, Agents._extractToolCallbacks.
    unfold bind at 1, alloc. cbn [heap world log].
    unfold bind at 1. rewrite (elements_ok E _ _ ts).
    2:{ cbn [heap]. now rewrite resolve_alloc. }
    unfold bind at 1.
    edestruct (extract_loop_nullish (List.length (heap s)) ts Hex [])
      as (msg & s' & -> & Hl).
    eexists _, s'. split; [reflexivity | exact Hl].
  - unfold Agents.execute. rewrite Ha, Hm, Harr. cbn [negb orb].
    fold (given_tools params).
    rewrite (isArray_arg_resolve _ _ _ Hts). cbn [negb].
    unfold bind at 1. rewrite (elements_ok E _ _ ts s Hts).
    unfold bind, alloc. cbn [heap world log].
    match goal with |- context [Agents._executeAgent E client ?p ?st] =>
      destruct (Agents._executeAgent E client p st) as [r s2] eqn:Hx end.
    apply _executeAgent_step in Hx as [_ Ht2]. exact Ht2.
Qed.

End ExecuteExtras.

(** ** [run] and [execute] side by side *)

Lemma state_eta {W} (s : state W) :
  mkState (heap s) (world s) (log s ++ []) = s.
Proof. destruct s. cbn. now rewrite app_nil_r. Qed.

Section HeapBlind.

Variable E : Env.

Local Abbreviation heap_blind := (heap_blind E).

Lemma heap_blind_ret {A} (a : A) : heap_blind (ret a).
Proof.
  intros s1 s2 Hw. exists (Ok a), (world s1), []. unfold ret.
  rewrite state_eta, Hw, state_eta. auto.
Qed.

Lemma heap_blind_throw {A} t : heap_blind (@throw (World E) A t).
Proof.
  intros s1 s2 Hw. exists (Throw t), (world s1), []. unfold throw.
  rewrite state_eta, Hw, state_eta. auto.
Qed.

Lemma heap_blind_bind {A B} (m : M (World E) A) (k : A -> M (World E) B) :
  heap_blind m -> (forall a, heap_blind (k a)) -> heap_blind (bind m k).
Proof.
  intros Hm Hk s1 s2 Hw. destruct (Hm s1 s2 Hw) as (r & w & evs & H1 & H2).
  unfold bind. rewrite H1, H2. destruct r as [a|t].
  - destruct (Hk a (mkState (heap s1) w (log s1 ++ evs))
                   (mkState (heap s2) w (log s2 ++ evs)) eq_refl)
      as (r' & w' & evs' & K1 & K2).
    cbn [heap log] in K1, K2. rewrite <- !app_assoc in K1, K2.
    exists r', w', (evs ++ evs'). auto.
  - exists (Throw t), w, evs. auto.
Qed.

Lemma heap_blind_try_catch {A} (m : M (World E) A) h :
  heap_blind m -> (forall t, heap_blind (h t)) -> heap_blind (try_catch m h).
Proof.
  intros Hm Hh s1 s2 Hw. destruct (Hm s1 s2 Hw) as (r & w & evs & H1 & H2).
  unfold try_catch. rewrite H1, H2. destruct r as [a|t].
  - exists (Ok a), w, evs. auto.
  - destruct (Hh t (mkState (heap s1) w (log s1 ++ evs))
                   (mkState (heap s2) w (log s2 ++ evs)) eq_refl)
      as (r' & w' & evs' & K1 & K2).
    cbn [heap log] in K1, K2. rewrite <- !app_assoc in K1, K2.
    exists r', w', (evs ++ evs'). auto.
Qed.

Lemma heap_blind_member (v : value) (k : string) :
  heap_blind (@member (World E) v k).
Proof.
  unfold member. destruct (nullish v);
    [apply heap_blind_throw | apply heap_blind_ret].
Qed.

Lemma heap_blind_emit (e : event) : heap_blind (@emit (World E) e).
Proof.
  intros s1 s2 Hw. exists (Ok tt), (world s1), [e]. unfold emit.
  rewrite Hw. auto.
Qed.

Lemma heap_blind_httpClient config :
  heap_blind (Transport.httpClient E config).
Proof.
  intros s1 s2 Hw. unfold Transport.httpClient. rewrite <- Hw.
  destruct (http E config (world s1)) as [o w].
  destruct o; eexists _, w, [EvHttp config]; split; reflexivity.
Qed.

Lemma heap_blind_retry_loop this config remaining :
  forall attempt lastError,
    heap_blind
      (Transport.retry_loop E this config remaining attempt lastError).
Proof.
  induction remaining as [|n IH]; intros attempt lastError; cbn.
  - apply heap_blind_throw.
  - apply heap_blind_try_catch.
    + apply heap_blind_bind;
        [apply heap_blind_httpClient | intros; apply heap_blind_member].
    + intros t. destruct (Transport.no_retry t); [apply heap_blind_throw|].
      destruct (attempt =? _); [apply heap_blind_throw|].
      apply heap_blind_bind; [apply heap_blind_emit | intros; apply IH].
Qed.

Lemma heap_blind_request this endpoint options :
  heap_blind (Transport.request E this endpoint options).
Proof.
  unfold Transport.request. apply heap_blind_bind; [apply heap_blind_emit|].
  intros _. apply heap_blind_bind; [apply heap_blind_member|].
  intros _. apply heap_blind_retry_loop.
Qed.

End HeapBlind.

Section RunAndExecute.

Variable E : Env.
Variable client : Transport.Agentlify.

(** A round whose answer completes is the last one. *)
Lemma run_loop_returns_completed (n : nat) (B : value)
    (reg : Agents.registry) (cm : loc) (p : Agents.payload)
    (s s1 : state (World E)) (body : value) :
  Agents._executeAgent E client p s = (Ok body, s1) ->
  nullish body = false ->
  completes body ->
  Agents.run_loop E client (S n) B reg cm p s = (Ok body, s1).
Proof.
  intros Hexec Hbody Hdone. cbn [Agents.run_loop].
  unfold bind at 1. rewrite Hexec.
  unfold bind at 1. rewrite (member_ok _ _ _ Hbody).
  destruct Hdone as [[Hfr Hflag]|[Hnone|Hempty]].
  - assert (Hn : negb (truthy (Agents.needsToolExecution body)) = true).
    { unfold Agents.needsToolExecution.
      fold (finish_reason body). fold (requires_tool_execution body).
      assert (Hs : strict_eq_str (finish_reason body) "tool_calls" = false).
      { destruct (finish_reason body) as [| | | |fr| | |]; try reflexivity.
        cbn. apply String.eqb_neq. congruence. }
      rewrite Hs. unfold or_else. cbn. now rewrite Hflag. }
    rewrite Hn. reflexivity.
  - destruct (negb (truthy (Agents.needsToolExecution body)));
      [reflexivity|].
    rewrite Hnone. reflexivity.
  - destruct (negb (truthy (Agents.needsToolExecution body)));
      [reflexivity|].
    rewrite Hempty. reflexivity.
Qed.

(** X16. Where no tool has to run, [run] is [execute]: for a valid call
    whose [tools] are left out or an array of tool definitions (none of
    them [null] or [undefined]), if [execute] fails, or returns an answer
    that completes, then [run] ends in the same way, with the same
    requests made and the same world left behind, provided its budget
    allows one round. *)
Theorem run_agrees_with_execute (params : Agents.AgentRunParams)
    (s se : state (World E)) (r : result value) :
  passes_validation params ->
  in_store (heap s) (Agents.messages params) ->
  tools_well_formed (heap s) params ->
  (1 <= Agents.iterations (maxIterations params))%nat ->
  Agents.execute E client params s = (r, se) ->
  match r with
  | Ok body => nullish body = false /\ completes body
  | Throw _ => True
  end ->
  exists sr,
    Agents.run E client params s = (r, sr)
    /\ world sr = world se
    /\ log sr = log se.
Proof.
  intros Hv Hin Htools Hiter Hexe Hr.
  destruct (given_tools_well_formed _ _ Htools) as (ts & Hts & Hnn).
  destruct (isArray_resolve (heap s) (Agents.messages params))
    as [ms Hms]; [apply Hv|].
  rewrite (run_setup E client params s ts ms Hv Hin Hms Hts Hnn).
  destruct (Agents.iterations (maxIterations params)) as [|n]; [lia|].
  destruct Hv as (Ha & Hm & Harr).
  unfold Agents.execute in Hexe. rewrite Ha, Hm, Harr in Hexe.
  cbn [negb orb] in Hexe. fold (given_tools params) in Hexe.
  rewrite (isArray_arg_resolve _ _ _ Hts) in Hexe. cbn [negb] in Hexe.
  unfold bind at 1 in Hexe. rewrite (elements_ok E _ _ ts s Hts) in Hexe.
  unfold bind, alloc in Hexe. cbn [heap world log] in Hexe.
  match type of Hexe with
    Agents._executeAgent E client ?x ?st = _ => set (p := x) in *;
                                             set (s2 := st) in * end.
  match goal with |- context [Agents.run_loop E client _ _ _ _ _ ?st] =>
    set (s1 := st) end.
  assert (Hp : Agents.payload_value (heap s1) p
               = Agents.payload_value (heap s2) p).
  { unfold Agents.payload_value, p, s1, s2.
    cbn [Agents.p_agentId Agents.p_messages Agents.p_tools Agents.p_options
         heap].
    rewrite !(resolve_app _ _ _ Hin).
    destruct (0 <? Z.of_nat (List.length ts)); [|reflexivity].
    unfold resolve.
    change (heap s ++ [map Agents.toolDef_of ts; ms])
      with (heap s ++ map Agents.toolDef_of ts :: [ms]).
    rewrite !list_lookup_middle by reflexivity. reflexivity. }
  destruct (heap_blind_request E client (VStr "/agents")
              (VObj [("method", VStr "POST");
                     ("data", Agents.payload_value (heap s2) p)])
              s1 s2 eq_refl) as (r' & w & evs & R1 & R2).
  assert (X2 : Agents._executeAgent E client p s2
               = (r', mkState (heap s2) w (log s2 ++ evs))) by exact R2.
  assert (X1 : Agents._executeAgent E client p s1
               = (r', mkState (heap s1) w (log s1 ++ evs))).
  { unfold Agents._executeAgent. rewrite Hp. exact R1. }
  rewrite X2 in Hexe. inversion Hexe; subst r' se; clear Hexe.
  exists (mkState (heap s1) w (log s1 ++ evs)).
  split; [|split; reflexivity].
  destruct r as [body|t].
  - destruct Hr as [Hbody Hdone].
    apply (run_loop_returns_completed _ _ _ _ _ _ _ _ X1 Hbody Hdone).
  - cbn [Agents.run_loop]. unfold bind at 1. rewrite X1. reflexivity.
Qed.

End RunAndExecute.

(** ** One round of tools *)

Lemma submitted_messages_payload (endpoint method : value)
    (h : list (list value)) (p : Agents.payload) :
  submitted_messages
    (Transport.make_config endpoint
       (VObj [("method", method); ("data", Agents.payload_value h p)]))
  = resolve h (Agents.p_messages p).
Proof. reflexivity. Qed.

Lemma has_tool_message_extended (ms results : list value) (a : value) :
  results <> [] ->
  has_tool_message (VArr (ms ++ a :: map Agents.tool_message results)) = true.
Proof.
  intros Hne. destruct results as [|r rs]; [congruence|].
  unfold has_tool_message. rewrite existsb_app. cbn [existsb map].
  replace (strict_eq_str (get_prop (Agents.tool_message r) "role") "tool")
    with true by reflexivity.
  cbn [orb]. now rewrite !orb_true_r.
Qed.

Section OneRound.

Variable E : Env.
Variable client : Transport.Agentlify.

(** X17. One round of tools, end to end: if the server asks for the tool
    calls [tcs] as long as the conversation holds no tool result and
    completes once it holds one, [run] makes a first request, then invokes
    the callbacks of [tcs] in order, then makes a second request, and
    returns the second answer.  This is for a valid call with a budget of
    at least two rounds and callbacks that never throw or reject with
    [undefined] or [null]. *)
Theorem run_one_tool_round (params : Agents.AgentRunParams)
    (s : state (World E)) (ms ts tcs : list value) (first second : value) :
  passes_validation params ->
  in_store (heap s) (Agents.messages params) ->
  resolve (heap s) (Agents.messages params) = VArr ms ->
  has_tool_message (VArr ms) = false ->
  resolve (heap s) (given_tools params) = VArr ts ->
  Forall (fun t => nullish t = false) ts ->
  (2 <= Agents.iterations (maxIterations params))%nat ->
  0 <= Transport.maxRetries client ->
  callbacks_report E ->
  answers_after_tools E first second ->
  truthy (Agents.needsToolExecution (get_prop first "data")) = true ->
  Agents.pending_tool_calls (get_prop first "data") = VArr tcs ->
  tcs <> [] ->
  Forall (fun tc => nullish tc = false) tcs ->
  nullish (get_prop second "data") = false ->
  completes (get_prop second "data") ->
  exists s' body1 config1 body2 config2,
    Agents.run E client params s = (Ok (get_prop second "data"), s')
    /\ log s'
       = log s
         ++ [EvTransport (VStr "/agents") body1; EvHttp config1]
         ++ map (fun fa => EvCall (fst fa) (snd fa))
                (flat_map (invoked E (registry_of ts)) tcs)
         ++ [EvTransport (VStr "/agents") body2; EvHttp config2].
Proof.
  intros Hv Hin Hms Hnotool Hts Hnn Hiter Hr Hcb Hsrv Hneeds Hpend Hne Htcs
         Hbody2 Hdone.
  rewrite (run_setup E client params s ts ms Hv Hin Hms Hts Hnn).
  destruct (Agents.iterations (maxIterations params)) as [|[|n]]; [lia|lia|].
  fold (registry_of ts).
  match goal with |- context [Agents.run_loop E client _ _ _ ?c ?x ?st] =>
    set (cm := c); set (p := x); set (s1 := st) end.
  (* the first request *)
  set (options1 := [("method", VStr "POST");
                     ("data", Agents.payload_value (heap s1) p)]).
  set (config1 := Transport.make_config (VStr "/agents") (VObj options1)).
  assert (Hsub1 : submitted_messages config1 = VArr ms).
  { unfold config1, options1. rewrite submitted_messages_payload.
    unfold p, s1. cbn [Agents.p_messages heap].
    now rewrite (resolve_app _ _ _ Hin). }
  destruct (http E config1 (world s1)) as [o1 w1] eqn:Hh1.
  pose proof (Hsrv config1 (world s1)) as Ho1.
  rewrite Hh1, Hsub1, Hnotool in Ho1. cbn [fst] in Ho1. subst o1.
  assert (Hbody1 : nullish (get_prop first "data") = false).
  { apply get_prop_not_nullish with (k := "choices"%string).
    assert (Hp : nullish (Agents.pending_tool_calls (get_prop first "data"))
                 = false) by now rewrite Hpend.
    apply (pending_path _ Hp). }
  pose proof (get_prop_not_nullish _ _ Hbody1) as Hfirst.
  pose proof (request_answered E client (VStr "/agents") options1 s1
                first w1 Hr Hh1 Hfirst) as Hreq1.
  match type of Hreq1 with _ = (_, ?st) => set (s1' := st) in * end.
  assert (Hexec1 : Agents._executeAgent E client p s1
                   = (Ok (get_prop first "data"), s1')) by exact Hreq1.
  (* the callbacks *)
  destruct (_executeToolCallbacks_trace E tcs (registry_of ts) s1' Hcb Htcs)
    as (results & s2 & Hres & Hlen & Hl2).
  pose proof (quiet__executeToolCallbacks E _ _ _ _ _ Hres) as [Hh2 _].
  assert (Hcm : heap s2 !! cm = Some ms).
  { rewrite Hh2. unfold s1', s1, cm. cbn [heap].
    change (heap s ++ [map Agents.toolDef_of ts; ms])
      with (heap s ++ map Agents.toolDef_of ts :: [ms]).
    rewrite lookup_app_r by lia.
    replace (S (List.length (heap s)) - List.length (heap s))%nat
      with 1%nat by lia.
    reflexivity. }
  rewrite (run_loop_step E client (S n) _ _ cm p s1 s1' s2 _ tcs results ms
             Hexec1 Hbody1 Hneeds Hpend Hne Hres Hcm).
  cbn [Agents.p_agentId Agents.p_tools Agents.p_options].
  match goal with |- context [Agents.run_loop E client _ _ _ _ ?x ?st] =>
    set (p2 := x); set (s3 := st) end.
  (* the second request *)
  set (options2 := [("method", VStr "POST");
                     ("data", Agents.payload_value (heap s3) p2)]).
  set (config2 := Transport.make_config (VStr "/agents") (VObj options2)).
  assert (Hres_ne : results <> []).
  { intros ->. destruct tcs; [congruence | discriminate]. }
  assert (Hsub2 : has_tool_message (submitted_messages config2) = true).
  { unfold config2, options2. rewrite submitted_messages_payload.
    unfold p2, s3, resolve. cbn [Agents.p_messages heap].
    rewrite list_lookup_insert_eq by (eapply lookup_lt_Some, Hcm).
    cbn [default]. now apply has_tool_message_extended. }
  destruct (http E config2 (world s3)) as [o2 w2] eqn:Hh2'.
  pose proof (Hsrv config2 (world s3)) as Ho2.
  rewrite Hh2', Hsub2 in Ho2. cbn [fst] in Ho2. subst o2.
  pose proof (get_prop_not_nullish _ _ Hbody2) as Hsecond.
  pose proof (request_answered E client (VStr "/agents") options2 s3
                second w2 Hr Hh2' Hsecond) as Hreq2.
  match type of Hreq2 with _ = (_, ?st) => set (s3' := st) in * end.
  assert (Hexec2 : Agents._executeAgent E client p2 s3
                   = (Ok (get_prop second "data"), s3')) by exact Hreq2.
  rewrite (run_loop_returns_completed E client _ _ _ _ _ _ _ _
             Hexec2 Hbody2 Hdone).
  eexists s3', _, config1, _, config2. split; [reflexivity|].
  unfold s3', s3. cbn [log]. rewrite Hl2. unfold s1', s1. cbn [log].
  rewrite <- !app_assoc. reflexivity.
Qed.

End OneRound.

(** ** What one request puts on the wire *)

Section Emits.

Variable E : Env.
Variable P : event -> Prop.

Local Abbreviation emits := (emits E P).

Lemma emits_ret {A} (a : A) : emits (ret a).
Proof.
  intros s r s' H. inversion H; subst. exists [].
  split; [now rewrite app_nil_r | constructor].
Qed.

Lemma emits_throw {A} t : emits (@throw (World E) A t).
Proof.
  intros s r s' H. inversion H; subst. exists [].
  split; [now rewrite app_nil_r | constructor].
Qed.

Lemma emits_bind {A B} (m : M (World E) A) (k : A -> M (World E) B) :
  emits m -> (forall a, emits (k a)) -> emits (bind m k).
Proof.
  intros Hm Hk s r s' H.
  apply bind_inv in H as [(t & H & _)|(a & s1 & H1 & H2)].
  - now apply Hm in H.
  - destruct (Hm _ _ _ H1) as (l1 & E1 & F1).
    destruct (Hk _ _ _ _ H2) as (l2 & E2 & F2).
    exists (l1 ++ l2). split.
    + now rewrite E2, E1, app_assoc.
    + apply Forall_app. auto.
Qed.

Lemma emits_try_catch {A} (m : M (World E) A) h :
  emits m -> (forall t, emits (h t)) -> emits (try_catch m h).
Proof.
  intros Hm Hh s r s' H. unfold try_catch in H.
  destruct (m s) as [[a|t] s1] eqn:H1.
  - inversion H; subst. now apply Hm in H1.
  - destruct (Hm _ _ _ H1) as (l1 & E1 & F1).
    destruct (Hh _ _ _ _ H) as (l2 & E2 & F2).
    exists (l1 ++ l2). split.
    + now rewrite E2, E1, app_assoc.
    + apply Forall_app. auto.
Qed.

Lemma emits_member (v : value) (k : string) : emits (@member (World E) v k).
Proof.
  unfold member. destruct (nullish v); [apply emits_throw | apply emits_ret].
Qed.

Lemma emits_emit (e : event) : P e -> emits (@emit (World E) e).
Proof.
  intros He s r s' H. inversion H; subst. exists [e]. cbn [log].
  split; [reflexivity | repeat constructor; exact He].
Qed.

End Emits.

Section Wire.

Variable E : Env.

Lemma emits_httpClient config :
  emits E (attempt_of config) (Transport.httpClient E config).
Proof.
  intros s r s' H. unfold Transport.httpClient in H.
  destruct (http E config (world s)) as [o w].
  assert (s' = mkState (heap s) w (log s ++ [EvHttp config])) as ->
    by (destruct o; inversion H; reflexivity).
  exists [EvHttp config]. split; [reflexivity|].
  repeat constructor.
Qed.

Lemma emits_retry_loop this config remaining :
  forall attempt lastError,
    emits E (attempt_of config)
      (Transport.retry_loop E this config remaining attempt lastError).
Proof.
  induction remaining as [|n IH]; intros attempt lastError; cbn.
  - apply emits_throw.
  - apply emits_try_catch.
    + apply emits_bind; [apply emits_httpClient | intros; apply emits_member].
    + intros t. destruct (Transport.no_retry t); [apply emits_throw|].
      destruct (attempt =? _); [apply emits_throw|].
      apply emits_bind; [|intros; apply IH].
      apply emits_emit. exact I.
Qed.

Lemma request_trace this endpoint (opts : list (string * value))
    (s : state (World E)) r s' :
  Transport.request E this endpoint (VObj opts) s = (r, s') ->
  exists l,
    log s' = log s ++ EvTransport endpoint (get_prop (VObj opts) "data") :: l
    /\ Forall (attempt_of (Transport.make_config endpoint (VObj opts))) l.
Proof.
  unfold Transport.request. intros H.
  apply bind_inv in H as [(t & H & _)|(a & s1 & H1 & H2)]; [inversion H|].
  inversion H1; subst; clear H1.
  apply bind_inv in H2 as [(t & H & _)|(a & s1 & H1 & H2)]; [inversion H|].
  inversion H1; subst; clear H1.
  apply emits_retry_loop in H2 as (l & Hl & Hf). cbn [log] in Hl.
  exists l. split; [|exact Hf]. rewrite Hl, <- app_assoc. reflexivity.
Qed.

(** X18. One call of [request] announces itself once and then only
    makes HTTP attempts and waits: every attempt, the first and each
    retry, carries the same configuration, the one built from the
    endpoint and the options. *)
Theorem request_resends_same_config (this : Transport.Agentlify)
    (endpoint : value) (opts : list (string * value))
    (s : state (World E)) :
  exists l,
    log (snd (Transport.request E this endpoint (VObj opts) s))
    = log s ++ EvTransport endpoint (get_prop (VObj opts) "data") :: l
    /\ Forall (attempt_of (Transport.make_config endpoint (VObj opts))) l.
Proof.
  destruct (Transport.request E this endpoint (VObj opts) s) as [r s'] eqn:H.
  exact (request_trace _ _ _ _ _ _ H).
Qed.

(** X19. The two read-only endpoints: [getRouterConfig] and [getModels]
    send [GET] requests without a body, to [/getRouterConfig/<routerId>]
    and to [/getModels], on the first attempt and on every retry. *)
Theorem read_endpoints_send_GET (this : Transport.Agentlify)
    (routerId : value) (s : state (World E)) :
  (exists l,
     log (snd (Client.getRouterConfig E this routerId s))
     = log s ++ EvTransport (VStr ("/getRouterConfig/" +:+ to_string routerId))
                            VUndefined :: l
     /\ Forall (reads ("/getRouterConfig/" +:+ to_string routerId)) l)
  /\ (exists l,
        log (snd (Client.getModels E this s))
        = log s ++ EvTransport (VStr "/getModels") VUndefined :: l
        /\ Forall (reads "/getModels") l).
Proof.
  assert (Hreads : forall (url : string) (e : event),
             attempt_of (Transport.make_config (VStr url)
                           (VObj [("method", VStr "GET")])) e ->
             reads url e).
  { intros url [ | c | | ]; cbn; auto. intros ->. repeat split. }
  split.
  - unfold Client.getRouterConfig.
    match goal with |- context [Transport.request E this ?e ?o s] =>
      destruct (Transport.request E this e o s) as [r s'] eqn:H end.
    apply request_trace in H as (l & Hl & Hf). exists l.
    split; [exact Hl|]. eapply Forall_impl; [exact Hf|]. apply Hreads.
  - unfold Client.getModels, bind.
    match goal with |- context [Transport.request E this ?e ?o s] =>
      destruct (Transport.request E this e o s) as [r s'] eqn:H end.
    apply request_trace in H as (l & Hl & Hf).
    assert (Hs : forall (out : result value * state (World E)),
               snd out = s' ->
               exists l0,
                 log (snd out)
                 = log s ++ EvTransport (VStr "/getModels") VUndefined :: l0
                 /\ Forall (reads "/getModels") l0).
    { intros out ->. exists l. split; [exact Hl|].
      eapply Forall_impl; [exact Hf|]. apply Hreads. }
    destruct r as [response|t]; [|now apply Hs].
    destruct (truthy response && _ && _); now apply Hs.
Qed.

End Wire.

(** ** What [run] may do *)

Lemma Map_get_in (q : value) (reg : Agents.registry) (f : nat) :
  Agents.Map_get q reg = VFun f -> exists k, In (k, VFun f) reg.
Proof.
  induction reg as [|[k v] reg IH]; cbn; [discriminate|].
  destruct (Agents.same_value_zero k q).
  - intros ->. eauto.
  - intros H. destruct (IH H) as [k' Hk']. eauto.
Qed.

Lemma nullish_somewhere (ts : list value) :
  Forall (fun t => nullish t = false) ts
  \/ Exists (fun t => nullish t = true) ts.
Proof.
  induction ts as [|t ts [IH|IH]].
  - left. constructor.
  - destruct (nullish t) eqn:Hn.
    + right. now constructor.
    + left. now constructor.
  - right. now constructor 2.
Qed.

Section Permitted.

Variable E : Env.
Variable client : Transport.Agentlify.

Lemma emits_same_log (P : event -> Prop) {A} (m : M (World E) A) :
  (forall s r s', m s = (r, s') -> log s' = log s) -> emits E P m.
Proof.
  intros Hm s r s' H. exists []. rewrite app_nil_r.
  split; [eapply Hm, H | constructor].
Qed.

Lemma emits_elements P what (a : arg) :
  emits E P (@elements (World E) what a).
Proof.
  apply emits_same_log. intros s r s' H. unfold elements in H.
  destruct (iterate _); now inversion H.
Qed.

Lemma emits_push P (l : loc) (v : value) : emits E P (@push (World E) l v).
Proof. apply emits_same_log. intros s r s' H. now inversion H. Qed.

Lemma emits_alloc P (xs : list value) : emits E P (@alloc (World E) xs).
Proof. apply emits_same_log. intros s r s' H. now inversion H. Qed.

Lemma emits_contents P (l : loc) : emits E P (@contents (World E) l).
Proof. apply emits_same_log. intros s r s' H. now inversion H. Qed.

Lemma emits_extract_loop P (c : loc) (ts : list value) :
  forall reg, emits E P (Agents.extract_loop E c ts reg).
Proof.
  induction ts as [|t ts IH]; intros reg; cbn [Agents.extract_loop].
  - apply emits_ret.
  - destruct (nullish t); [apply emits_throw|].
    apply emits_bind; [apply emits_push | intros _; apply IH].
Qed.

Lemma emits__extractToolCallbacks P (tools : arg) :
  emits E P (Agents._extractToolCallbacks E tools).
Proof.
  unfold Agents._extractToolCallbacks.
  apply emits_bind; [apply emits_alloc | intros c].
  apply emits_bind; [apply emits_elements | intros elems].
  apply emits_bind; [apply emits_extract_loop | intros; apply emits_ret].
Qed.

Lemma extract_registry (tools : arg) (ts : list value) (s : state (World E))
    c reg s1 :
  Agents._extractToolCallbacks E tools s = (Ok (c, reg), s1) ->
  resolve (heap s) tools = VArr ts ->
  reg = registry_of ts.
Proof.
  intros H Hts. destruct (nullish_somewhere ts) as [Hnn|Hex].
  - rewrite (_extractToolCallbacks_ok E tools ts s Hts Hnn) in H.
    now inversion H.
  - exfalso. unfold Agents._extractToolCallbacks in H.
    unfold bind at 1, alloc in H. cbn [heap world log] in H.
    unfold bind at 1 in H. rewrite (elements_ok E _ _ ts) in H.
    2:{ cbn [heap]. now rewrite resolve_alloc. }
    unfold bind at 1 in H.
    edestruct (extract_loop_nullish E (List.length (heap s)) ts Hex [])
      as (msg & s' & Hx & _).
    rewrite Hx in H. discriminate.
Qed.

Variable reg : Agents.registry.

Local Abbreviation ok := (emits E (registered reg)).

Lemma emits_invoke (q args : value) :
  ok (Agents.invoke E (Agents.Map_get q reg) args).
Proof.
  destruct (Agents.Map_get q reg) eqn:Hq; try apply emits_throw.
  intros s r s' H. cbn in H.
  destruct (call E f args (world s)) as [o w].
  assert (s' = mkState (heap s) w (log s ++ [EvCall f args])) as ->
    by (destruct o; inversion H; reflexivity).
  exists [EvCall f args]. split; [reflexivity|].
  repeat constructor. cbn. eapply Map_get_in, Hq.
Qed.

Lemma emits_resolve_call (toolCall : value) :
  ok (Agents.resolve_call E toolCall reg).
Proof.
  unfold Agents.resolve_call.
  apply emits_bind; [apply emits_member | intros fn].
  apply emits_bind.
  - destruct (truthy _); [|apply emits_ret].
    apply emits_try_catch.
    + apply emits_bind; [|intros; apply emits_invoke].
      destruct (truthy _); [|apply emits_ret].
      unfold Agents.parse.
      destruct (get_prop fn "arguments"); try apply emits_ret.
      destruct (JSON_parse E s); [apply emits_ret | apply emits_throw].
    + intros t. apply emits_bind; [|intros; apply emits_ret].
      destruct t; [apply emits_ret | apply emits_member].
  - intros result. apply emits_bind;
      [apply emits_member | intros; apply emits_ret].
Qed.

Lemma emits_resolve_loop (toolCalls : list value) :
  ok (Agents.resolve_loop E toolCalls reg).
Proof.
  induction toolCalls as [|tc rest IH]; cbn; [apply emits_ret|].
  apply emits_bind; [apply emits_resolve_call | intros r].
  apply emits_bind; [apply IH | intros; apply emits_ret].
Qed.

Lemma emits_push_results P cm results :
  emits E P (Agents.push_results E cm results).
Proof.
  induction results as [|x rest IH]; cbn; [apply emits_ret|].
  apply emits_bind; [apply emits_push | intros; apply IH].
Qed.

Lemma emits__executeAgent (p : Agents.payload) :
  ok (Agents._executeAgent E client p).
Proof.
  intros s r s' H. unfold Agents._executeAgent in H.
  apply request_trace in H as (l & Hl & Hf).
  eexists. split; [exact Hl|]. constructor; [reflexivity|].
  eapply Forall_impl; [exact Hf|]. intros [ | | | ]; cbn; tauto.
Qed.

Lemma emits_run_loop cm maxIterations remaining :
  forall p,
    ok (Agents.run_loop E client remaining maxIterations reg cm p).
Proof.
  induction remaining as [|n IH]; intros p; cbn [Agents.run_loop].
  - apply emits_throw.
  - apply emits_bind; [apply emits__executeAgent | intros response].
    apply emits_bind; [apply emits_member | intros _].
    destruct (negb _); [apply emits_ret|].
    destruct (_ || _); [apply emits_ret|].
    apply emits_bind.
    { unfold Agents._executeToolCallbacks.
      apply emits_bind; [apply emits_elements|].
      intros; apply emits_resolve_loop. }
    intros results.
    repeat (apply emits_bind; [apply emits_member | intros ?]).
    apply emits_bind; [apply emits_push | intros _].
    apply emits_bind; [apply emits_push_results | intros _].
    apply IH.
Qed.

End Permitted.

Section RunPermitted.

Variable E : Env.
Variable client : Transport.Agentlify.

Lemma run_trace (params : Agents.AgentRunParams) (s : state (World E))
    (ts : list value) r s' :
  resolve (heap s) (given_tools params) = VArr ts ->
  Agents.run E client params s = (r, s') ->
  exists l, log s' = log s ++ l /\ Forall (permitted ts) l.
Proof.
  intros Hts H. unfold Agents.run in H.
  assert (Hnil : forall st : state (World E),
             exists l, log st = log st ++ l /\ Forall (permitted ts) l)
    by (intros st; exists []; split; [now rewrite app_nil_r | constructor]).
  destruct (negb (truthy (Agents.agentId params)));
    [inversion H; subst; apply Hnil|].
  destruct (negb _ || negb _); [inversion H; subst; apply Hnil|].
  fold (given_tools params) in H.
  apply bind_inv in H as [(t & H & ->)|([c reg] & s1 & H1 & H)].
  { eapply emits__extractToolCallbacks, H. }
  pose proof (extract_registry E _ ts _ _ _ _ H1 Hts) as ->.
  apply (emits__extractToolCallbacks E (permitted ts)) in H1
    as (l1 & Hl1 & F1).
  cbn [fst snd] in H.
  eapply (emits_bind E (registered (registry_of ts))) in H.
  - destruct H as (l2 & Hl2 & F2). exists (l1 ++ l2). split.
    + now rewrite Hl2, Hl1, app_assoc.
    + apply Forall_app. split; [exact F1|].
      eapply Forall_impl; [exact F2|].
      intros [ep d|c0|ms|f a]; cbn; auto.
      intros [k Hin]. unfold registry_of in Hin.
      apply fold_register_entries in Hin as [[]|(_ & g & t & Hg & Ht & Hc)].
      inversion Hg; subst g. eauto.
  - apply emits_contents.
  - intros cleaned.
    apply emits_bind; [apply emits_elements | intros copy].
    apply emits_bind; [apply emits_alloc | intros cm].
    apply emits_run_loop.
Qed.

(** X20. Whatever the server answers, [run] does nothing but talk to
    [/agents] and invoke callbacks that the caller passed in [tools]:
    every transport call it makes goes to that endpoint, and every
    function it invokes is the [callback] of one of the given tools. *)
Theorem run_invokes_only_given_callbacks (params : Agents.AgentRunParams)
    (s : state (World E)) (ts : list value) :
  resolve (heap s) (given_tools params) = VArr ts ->
  exists l,
    log (snd (Agents.run E client params s)) = log s ++ l
    /\ Forall (permitted ts) l.
Proof.
  intros Hts. destruct (Agents.run E client params s) as [r s'] eqn:H.
  exact (run_trace params s ts r s' Hts H).
Qed.

End RunPermitted.

(** ** [_handleError] *)

Section HandleError.

Variable E : Env.

(** X21. What [_handleError] throws.  With a response, the class follows
    the status (401 [AuthenticationError], 429 [RateLimitError], any other
    [APIError] carrying the status and the body) and the message is the
    text of the first truthy one of [data.error.message] and
    [data.message], or [Unknown error] when neither is truthy; when these
    two fields are strings or missing, the message is that string and is
    never empty.  Without a response it is an [AgentlifyError] saying
    [Network error: No response received] when a request was made and
    [Request error: <message>] otherwise. *)
Theorem handled_errors_carry_a_message (error : axios_error) :
  exists e,
    Transport._handleError E error = Exn e
    /\ match err_response error with
       | Some (status, data) =>
           let m1 := opt_member (opt_member data "error") "message" in
           let m2 := opt_member data "message" in
           cls e = (if status =? 401 then AuthenticationError
                    else if status =? 429 then RateLimitError
                    else APIError)
           /\ (cls e = APIError ->
               JS.status e = Some status /\ response e = data)
           /\ message e
              = VStr (to_string (if truthy m1 then m1
                                 else if truthy m2 then m2
                                 else VStr "Unknown error"))
           /\ (textual m1 -> textual m2 ->
               exists text,
                 message e = VStr text /\ text <> ""%string
                 /\ (truthy m1 = true -> m1 = VStr text)
                 /\ (truthy m1 = false -> truthy m2 = true ->
                     m2 = VStr text)
                 /\ (truthy m1 = false -> truthy m2 = false ->
                     text = "Unknown error"%string))
       | None =>
           cls e = AgentlifyError
           /\ message e
              = VStr (if err_request error
                      then "Network error: No response received"
                      else "Request error: "
                           +:+ to_string (err_message error))
       end.
Proof.
  unfold Transport._handleError.
  destruct (err_response error) as [[status data]|].
  - set (m1 := opt_member (opt_member data "error") "message").
    set (m2 := opt_member data "message").
    assert (Hmsg : Transport.errorMessage data
                   = if truthy m1 then m1
                     else if truthy m2 then m2 else VStr "Unknown error").
    { unfold Transport.errorMessage, or_else. fold m1 m2.
      destruct (truthy m1) eqn:H1; [now rewrite H1|].
      destruct (truthy m2) eqn:H2; reflexivity. }
    assert (Htext : textual m1 -> textual m2 ->
              exists text,
                VStr (to_string (Transport.errorMessage data)) = VStr text
                /\ text <> ""%string
                /\ (truthy m1 = true -> m1 = VStr text)
                /\ (truthy m1 = false -> truthy m2 = true -> m2 = VStr text)
                /\ (truthy m1 = false -> truthy m2 = false ->
                    text = "Unknown error"%string)).
    { intros T1 T2. rewrite Hmsg.
      assert (Hne : forall t, truthy (VStr t) = true -> t <> ""%string).
      { intros t Ht ->. discriminate Ht. }
      destruct (truthy m1) eqn:H1.
      - destruct T1 as [T1|[t ->]]; [congruence|].
        exists t. repeat split; auto; discriminate.
      - destruct (truthy m2) eqn:H2.
        + destruct T2 as [T2|[t ->]]; [congruence|].
          exists t. repeat split; auto; discriminate.
        + exists "Unknown error"%string. repeat split; auto; discriminate. }
    destruct (status =? 401) eqn:E401;
      [|destruct (status =? 429) eqn:E429;
        [|destruct (status =? 400); destruct (status =? 422)]];
      eexists; (split; [reflexivity|]);
      cbn [cls message JS.status response]; rewrite <- Hmsg;
      (split; [reflexivity|]);
      (split; [intros Hc; try discriminate Hc; split; reflexivity|]);
      (split; [reflexivity | exact Htext]).
  - destruct (err_request error); eexists; (split; [reflexivity|]);
      cbn [message cls new_Error]; auto.
Qed.

End HandleError.

(** ** A rejection without a message *)

Section NullishRejection.

Variable E : Env.

(** X22. The [catch] block of [_executeToolCallbacks] reads
    [error.message]: when a registered callback throws (or rejects with)
    [undefined] or [null], that read is itself a [TypeError], which leaves
    [_executeToolCallbacks] instead of becoming an error result; the
    remaining tool calls are not resolved. *)
Theorem nullish_rejection_escapes (toolCall : value) (rest : list value)
    (reg : Agents.registry) (f : nat) (args v : value) (w : World E)
    (s : state (World E)) :
  nullish toolCall = false ->
  Agents.Map_get (name_of toolCall) reg = VFun f ->
  arguments_value E toolCall = Some args ->
  call E f args (world s) = (Raise (Raw v), w) ->
  nullish v = true ->
  Agents._executeToolCallbacks E (VArr (toolCall :: rest)) reg s
  = (Throw (new_Error TypeError
              ("Cannot read properties of " +:+ to_string v
               +:+ " (reading 'message')")),
     mkState (heap s) w (log s ++ [EvCall f args])).
Proof.
  intros Hnn Hcb Hargs Hcall Hv.
  unfold Agents._executeToolCallbacks, bind at 1, elements.
  cbn [resolve iterate Agents.resolve_loop].
  unfold bind at 1, Agents.resolve_call.
  unfold bind at 1. rewrite (member_ok _ _ _ Hnn).
  unfold name_of in Hcb. rewrite Hcb. cbn [truthy].
  unfold arguments_value in Hargs.
  set (fn := get_prop toolCall "function") in *.
  set (a := opt_member fn "arguments") in *.
  assert (Hga : truthy a = true -> get_prop fn "arguments" = a).
  { subst a. unfold opt_member. destruct (nullish fn); [discriminate | auto]. }
  assert (Hin : (if truthy a
                 then match get_prop fn "arguments" with
                      | VStr text => Agents.parse E text
                      | other => ret other
                      end
                 else ret (VObj [])) s = (Ok args, s)).
  { destruct (truthy a) eqn:Ha; [|now inversion Hargs].
    rewrite (Hga eq_refl). unfold Agents.parse.
    destruct a; try (now inversion Hargs).
    destruct (JSON_parse E s0); now inversion Hargs. }
  unfold bind at 1, try_catch. unfold bind at 1. rewrite Hin.
  cbn [Agents.invoke]. rewrite Hcall.
  unfold bind at 1. cbn [Agents.error_message]. unfold member.
  rewrite Hv. reflexivity.
Qed.

End NullishRejection.

(** ** The further properties at concrete inputs *)

(** X2 against a server that is down twice *)
Lemma request_recovers_after_failures_witness :
  exists s',
    Transport.request Fixtures.flaky Scenario.the_client (VStr "/agents")
      (VObj []) (Scenario.caller_state 0)
    = (Ok (Scenario.stop_body "hello"), s')
    /\ http_attempts (log s') = 3%nat
    /\ sleeps (log s') = [1000; 2000].
Proof.
  destruct (request_recovers_after_failures Fixtures.flaky
              Scenario.the_client (VStr "/agents") []
              (Scenario.caller_state 0) 2
              (VObj [("status", VNum 200);
                     ("data", Scenario.stop_body "hello")]))
    as (s' & Hrun & Ha & Hs & _).
  - cbn. lia.
  - intros i Hi. destruct i as [|[|i]]; [| |lia];
      (eexists; split; [reflexivity | exact I]).
  - reflexivity.
  - reflexivity.
  - exists s'. split; [exact Hrun|]. split; [exact Ha | exact Hs].
Defined.

(** X3: an explicit [method: 0] is kept, a [url] among the options wins
    over the endpoint. *)
Lemma make_config_options_win_witness :
  let opts := [("method", VNum 0); ("url", VStr "/other")] in
  get_prop (Transport.make_config (VStr "/agents") (VObj opts)) "method"
  = VNum 0
  /\ get_prop (Transport.make_config (VStr "/agents") (VObj opts)) "url"
     = VStr "/other".
Proof.
  intros opts.
  assert (Hnd : NoDup (map fst opts)).
  { repeat constructor; cbn; intros H;
      repeat (apply elem_of_cons in H as [H|H]; [discriminate|]);
      now apply elem_of_nil in H. }
  split.
  - exact (make_config_options_win (VStr "/agents") opts "method" Hnd).
  - exact (make_config_options_win (VStr "/agents") opts "url" Hnd).
Defined.

(** X4 against a server that wraps the models in a list object *)
Lemma getModels_returns_the_models_witness :
  fst (Client.getModels Fixtures.models_server Scenario.the_client
         (Scenario.caller_state 0))
  = Ok (VArr Fixtures.models).
Proof.
  refine (proj1 (getModels_returns_the_models Fixtures.models_server
                   Scenario.the_client (Scenario.caller_state 0)
                   Fixtures.models_response Fixtures.models _ _ _)).
  - discriminate.
  - intros config. reflexivity.
  - right. split; [eexists; reflexivity|]. split; reflexivity.
Defined.

Lemma full_config_constructed :
  Client.constructor Scenario.stops_at_once Fixtures.accept_objects
    Fixtures.full_config (Scenario.caller_state 0)
  = (Ok (Client.mkFields (VStr "mp_123") (VStr "https://modelpilot.co/api")
           (VStr "r1") (VNum 30000) (VObj []) (VNum 3)),
     Scenario.caller_state 0).
Proof. reflexivity. Qed.

(** X5 for a configuration with [maxRetries: 0] and no [timeout] *)
Lemma constructor_establishes_fields_witness :
  exists this s',
    Client.constructor Scenario.stops_at_once Fixtures.accept_objects
      Fixtures.full_config (Scenario.caller_state 0) = (Ok this, s')
    /\ truthy (Client.routerId this) = true
    /\ truthy (Client.maxRetries this) = true
    /\ Client.maxRetries this = VNum 3
    /\ Client.timeout this = VNum 30000.
Proof.
  eexists _, _. split; [exact full_config_constructed|].
  destruct (constructor_establishes_fields Scenario.stops_at_once
              Fixtures.accept_objects Fixtures.full_config
              (Scenario.caller_state 0) _ _ full_config_constructed)
    as (_ & Hrid & _ & _ & _ & Hmax & Hdef).
  destruct (Hdef Fixtures.full_config eq_refl) as (Hm & Ht & _).
  split; [exact Hrid|]. split; [exact Hmax|].
  split; [apply Hm | apply Ht]; reflexivity.
Defined.

(** X6: a number is refused by [validateConfig], a key of another vendor
    gives the key-format error although the router is missing too, and a
    good key without a router gives the router-id error. *)
Lemma constructor_rejections_witness :
  let s := Scenario.caller_state 0 in
  Client.constructor Scenario.stops_at_once Fixtures.accept_objects
    (VNum 7) s = (Throw Fixtures.not_an_object, s)
  /\ Client.constructor Scenario.stops_at_once Fixtures.accept_objects
       Fixtures.foreign_key_config s = (Throw Client.key_format_error, s)
  /\ Client.constructor Scenario.stops_at_once Fixtures.accept_objects
       Fixtures.no_router_config s = (Throw Client.router_id_error, s).
Proof.
  intros s. split; [|split].
  - exact (proj1 (constructor_rejections Scenario.stops_at_once
                    Fixtures.accept_objects (VNum 7) s)
             Fixtures.not_an_object eq_refl).
  - exact (proj1 (proj2 (constructor_rejections Scenario.stops_at_once
                           Fixtures.accept_objects
                           Fixtures.foreign_key_config s))
             Fixtures.foreign_key_config "sk_123" eq_refl eq_refl eq_refl).
  - exact (proj2 (proj2 (constructor_rejections Scenario.stops_at_once
                           Fixtures.accept_objects
                           Fixtures.no_router_config s))
             Fixtures.no_router_config "mp_123" eq_refl eq_refl eq_refl
             eq_refl).
Defined.

(** X7 against a server that is down for good *)
Lemma zero_maxRetries_still_retries_witness :
  exists e s1,
    Transport.request Scenario.always_down (Transport.mkAgentlify 3)
      (VStr "/agents") (VObj []) (Scenario.caller_state 0) = (Throw e, s1)
    /\ http_attempts (log s1) = 4%nat
    /\ sleeps (log s1) = [1000; 2000; 4000].
Proof.
  destruct (zero_maxRetries_still_retries Scenario.always_down
              Fixtures.accept_objects Fixtures.full_config
              Fixtures.full_config (Scenario.caller_state 0)
              (Client.mkFields (VStr "mp_123")
                 (VStr "https://modelpilot.co/api") (VStr "r1")
                 (VNum 30000) (VObj []) (VNum 3))
              (Scenario.caller_state 0) (VStr "/agents") []
              (Scenario.caller_state 0) eq_refl eq_refl eq_refl)
    as (_ & e & s1 & Hrun & Ha & Hs).
  - intros w. eexists. split; [reflexivity | exact I].
  - exists e, s1. split; [exact Hrun|]. split; [exact Ha | exact Hs].
Defined.

(** X8: of two tools named [calc], the second one's callback is kept; the
    third tool of that name has no callback and changes nothing. *)
Lemma last_registered_callback_wins_witness :
  Agents.Map_get (VStr "calc")
    (registry_of [Scenario.calc_tool 0; Scenario.calc_tool 1;
                  Fixtures.plain_tool "calc"])
  = VFun 1.
Proof.
  refine (last_registered_callback_wins [Scenario.calc_tool 0]
            [Fixtures.plain_tool "calc"] (Scenario.calc_tool 1) "calc" 1
            _ _ _).
  - discriminate.
  - split; reflexivity.
  - repeat constructor. intros g [H _]. discriminate H.
Defined.

(** X9 for a call to [search] when only [calc] is registered *)
Lemma unregistered_name_is_undefined_witness :
  Agents.Map_get (VStr "search") (registry_of [Scenario.calc_tool 0])
  = VUndefined
  /\ Agents._executeToolCallbacks Scenario.stops_at_once
       (VArr [Scenario.tool_call "c9" "search" "{}"])
       (registry_of [Scenario.calc_tool 0]) (Scenario.caller_state 0)
     = (Ok [VObj [("tool_call_id", VStr "c9");
                  ("content",
                   VObj [("error",
                          VStr "No callback registered for tool: search")])]],
        Scenario.caller_state 0).
Proof.
  refine (unregistered_name_is_undefined [Scenario.calc_tool 0] "search"
            (Scenario.tool_call "c9" "search" "{}") Scenario.stops_at_once
            (Scenario.caller_state 0) _ _ eq_refl eq_refl).
  - discriminate.
  - repeat constructor. intros g [_ H]. discriminate H.
Defined.

(** X10 for the registry of one tool *)
Lemma registry_holds_callbacks_of_tools_witness :
  In (VStr "calc", VFun 0) (registry_of [Scenario.calc_tool 0])
  /\ exists f t,
       VFun 0 = VFun f /\ In t [Scenario.calc_tool 0]
       /\ get_prop t "callback" = VFun f.
Proof.
  assert (Hin : In (VStr "calc", VFun 0) (registry_of [Scenario.calc_tool 0]))
    by (left; reflexivity).
  split; [exact Hin|].
  exact (proj2 (registry_holds_callbacks_of_tools [Scenario.calc_tool 0]
                  (VStr "calc") (VFun 0) Hin)).
Defined.

(** X11 for the caller's tool list *)
Lemma extract_again_changes_nothing_witness :
  exists c1 reg1 s1 c2 s2 cleaned,
    Agents._extractToolCallbacks Scenario.stops_at_once (ArrayRef 1%nat)
      (Scenario.caller_state 0) = (Ok (c1, reg1), s1)
    /\ heap s1 !! c1 = Some cleaned
    /\ Agents._extractToolCallbacks Scenario.stops_at_once (ArrayRef c1) s1
       = (Ok (c2, []), s2)
    /\ heap s2 !! c2 = Some cleaned
    /\ heap s2 !! c1 = Some cleaned.
Proof.
  refine (extract_again_changes_nothing Scenario.stops_at_once
            (ArrayRef 1%nat) [Scenario.calc_tool 0]
            (Scenario.caller_state 0) eq_refl _).
  repeat constructor.
Defined.

(** X12 for a call to [calc] followed by a call to an unknown tool: one
    invocation, of callback 0 with the parsed arguments. *)
Lemma callbacks_run_in_call_order_witness :
  exists results s',
    Agents._executeToolCallbacks Scenario.stops_at_once
      (VArr [Scenario.tool_call "A" "calc" "{}";
             Scenario.tool_call "B" "search" "{}"])
      (Scenario.calc_registry 0) (Scenario.loop_state 0)
    = (Ok results, s')
    /\ calls (log s') = [(0%nat, VObj [])].
Proof.
  destruct (callbacks_run_in_call_order Scenario.stops_at_once
              [Scenario.tool_call "A" "calc" "{}";
               Scenario.tool_call "B" "search" "{}"]
              (Scenario.calc_registry 0) (Scenario.loop_state 0)
              (scripted_callbacks_report _ _))
    as (results & s' & Hrun & Hcalls).
  - repeat constructor.
  - exists results, s'. split; [exact Hrun|]. rewrite Hcalls. reflexivity.
Defined.

(** X13 against a server that asks for [calc]: callback 0 is not
    invoked and the caller's two arrays are as before. *)
Lemma execute_invokes_no_callback_witness :
  let out := Agents.execute Scenario.always_calc Scenario.the_client
               (Scenario.params_with (VNum 3)) (Scenario.caller_state 0) in
  calls (log (snd out)) = []
  /\ heap (snd out) !! 0%nat = Some [Scenario.user_message]
  /\ heap (snd out) !! 1%nat = Some [Scenario.calc_tool 0].
Proof.
  intros out.
  destruct (execute_invokes_no_callback Scenario.always_calc
              Scenario.the_client (Scenario.params_with (VNum 3))
              (Scenario.caller_state 0) eq_refl) as (Hc & Hh & _).
  split; [exact Hc|].
  split; [apply (Hh 0%nat) | apply (Hh 1%nat)]; cbn; lia.
Defined.

(** X14 against a server that asks for [calc]: [execute] returns the
    request for tools. *)
Lemma execute_returns_first_answer_witness :
  fst (Agents.execute Scenario.always_calc Scenario.the_client
         (Scenario.params_with (VNum 3)) (Scenario.caller_state 0))
  = Ok (Scenario.tool_body [Scenario.tool_call "call_1" "calc" "{}"]).
Proof.
  destruct (caller_state_valid 0 (VNum 3)) as (Hv & Hin & _).
  destruct (execute_returns_first_answer Scenario.always_calc
              Scenario.the_client (Scenario.params_with (VNum 3))
              (Scenario.caller_state 0)
              (VObj [("status", VNum 200);
                     ("data", Scenario.tool_body
                                [Scenario.tool_call "call_1" "calc" "{}"])])
              [Scenario.calc_tool 0] Hv Hin eq_refl)
    as (s' & Hrun & _).
  - discriminate.
  - intros config. reflexivity.
  - reflexivity.
  - rewrite Hrun. reflexivity.
Defined.

(** X15 for a tool list with a [null] in it *)
Lemma nullish_tool_stops_run_only_witness :
  (exists msg s',
     Agents.run Scenario.stops_at_once Scenario.the_client
       (Scenario.params_with (VNum 3)) Fixtures.holed_state
     = (Throw (new_Error TypeError msg), s')
     /\ log s' = [])
  /\ transport_calls
       (log (snd (Agents.execute Scenario.stops_at_once Scenario.the_client
                    (Scenario.params_with (VNum 3)) Fixtures.holed_state)))
     = 1%nat.
Proof.
  destruct (caller_state_valid 0 (VNum 3)) as (Hv & _ & _).
  refine (nullish_tool_stops_run_only Scenario.stops_at_once
            Scenario.the_client (Scenario.params_with (VNum 3))
            Fixtures.holed_state [Scenario.calc_tool 0; VNull] Hv eq_refl _).
  constructor 2. constructor 1. reflexivity.
Defined.

(** X16 against a server that answers at once *)
Lemma run_agrees_with_execute_witness :
  let out := Agents.execute Scenario.stops_at_once Scenario.the_client
               (Scenario.params_with (VNum 3)) (Scenario.caller_state 0) in
  exists sr,
    Agents.run Scenario.stops_at_once Scenario.the_client
      (Scenario.params_with (VNum 3)) (Scenario.caller_state 0)
    = (Ok (Scenario.stop_body "hello"), sr)
    /\ world sr = world (snd out)
    /\ log sr = log (snd out).
Proof.
  intros out.
  destruct (caller_state_valid 0 (VNum 3)) as (Hv & Hin & Htools).
  refine (run_agrees_with_execute Scenario.stops_at_once Scenario.the_client
            (Scenario.params_with (VNum 3)) (Scenario.caller_state 0)
            (snd out) (Ok (Scenario.stop_body "hello"))
            Hv Hin Htools _ _ _).
  - cbn. lia.
  - vm_compute. reflexivity.
  - split; [reflexivity|]. left. split; [discriminate | reflexivity].
Defined.

Lemma asks_until_answered_callbacks_report :
  callbacks_report Fixtures.asks_until_answered.
Proof.
  intros f args w. cbn. destruct f as [|[|f]]; cbn; eauto.
Qed.

(** X17 against a server that asks for [calc] until it sees a tool
    result: two transport calls with one invocation of callback 0 in
    between, and the final answer returned. *)
Lemma run_one_tool_round_witness :
  exists s',
    Agents.run Fixtures.asks_until_answered Scenario.the_client
      (Scenario.params_with (VNum 3)) (Scenario.caller_state 0)
    = (Ok (Scenario.stop_body "4"), s')
    /\ calls (log s') = [(0%nat, VObj [])]
    /\ transport_calls (log s') = 2%nat.
Proof.
  destruct (caller_state_valid 0 (VNum 3)) as (Hv & Hin & _).
  destruct (run_one_tool_round Fixtures.asks_until_answered
              Scenario.the_client (Scenario.params_with (VNum 3))
              (Scenario.caller_state 0) [Scenario.user_message]
              [Scenario.calc_tool 0]
              [Scenario.tool_call "call_1" "calc" "{}"]
              Fixtures.calc_request Fixtures.final_answer
              Hv Hin eq_refl eq_refl eq_refl)
    as (s' & b1 & c1 & b2 & c2 & Hrun & Hlog).
  - repeat constructor.
  - cbn. lia.
  - discriminate.
  - exact asks_until_answered_callbacks_report.
  - intros config w. reflexivity.
  - reflexivity.
  - reflexivity.
  - discriminate.
  - repeat constructor.
  - reflexivity.
  - left. split; [discriminate | reflexivity].
  - exists s'. split; [exact Hrun|]. rewrite Hlog. split; reflexivity.
Defined.

(** X20 against a server that asks for [calc] once *)
Lemma run_invokes_only_given_callbacks_witness :
  exists l,
    log (snd (Agents.run Scenario.calc_then_stop Scenario.the_client
                (Scenario.params_with (VNum 3)) (Scenario.caller_state 0)))
    = log (Scenario.caller_state 0) ++ l
    /\ Forall (permitted [Scenario.calc_tool 0]) l.
Proof.
  exact (run_invokes_only_given_callbacks Scenario.calc_then_stop
           Scenario.the_client (Scenario.params_with (VNum 3))
           (Scenario.caller_state 0) [Scenario.calc_tool 0] eq_refl).
Defined.

(** X22 for a callback that rejects with [undefined]: the second call is
    never resolved. *)
Lemma nullish_rejection_escapes_witness :
  Agents._executeToolCallbacks Fixtures.rejects_with_undefined
    (VArr [Scenario.tool_call "A" "calc" "{}";
           Scenario.tool_call "B" "calc" "{}"])
    (Scenario.calc_registry 0) (Scenario.loop_state 0)
  = (Throw (new_Error TypeError
              "Cannot read properties of undefined (reading 'message')"),
     mkState (heap (Scenario.loop_state 0)) 0%nat [EvCall 0 (VObj [])]).
Proof.
  exact (nullish_rejection_escapes Fixtures.rejects_with_undefined
           (Scenario.tool_call "A" "calc" "{}")
           [Scenario.tool_call "B" "calc" "{}"]
           (Scenario.calc_registry 0) 0 (VObj []) VUndefined 0%nat
           (Scenario.loop_state 0) eq_refl eq_refl eq_refl eq_refl eq_refl).
Defined.

(** ** A completing answer at any round *)

Lemma assistant_turns_extended (ms results : list value) (content tcs : value) :
  assistant_turns
    (VArr (ms ++ Agents.assistant_message content tcs
              :: map Agents.tool_message results))
  = S (assistant_turns (VArr ms)).
Proof.
  unfold assistant_turns. rewrite List.filter_app, length_app.
  cbn [List.filter].
  assert (Ha : strict_eq_str
                 (get_prop (Agents.assistant_message content tcs) "role")
                 "assistant" = true) by reflexivity.
  rewrite Ha.
  assert (Hnone : List.filter
                    (fun m => strict_eq_str (get_prop m "role") "assistant")
                    (map Agents.tool_message results) = []).
  { induction results as [|r rs IH]; [reflexivity|]. cbn [map List.filter].
    assert (Ht : strict_eq_str (get_prop (Agents.tool_message r) "role")
                   "assistant" = false) by reflexivity.
    rewrite Ht. exact IH. }
  rewrite Hnone. cbn [List.length]. lia.
Qed.

Section AnyRound.

Variable E : Env.
Variable client : Transport.Agentlify.
Variable script : nat -> value.

Hypothesis Hserver : follows_script E script.
Hypothesis Hcallbacks : callbacks_report E.
Hypothesis Hretries : 0 <= Transport.maxRetries client.

(** What the server answers to the request of a round *)
Lemma round_answered (p : Agents.payload) (s : state (World E))
    (msgs : list value) :
  resolve (heap s) (Agents.p_messages p) = VArr msgs ->
  nullish (script (assistant_turns (VArr msgs))) = false ->
  exists s1,
    Agents._executeAgent E client p s
    = (Ok (get_prop (script (assistant_turns (VArr msgs))) "data"), s1)
    /\ heap s1 = heap s
    /\ transport_calls (log s1) = S (transport_calls (log s)).
Proof.
  intros Hmsgs Hresp.
  set (options := [("method", VStr "POST");
                    ("data", Agents.payload_value (heap s) p)]).
  set (config := Transport.make_config (VStr "/agents") (VObj options)).
  assert (Hsub : submitted_messages config = VArr msgs).
  { unfold config, options. rewrite submitted_messages_payload. exact Hmsgs. }
  destruct (http E config (world s)) as [o w] eqn:Hh.
  pose proof (Hserver config (world s)) as Ho.
  rewrite Hh, Hsub in Ho. cbn [fst] in Ho. subst o.
  pose proof (request_answered E client (VStr "/agents") options s
                _ w Hretries Hh Hresp) as Hreq.
  eexists. split; [exact Hreq|]. cbn [heap log]. split; [reflexivity|].
  rewrite transport_calls_app. cbn. lia.
Qed.

(** After [k] rounds in which the server asked for tools, the loop returns
    the answer that completes. *)
Lemma run_loop_settles (B : value) (reg : Agents.registry) (cm : loc) :
  forall (k n : nat) (p : Agents.payload) (s : state (World E))
         (msgs : list value),
    resolve (heap s) (Agents.p_messages p) = VArr msgs ->
    heap s !! cm = Some msgs ->
    (forall i, (i < k)%nat ->
       requests_tools
         (get_prop (script (assistant_turns (VArr msgs) + i)) "data")) ->
    nullish (get_prop (script (assistant_turns (VArr msgs) + k)) "data")
    = false ->
    completes (get_prop (script (assistant_turns (VArr msgs) + k)) "data") ->
    exists s',
      Agents.run_loop E client (S (k + n)) B reg cm p s
      = (Ok (get_prop (script (assistant_turns (VArr msgs) + k)) "data"), s')
      /\ transport_calls (log s') = (transport_calls (log s) + S k)%nat.
Proof.
  induction k as [|k IH]; intros n p s msgs Hmsgs Hcm Hasks Hbody Hdone.
  - rewrite Nat.add_0_r in *.
    destruct (round_answered p s msgs Hmsgs (get_prop_not_nullish _ _ Hbody))
      as (s1 & Hexec & _ & Hcount).
    exists s1. split; [|lia].
    apply (run_loop_returns_completed E client _ _ _ _ _ _ _ _
             Hexec Hbody Hdone).
  - pose proof (Hasks 0%nat ltac:(lia)) as Hfirst.
    rewrite Nat.add_0_r in Hfirst.
    pose proof (requests_tools_not_nullish _ Hfirst) as Hb1.
    destruct Hfirst as (Hneeds & tcs & Hpend & Hne & Htcs).
    destruct (round_answered p s msgs Hmsgs (get_prop_not_nullish _ _ Hb1))
      as (s1 & Hexec & Hh1 & Hc1).
    destruct (_executeToolCallbacks_trace E tcs reg s1 Hcallbacks Htcs)
      as (results & s2 & Hres & _ & _).
    pose proof (quiet__executeToolCallbacks E _ _ _ _ _ Hres) as [Hh2 Hc2].
    assert (Hcm2 : heap s2 !! cm = Some msgs) by now rewrite Hh2, Hh1.
    change (S (S k + n)) with (S (S (k + n))).
    rewrite (run_loop_step E client (S (k + n)) B reg cm p s s1 s2 _ tcs
               results msgs Hexec Hb1 Hneeds Hpend Hne Hres Hcm2).
    match goal with
      |- context [Agents.run_loop E client _ _ _ _ ?x ?st] =>
        set (p' := x); set (s3 := st) end.
    set (msgs' := msgs ++ Agents.assistant_message
                            (content_of (get_prop (script
                               (assistant_turns (VArr msgs))) "data"))
                            (VArr tcs)
                       :: map Agents.tool_message results).
    assert (Hcm3 : heap s3 !! cm = Some msgs').
    { unfold s3. cbn [heap].
      apply list_lookup_insert_eq. eapply lookup_lt_Some, Hcm2. }
    assert (Hmsgs' : resolve (heap s3) (Agents.p_messages p') = VArr msgs').
    { unfold p', resolve. cbn [Agents.p_messages]. now rewrite Hcm3. }
    assert (Hturns : assistant_turns (VArr msgs')
                     = S (assistant_turns (VArr msgs)))
      by apply assistant_turns_extended.
    destruct (IH n p' s3 msgs' Hmsgs' Hcm3) as (s' & Hrun & Hcount).
    + intros i Hi. rewrite Hturns.
      replace (S (assistant_turns (VArr msgs)) + i)%nat
        with (assistant_turns (VArr msgs) + S i)%nat by lia.
      apply Hasks. lia.
    + rewrite Hturns.
      replace (S (assistant_turns (VArr msgs)) + k)%nat
        with (assistant_turns (VArr msgs) + S k)%nat by lia.
      exact Hbody.
    + rewrite Hturns.
      replace (S (assistant_turns (VArr msgs)) + k)%nat
        with (assistant_turns (VArr msgs) + S k)%nat by lia.
      exact Hdone.
    + rewrite Hturns in Hrun.
      replace (S (assistant_turns (VArr msgs)) + k)%nat
        with (assistant_turns (VArr msgs) + S k)%nat in Hrun by lia.
      exists s'. split; [exact Hrun|].
      rewrite Hcount. unfold s3. cbn [log]. lia.
Qed.

(** The same for [run]: the caller's conversation is the one of the first
    round. *)
Lemma run_settles (params : Agents.AgentRunParams) (s : state (World E))
    (ms ts : list value) (k : nat) :
  passes_validation params ->
  in_store (heap s) (Agents.messages params) ->
  resolve (heap s) (Agents.messages params) = VArr ms ->
  resolve (heap s) (given_tools params) = VArr ts ->
  Forall (fun t => nullish t = false) ts ->
  (k < Agents.iterations (maxIterations params))%nat ->
  (forall i, (i < k)%nat ->
     requests_tools
       (get_prop (script (assistant_turns (VArr ms) + i)) "data")) ->
  nullish (get_prop (script (assistant_turns (VArr ms) + k)) "data") = false ->
  completes (get_prop (script (assistant_turns (VArr ms) + k)) "data") ->
  exists s',
    Agents.run E client params s
    = (Ok (get_prop (script (assistant_turns (VArr ms) + k)) "data"), s')
    /\ transport_calls (log s') = (transport_calls (log s) + S k)%nat.
Proof.
  intros Hv Hin Hms Hts Hnn Hk Hasks Hbody Hdone.
  rewrite (run_setup E client params s ts ms Hv Hin Hms Hts Hnn).
  replace (Agents.iterations (maxIterations params))
    with (S (k + (Agents.iterations (maxIterations params) - S k)))%nat
    by lia.
  match goal with
    |- context [Agents.run_loop E client _ ?B ?reg ?cm ?p ?st] =>
      destruct (run_loop_settles B reg cm k
                  (Agents.iterations (maxIterations params) - S k)
                  p st ms) as (s' & Hrun & Hcount) end; auto.
  - cbn [Agents.p_messages heap]. now rewrite (resolve_app _ _ _ Hin).
  - cbn [heap].
    change (heap s ++ [map Agents.toolDef_of ts; ms])
      with (heap s ++ map Agents.toolDef_of ts :: [ms]).
    rewrite lookup_app_r by lia.
    replace (S (List.length (heap s)) - List.length (heap s))%nat
      with 1%nat by lia.
    reflexivity.
  - exists s'. split; [exact Hrun | exact Hcount].
Qed.

End AnyRound.

Section FinalResponse.

Variable E : Env.
Variable client : Transport.Agentlify.

(** C6. An answer of the server that does not signal tool execution (its
    first choice's [finish_reason] is not [tool_calls] and
    [agent_metadata] does not flag [requires_tool_execution]), or that
    carries no tool-call list or an empty one, is returned by [run]
    unchanged, at whatever round it arrives.  First part: at any round of
    the loop, in any state, a completing answer to the request of that
    round is what the loop returns, with nothing invoked or appended after
    the request.  Second part: when the server asks for tools in the first
    [k] rounds and then sends a completing answer, [run] returns that
    answer after [k + 1] transport calls.  Third part: when the first
    answer completes, [run] returns it after one transport call. *)
Theorem run_returns_final_response :
  (forall (n : nat) (B : value) (reg : Agents.registry) (cm : loc)
          (p : Agents.payload) (s s1 : state (World E)) (body : value),
      Agents._executeAgent E client p s = (Ok body, s1) ->
      nullish body = false ->
      completes body ->
      Agents.run_loop E client (S n) B reg cm p s = (Ok body, s1))
  /\ (forall (script : nat -> value) (params : Agents.AgentRunParams)
             (s : state (World E)) (ms ts : list value) (k : nat),
        follows_script E script ->
        callbacks_report E ->
        0 <= Transport.maxRetries client ->
        passes_validation params ->
        in_store (heap s) (Agents.messages params) ->
        resolve (heap s) (Agents.messages params) = VArr ms ->
        resolve (heap s) (given_tools params) = VArr ts ->
        Forall (fun t => nullish t = false) ts ->
        (k < Agents.iterations (maxIterations params))%nat ->
        (forall i, (i < k)%nat ->
           requests_tools
             (get_prop (script (assistant_turns (VArr ms) + i)%nat) "data")) ->
        let body :=
          get_prop (script (assistant_turns (VArr ms) + k)%nat) "data" in
        nullish body = false ->
        completes body ->
        fst (Agents.run E client params s) = Ok body
        /\ transport_calls (log (snd (Agents.run E client params s)))
           = (transport_calls (log s) + S k)%nat)
  /\ (forall (params : Agents.AgentRunParams) (s : state (World E))
             (response : value),
        passes_validation params ->
        in_store (heap s) (Agents.messages params) ->
        tools_well_formed (heap s) params ->
        (1 <= Agents.iterations (maxIterations params))%nat ->
        0 <= Transport.maxRetries client ->
        (forall config, fst (http E config (world s)) = HttpOk response) ->
        nullish (get_prop response "data") = false ->
        completes (get_prop response "data") ->
        fst (Agents.run E client params s) = Ok (get_prop response "data")
        /\ transport_calls (log (snd (Agents.run E client params s)))
           = S (transport_calls (log s))).
Proof.
  split; [|split].
  - intros n B reg cm p s s1 body Hexec Hbody Hdone.
    exact (run_loop_returns_completed E client n B reg cm p s s1 body
             Hexec Hbody Hdone).
  - intros script params s ms ts k Hsrv Hcb Hr Hv Hin Hms Hts Hnn Hk Hasks
           body Hbody Hdone.
    destruct (run_settles E client script Hsrv Hcb Hr params s ms ts k
                Hv Hin Hms Hts Hnn Hk Hasks Hbody Hdone)
      as (s' & Hrun & Hcount).
    rewrite Hrun. split; [reflexivity | exact Hcount].
  - intros params s response. apply run_first_answer_completes.
Qed.

End FinalResponse.

Lemma scripted_by_turns_callbacks_report script :
  callbacks_report (Fixtures.scripted_by_turns script).
Proof.
  intros f args w. cbn. destruct f as [|[|f]]; cbn; eauto.
Qed.

Lemma calc_request_requests_tools :
  requests_tools (get_prop Fixtures.calc_request "data").
Proof.
  split; [reflexivity|]. eexists. split; [reflexivity|].
  split; [discriminate | repeat constructor].
Qed.

(** C6 against a server that asks for [calc] in two rounds and answers in
    the third, and against a server that answers at once *)
Lemma run_returns_final_response_witness :
  fst (Agents.run (Fixtures.scripted_by_turns Fixtures.two_rounds)
         Scenario.the_client (Scenario.params_with (VNum 3))
         (Scenario.caller_state 0))
  = Ok (Scenario.stop_body "4")
  /\ transport_calls
       (log (snd (Agents.run (Fixtures.scripted_by_turns Fixtures.two_rounds)
                    Scenario.the_client (Scenario.params_with (VNum 3))
                    (Scenario.caller_state 0))))
     = 3%nat
  /\ fst (Agents.run Scenario.stops_at_once Scenario.the_client
            (Scenario.params_with (VNum 3)) (Scenario.caller_state 0))
     = Ok (Scenario.stop_body "hello").
Proof.
  destruct (caller_state_valid 0 (VNum 3)) as (Hv & Hin & Htools).
  assert (Hdone : forall text, completes (Scenario.stop_body text)).
  { intros text. left. split; [discriminate | reflexivity]. }
  destruct (proj1 (proj2 (run_returns_final_response
                            (Fixtures.scripted_by_turns Fixtures.two_rounds)
                            Scenario.the_client))
              Fixtures.two_rounds (Scenario.params_with (VNum 3))
              (Scenario.caller_state 0) [Scenario.user_message]
              [Scenario.calc_tool 0] 2%nat)
    as [Hrun Hcount].
  - intros config w. reflexivity.
  - apply scripted_by_turns_callbacks_report.
  - discriminate.
  - exact Hv.
  - exact Hin.
  - reflexivity.
  - reflexivity.
  - repeat constructor.
  - cbn. lia.
  - intros i Hi. destruct i as [|[|i]]; [| |lia];
      exact calc_request_requests_tools.
  - reflexivity.
  - apply Hdone.
  - split; [exact Hrun|]. split; [exact Hcount|].
    refine (proj1 (proj2 (proj2 (run_returns_final_response
                                   Scenario.stops_at_once
                                   Scenario.the_client))
                     (Scenario.params_with (VNum 3))
                     (Scenario.caller_state 0)
                     (VObj [("status", VNum 200);
                            ("data", Scenario.stop_body "hello")])
                     Hv Hin Htools _ _ _ eq_refl (Hdone _))).
    + cbn. lia.
    + discriminate.
    + intros config. reflexivity.
Defined.

(** ** One result per tool call *)

Lemma Map_get_cases (reg : Agents.registry) (q : value) :
  holds_functions reg ->
  Agents.Map_get q reg = VUndefined
  \/ exists f, Agents.Map_get q reg = VFun f.
Proof.
  induction 1 as [|[k v] reg [f Hf] _ IH]; cbn; [auto|].
  destruct (Agents.same_value_zero k q); [|exact IH].
  right. exists f. exact Hf.
Qed.

Lemma tool_message_explicit (result : value) :
  Agents.tool_message result = tool_message_for result.
Proof.
  unfold Agents.tool_message, tool_message_for.
  destruct (get_prop result "content"); reflexivity.
Qed.

Section OneResultPerCall.

Variable E : Env.
Variable client : Transport.Agentlify.

Lemma resolve_call_answers (toolCall : value) (reg : Agents.registry)
    (s : state (World E)) :
  callbacks_report E ->
  holds_functions reg ->
  nullish toolCall = false ->
  exists content s',
    Agents.resolve_call E toolCall reg s
    = (Ok (VObj [("tool_call_id", get_prop toolCall "id");
                 ("content", content)]), s')
    /\ answers E reg toolCall s content s'.
Proof.
  intros Hcb Hfn Hnn. unfold Agents.resolve_call.
  unfold bind at 1. rewrite (member_ok _ _ _ Hnn). fold (name_of toolCall).
  destruct (Map_get_cases reg (name_of toolCall) Hfn) as [Hu|[f Hf]].
  - rewrite Hu. cbn [truthy]. unfold bind. cbn [ret].
    rewrite (member_ok _ _ _ Hnn). eexists _, s.
    split; [reflexivity|]. now apply no_callback.
  - rewrite Hf. cbn [truthy].
    set (fn := get_prop toolCall "function").
    set (a := opt_member fn "arguments").
    assert (Hga : truthy a = true -> get_prop fn "arguments" = a).
    { subst a. unfold opt_member.
      destruct (nullish fn); [discriminate | auto]. }
    set (argsM := if truthy a
                  then match get_prop fn "arguments" with
                       | VStr text => Agents.parse E text
                       | other => ret other
                       end
                  else ret (VObj [])).
    assert (Hargs :
      (exists args, arguments_value E toolCall = Some args
                    /\ argsM s = (Ok args, s))
      \/ (exists text msg,
            a = VStr text /\ text <> ""%string
            /\ JSON_parse E text = inr msg
            /\ argsM s = (Throw (new_Error SyntaxError msg), s))).
    { unfold arguments_value. fold fn a. subst argsM.
      destruct (truthy a) eqn:Ha; [|left; eauto].
      rewrite (Hga eq_refl).
      destruct a as [| | | |text| | |] eqn:Hav; try (left; eauto; fail).
      unfold Agents.parse. destruct (JSON_parse E text) as [v|msg] eqn:Hp.
      - left. eauto.
      - right. exists text, msg. repeat split; auto.
        intros ->. discriminate Ha. }
    unfold bind at 1, try_catch. unfold bind at 1.
    destruct Hargs as [(args & Hav & Hm)|(text & msg & Ha & Hne & Hp & Hm)];
      rewrite Hm.
    + cbn [Agents.invoke]. specialize (Hcb f args (world s)).
      destruct (call E f args (world s)) as [[v|t] w] eqn:Hcall;
        cbn [fst] in Hcb.
      * unfold bind. cbn [ret]. rewrite (member_ok _ _ _ Hnn).
        eexists _, _. split; [reflexivity|].
        now apply (callback_returns E reg toolCall s v _ f args w).
      * destruct Hcb as [m Hmsg]. unfold bind.
        rewrite (error_message_ok E _ _ _ Hmsg). cbn [ret].
        rewrite (member_ok _ _ _ Hnn).
        eexists _, _. split; [reflexivity|].
        apply (callback_or_parse_fails E reg toolCall s _ _ f m);
          [exact Hf | | reflexivity].
        now apply (callback_fails E toolCall f s m _ args t w).
    + cbn [Agents.error_message new_Error message]. unfold bind. cbn [ret].
      rewrite (member_ok _ _ _ Hnn).
      eexists _, _. split; [reflexivity|].
      apply (callback_or_parse_fails E reg toolCall s _ _ f (VStr msg));
        [exact Hf | | reflexivity].
      now apply (parse_fails E toolCall f s (VStr msg) s text msg).
Qed.

Lemma resolve_loop_resolved (toolCalls : list value) (reg : Agents.registry) :
  callbacks_report E ->
  holds_functions reg ->
  Forall (fun tc => nullish tc = false) toolCalls ->
  forall s : state (World E),
  exists results s',
    Agents.resolve_loop E toolCalls reg s = (Ok results, s')
    /\ resolved E reg toolCalls s results s'.
Proof.
  intros Hcb Hfn Hnn. induction Hnn as [|tc rest Htc _ IH]; intros s.
  - exists [], s. split; [reflexivity | constructor].
  - destruct (resolve_call_answers tc reg s Hcb Hfn Htc)
      as (content & s1 & H1 & A1).
    destruct (IH s1) as (results & s2 & H2 & R2).
    cbn [Agents.resolve_loop]. unfold bind. rewrite H1, H2. cbn [ret].
    eexists _, s2. split; [reflexivity|].
    now apply (resolved_cons E reg tc rest s s1 s2 content results).
Qed.

(** X23. With callbacks that, when they fail, throw or reject with a value
    that has a message (anything but [undefined] and [null]), and a
    registry of functions, resolving the tool calls of one response gives
    exactly one result per call in the order of the calls, and the result
    of a call pairs the call's [id] with what that call is answered with:
    the value its callback returns on its parsed arguments, the message of
    the failure as [{error: message}], or the no-callback error.  The
    round of the run loop then appends the assistant message echoing the
    tool calls, followed by one [tool] message per result in that order,
    whose content is the result's content (serialised unless it is a
    string), and the next request carries these messages. *)
Theorem each_result_answers_its_call (toolCalls : list value)
    (reg : Agents.registry) (s : state (World E)) :
  callbacks_report E ->
  holds_functions reg ->
  Forall (fun tc => nullish tc = false) toolCalls ->
  exists results s',
    Agents._executeToolCallbacks E (VArr toolCalls) reg s = (Ok results, s')
    /\ resolved E reg toolCalls s results s'
    /\ forall n B cm p s0 response old,
         Agents._executeAgent E client p s0 = (Ok response, s) ->
         nullish response = false ->
         truthy (Agents.needsToolExecution response) = true ->
         Agents.pending_tool_calls response = VArr toolCalls ->
         toolCalls <> [] ->
         heap s !! cm = Some old ->
         let extended :=
           old ++ VObj [("role", VStr "assistant");
                        ("content", or_else (content_of response) VNull);
                        ("tool_calls", VArr toolCalls)]
               :: map tool_message_for results in
         Agents.run_loop E client (S n) B reg cm p s0
         = Agents.run_loop E client n B reg cm
             (Agents.mkPayload (Agents.p_agentId p) (ArrayRef cm)
                               (Agents.p_tools p) (Agents.p_options p))
             (mkState (<[cm := extended]> (heap s')) (world s') (log s'))
         /\ forall r sf,
              (1 <= n)%nat ->
              Agents.run_loop E client (S n) B reg cm p s0 = (r, sf) ->
              exists l data,
                log sf = log s' ++ EvTransport (VStr "/agents") data :: l
                /\ get_prop data "messages" = VArr extended.
Proof.
  intros Hcb Hfn Hnn.
  destruct (resolve_loop_resolved toolCalls reg Hcb Hfn Hnn s)
    as (results & s' & Hres & HR).
  assert (Hres' : Agents._executeToolCallbacks E (VArr toolCalls) reg s
                  = (Ok results, s')).
  { unfold Agents._executeToolCallbacks, bind. cbn. exact Hres. }
  exists results, s'. split; [exact Hres'|]. split; [exact HR|].
  intros n B cm p s0 response old Hexec Hresp Hneeds Hpend Hne Hold extended.
  destruct (quiet__executeToolCallbacks E _ _ _ _ _ Hres') as [Hh _].
  assert (Hold' : heap s' !! cm = Some old) by now rewrite Hh.
  assert (Hext : extended
                 = old ++ Agents.assistant_message (content_of response)
                            (VArr toolCalls)
                       :: map Agents.tool_message results).
  { unfold extended. f_equal. f_equal. apply map_ext. intros r.
    symmetry. apply tool_message_explicit. }
  rewrite Hext. split.
  - apply (run_loop_step E client n B reg cm p s0 s s' response toolCalls
             results old); auto.
  - intros r sf Hn Hrun. destruct n as [|n]; [lia|].
    apply (run_loop_step_submits E client n B reg cm p s0 s s' response
             toolCalls results old r sf); auto.
Qed.

End OneResultPerCall.

(** X23 for the calls [[A, B]] to [calc], whose callback returns
    [{result: 4}]: the results carry that value under the ids [A] and [B]
    in this order, and the next request carries
    [[user, assistant, tool(A), tool(B)]]. *)
Lemma each_result_answers_its_call_witness :
  let E := Scenario.two_calls_then_stop in
  let toolCalls := [Fixtures.call_A; Fixtures.call_B] in
  let s0 := Scenario.loop_state 0 in
  let s := snd (Agents._executeAgent E Scenario.the_client
                  Scenario.first_payload s0) in
  let final := Agents.run_loop E Scenario.the_client 2 (VNum 10)
                 (Scenario.calc_registry 0) 3%nat Scenario.first_payload s0 in
  let results :=
    [VObj [("tool_call_id", VStr "A");
           ("content", VObj [("result", VNum 4)])];
     VObj [("tool_call_id", VStr "B");
           ("content", VObj [("result", VNum 4)])]] in
  exists s',
    Agents._executeToolCallbacks E (VArr toolCalls)
      (Scenario.calc_registry 0) s = (Ok results, s')
    /\ resolved E (Scenario.calc_registry 0) toolCalls s results s'
    /\ exists l data,
         log (snd final) = log s' ++ EvTransport (VStr "/agents") data :: l
         /\ get_prop data "messages"
            = VArr (Scenario.user_message
                    :: VObj [("role", VStr "assistant");
                             ("content", VNull);
                             ("tool_calls", VArr toolCalls)]
                    :: map tool_message_for results).
Proof.
  intros E toolCalls s0 s final results.
  assert (Hnn : Forall (fun tc => nullish tc = false) toolCalls)
    by repeat constructor.
  assert (Hfn : holds_functions (Scenario.calc_registry 0))
    by (repeat constructor; eexists; reflexivity).
  destruct (each_result_answers_its_call E Scenario.the_client toolCalls
              (Scenario.calc_registry 0) s
              (scripted_callbacks_report _ _) Hfn Hnn)
    as (results' & s' & Hrun & HR & Hloop).
  assert (Hsame : results' = results).
  { assert (Hc : fst (Agents._executeToolCallbacks E (VArr toolCalls)
                        (Scenario.calc_registry 0) s) = Ok results)
      by (vm_compute; reflexivity).
    rewrite Hrun in Hc. cbn [fst] in Hc. now injection Hc. }
  subst results'.
  exists s'. split; [exact Hrun|]. split; [exact HR|].
  assert (Hexec : Agents._executeAgent E Scenario.the_client
                    Scenario.first_payload s0
                  = (Ok (Scenario.tool_body toolCalls), s))
    by (vm_compute; reflexivity).
  assert (Hne : toolCalls <> []) by discriminate.
  destruct (Hloop 1%nat (VNum 10) 3%nat Scenario.first_payload s0
              (Scenario.tool_body toolCalls) [Scenario.user_message]
              Hexec eq_refl eq_refl eq_refl Hne eq_refl) as [_ Hnext].
  exact (Hnext (fst final) (snd final) (le_n 1) (surjective_pairing final)).
Defined.

(** C5 (defect of the code). The claim promises one result per tool call
    and the messages appended from them, for every sequence of tool calls.
    The [catch] block of [_executeToolCallbacks] converts a failure of a
    callback into a result by reading [error.message]; when the callback
    rejects with [undefined] (as [Promise.reject()] does) that read is a
    [TypeError] that leaves [_executeToolCallbacks] and [run].  For the
    calls [[A, B]]: the callback is invoked once, for [A]; no result is
    produced, [B] is never resolved, nothing is appended to the messages
    of the loop, no second request is made, and [run] ends in the
    [TypeError]. *)
Theorem rejection_without_message_ends_resolution :
  let E := Fixtures.two_calls_rejected in
  let toolCalls := [Fixtures.call_A; Fixtures.call_B] in
  let s := Scenario.loop_state 0 in
  let final := snd (Agents.run E Scenario.the_client
                      (Scenario.params_with (VNum 3))
                      (Scenario.caller_state 0)) in
  Agents._executeToolCallbacks E (VArr toolCalls) (Scenario.calc_registry 0) s
  = (Throw Fixtures.no_message_error,
     mkState (heap s) (world s) [EvCall 0 (VObj [])])
  /\ fst (Agents.run E Scenario.the_client (Scenario.params_with (VNum 3))
            (Scenario.caller_state 0))
     = Throw Fixtures.no_message_error
  /\ calls (log final) = [(0%nat, VObj [])]
  /\ transport_calls (log final) = 1%nat
  /\ heap final !! 3%nat = Some [Scenario.user_message].
Proof.
  vm_compute. repeat split.
Qed.

(** X21 for the answer [401 {error: {message: "bad key"}}] *)
Lemma handled_errors_carry_a_message_witness :
  let error :=
    mkAxiosError
      (Some (401, VObj [("error", VObj [("message", VStr "bad key")])]))
      true (VStr "Request failed") in
  exists e,
    Transport._handleError Scenario.unauthorized error = Exn e
    /\ cls e = AuthenticationError
    /\ message e = VStr "bad key".
Proof.
  intros error.
  destruct (handled_errors_carry_a_message Scenario.unauthorized error)
    as (e & He & Hcls & _ & _ & Htext).
  destruct Htext as (text & Hm & _ & H1 & _).
  - right. eexists. reflexivity.
  - left. reflexivity.
  - exists e. split; [exact He|]. split; [exact Hcls|].
    rewrite Hm. symmetry. apply H1. reflexivity.
Defined.
